(** * gios-api-wrapper: the fetch engine of [utils.py] and [models.py]

    A shallow embedding of the two source files and the properties of the
    specification that are stated about them.

    Python values are dynamically typed, so the decoded JSON documents are
    modelled by one type [value]; coroutines are modelled by what they
    return and by the events they emit (HTTP requests, sleeps, printed
    lines); the lists that [Station] objects own are mutated in place, so
    they live in a store and stations hold references into it. *)

From Stdlib Require Import ZArith String List Bool Lia SpecFloat.
From stdpp Require Import base list.

Import ListNotations.
Local Open Scope string_scope.
Local Open Scope list_scope.
Local Open Scope Z_scope.

(* ================================================================= *)
(** ** Decoded JSON documents *)

#[local] Set Warnings "-register-all".

(** What [response.json()] can produce: [None], booleans, integers, floats,
    strings, lists and dictionaries with string keys (kept in insertion
    order; a lookup takes the first binding of a key). *)
Inductive value : Type :=
| VNone
| VBool (b : bool)
| VInt (z : Z)
| VFloat (f : spec_float)
| VStr (s : string)
| VList (items : list value)
| VDict (fields : list (string * value)).

(** The exceptions the two files raise or catch. All of them are subclasses
    of Python's [Exception]. *)
Inductive exn : Type :=
| Exception (msg : string)
| ValueError (msg : string)
| KeyError (key : string)
| TypeError (msg : string)
| HTTPError (msg : string)            (* requests.exceptions.HTTPError *)
| ClientResponseError (status : Z)    (* aiohttp: raise_for_status *)
| ClientError (msg : string)          (* aiohttp: the request could not be made *)
| JSONDecodeError (msg : string).

(** The classes named in the [except] clauses of the source. *)
Inductive exn_class : Type :=
| CException | CHTTPError | CKeyError | CClientResponseError.

Definition isinstance (e : exn) (c : exn_class) : bool :=
  match c, e with
  | CException, _ => true
  | CHTTPError, HTTPError _ => true
  | CKeyError, KeyError _ => true
  | CClientResponseError, ClientResponseError _ => true
  | _, _ => false
  end.

(* ================================================================= *)
(** ** The [Installation] dataclass *)

(** The parser copies fields of a raw record without looking at their
    types, so a field holds whatever value the document had. *)
Module Installation.
Record t : Type := Build {
  id : value;
  param_name : value;
  param_formula : value;
  param_code : value;
  param_id : value
}.
End Installation.

(** An object as [Station.add_installations] tells them apart: an
    [Installation], or anything else. *)
Inductive pyobj : Type :=
| PInstallation (i : Installation.t)
| POther (v : value).

Definition isinstance_Installation (o : pyobj) : bool :=
  match o with PInstallation _ => true | POther _ => false end.

(* ================================================================= *)
(** ** Requests, printed lines, events *)

Definition BASE_URL : string := "https://api.gios.gov.pl/pjp-api/v1/rest/station/".
Definition AMOUNT_PER_PAGE : Z := 500.

(** The two URL shapes the program builds with f-strings. A URL is kept as
    its components: the endpoint, the page and the page size. *)
Inductive endpoint : Type :=
| findAll
| sensors (station_id : value).

Record url : Type := Url {
  url_base : string;
  url_endpoint : endpoint;
  url_page : Z;
  url_size : Z
}.

(** What the server answers to one [session.get]: a status and the outcome
    of decoding the body, or no answer at all (the request raised). *)
Inductive response : Type :=
| Response (status : Z) (json : exn + value)
| NoResponse (e : exn).

(** [net u n] is the answer to the [n]-th request (from 0) that one call of
    [fetch_data] makes for [u]: the server answers by the URL and by how
    often the call has asked, and keeps no state from one call to the
    next. *)
Definition network : Type := url -> nat -> response.

(** One constructor per [print] of the source; the fields are the values
    that the f-string interpolates. *)
Inductive line : Type :=
| Log429 (wait_time : Z)
| LogHTTPError (e : exn)
| LogError (e : exn)
| LogKeyError (data : value)
| LogStarting
| LogCompletedPage (current_page : Z) (total_pages : value)
| LogCompleted
| LogStation (station_id station_name : value) (installations : list pyobj).

Inductive event : Type :=
| EvRequest (u : url)
| EvSleep (seconds : Z)
| EvPrint (l : line).

(* ================================================================= *)
(** ** Coroutines without store: outcome and emitted events *)

Inductive outcome (A : Type) : Type :=
| Return (a : A)
| Raised (e : exn)
| Diverged.
Arguments Return {A} a.
Arguments Raised {A} e.
Arguments Diverged {A}.

(** A computation that reads no state: its outcome and the events it
    emitted, oldest first. [Diverged] stands for a loop that has not ended
    within the given number of iterations. *)
Definition io (A : Type) : Type := (outcome A * list event)%type.

Module IO.
Definition ret {A} (a : A) : io A := (Return a, []).
Definition raise {A} (e : exn) : io A := (Raised e, []).
Definition diverge {A} : io A := (Diverged, []).
Definition emit (ev : event) : io unit := (Return tt, [ev]).
Definition print (l : line) : io unit := emit (EvPrint l).

Definition bind {A B} (c : io A) (k : A -> io B) : io B :=
  match c with
  | (Return a, t) => let '(r, t') := k a in (r, t ++ t')
  | (Raised e, t) => (Raised e, t)
  | (Diverged, t) => (Diverged, t)
  end.

(** [try: c except ...: handler]; a handler re-raises what it does not
    catch. *)
Definition try_except {A} (c : io A) (handler : exn -> io A) : io A :=
  match c with
  | (Raised e, t) => let '(r, t') := handler e in (r, t ++ t')
  | other => other
  end.
End IO.

Declare Scope io_scope.
Delimit Scope io_scope with io.
Notation "x <- c ;; k" := (IO.bind c (fun x => k))
  (at level 100, c at next level, right associativity) : io_scope.
Notation "c ;;; k" := (IO.bind c (fun _ => k))
  (at level 100, right associativity) : io_scope.

(* ================================================================= *)
(** ** Operations on dynamically typed values *)

Fixpoint assoc (key : string) (fields : list (string * value)) : option value :=
  match fields with
  | [] => None
  | (k, v) :: rest => if String.eqb key k then Some v else assoc key rest
  end.

(** [v[key]] for a string [key]. *)
Definition getitem (v : value) (key : string) : io value :=
  match v with
  | VDict fields =>
      match assoc key fields with
      | Some x => IO.ret x
      | None => IO.raise (KeyError key)
      end
  | VList _ => IO.raise (TypeError "list indices must be integers or slices, not str")
  | VStr _ => IO.raise (TypeError "string indices must be integers, not 'str'")
  | _ => IO.raise (TypeError "object is not subscriptable")
  end.

Fixpoint chars (s : string) : list value :=
  match s with
  | EmptyString => []
  | String c rest => VStr (String c EmptyString) :: chars rest
  end.

(** [for data in v]: the items the loop visits. *)
Definition iterate (v : value) : io (list value) :=
  match v with
  | VList items => IO.ret items
  | VDict fields => IO.ret (map (fun kv => VStr (fst kv)) fields)
  | VStr s => IO.ret (chars s)
  | _ => IO.raise (TypeError "object is not iterable")
  end.

(** [n < f] for an integer [n] and a float [f]; Python compares the exact
    values. *)
Definition int_lt_float (n : Z) (f : spec_float) : bool :=
  match f with
  | S754_zero _ => n <? 0
  | S754_infinity negative => negb negative
  | S754_nan => false
  | S754_finite negative m e =>
      let v := if negative then Z.neg m else Z.pos m in
      if 0 <=? e then n <? v * 2 ^ e else n * 2 ^ (- e) <? v
  end.

(** [n < v] for an integer [n]. *)
Definition int_lt (n : Z) (v : value) : io bool :=
  match v with
  | VInt z => IO.ret (n <? z)
  | VBool b => IO.ret (n <? (if b then 1 else 0))
  | VFloat f => IO.ret (int_lt_float n f)
  | _ => IO.raise (TypeError "'<' not supported between these instances")
  end.

Definition isinstance_dict (v : value) : bool :=
  match v with VDict _ => true | _ => false end.

(* ================================================================= *)
(** ** utils.py *)

Section Utils.
Variable net : network.

Local Open Scope io_scope.

Definition failed_to_fetch : exn := Exception "Failed to fetch data".

(** How one turn of the [while] loop of [fetch_data] ends. *)
Inductive turn : Type :=
| Continue
| Break
| ReturnValue (v : value).

(** The body of the [try] block, for the answer [r] to [session.get]. *)
Definition attempt (r : response) (wait_time : Z) : io turn :=
  match r with
  | NoResponse e => IO.raise e
  | Response status json =>
      if status =? 429 then
        IO.print (Log429 wait_time) ;;;
        IO.emit (EvSleep wait_time) ;;;
        IO.ret Continue
      else if 400 <=? status then
        IO.raise (ClientResponseError status)
      else
        match json with
        | inr v => IO.ret (ReturnValue v)
        | inl e => IO.raise e
        end
  end.

Definition handlers (e : exn) : io turn :=
  if isinstance e CClientResponseError then
    IO.print (LogHTTPError e) ;;; IO.ret Break
  else if isinstance e CException then
    IO.print (LogError e) ;;; IO.ret Break
  else IO.raise e.

Fixpoint fetch_loop (fuel : nat) (u : url) (max_retries : Z)
    (retry_count : nat) (wait_time : Z) : io value :=
  match fuel with
  | O => IO.diverge
  | S fuel =>
      if Z.of_nat retry_count <? max_retries then
        t <- IO.try_except
               (IO.emit (EvRequest u) ;;;
                attempt (net u retry_count) wait_time)
               handlers ;;
        match t with
        | Continue =>
            fetch_loop fuel u max_retries (S retry_count) (wait_time * 2)
        | Break => IO.raise failed_to_fetch
        | ReturnValue v => IO.ret v
        end
      else IO.raise failed_to_fetch
  end.

(** The loop makes at most [max_retries] turns. *)
Definition fetch_data (u : url) (max_retries : Z) : io value :=
  fetch_loop (S (Z.to_nat max_retries)) u max_retries 0 1.

End Utils.

(* ================================================================= *)
(** ** asyncio: tasks and [gather] *)

(** Coroutines of this program share no state (a coroutine only emits
    events), so what a task returns does not depend on when the event loop
    runs it. What the loop decides is the order of the events, and the
    program fixes that order only in part:

    - a task whose coroutine has no [await] inside (the parse of a page)
      runs to its end in one piece, as soon as the loop gets control: at
      the next point where its creator waits for the network, or at
      [gather] when there is no such point. Its events have a fixed place
      in the trace of its creator;
    - a task that waits for the network itself (the installations of a
      station) runs concurrently with its creator and with its siblings.
      Where its events fall between theirs depends on the network. Such a
      task has a trace of its own, [snd] of its coroutine, and the trace of
      the coroutine that awaits it holds none of its events.

    An event list is therefore the trace of one coroutine, together with
    the tasks of the first kind that it created. *)
Module asyncio.

Inductive Task (A : Type) : Type :=
| Pending (coro : io A)
| Done (result : outcome A).
Arguments Pending {A} coro.
Arguments Done {A} result.

Definition create_task {A} (coro : io A) : Task A := Pending coro.

(** The state of a run of the loop: the tasks, the indices of the tasks
    that finished during the run (oldest first), the events emitted. *)
Definition run_state (A : Type) : Type :=
  (list (Task A) * list nat * list event)%type.

(** The loop runs task [i]. A task that is done, or an index that names
    no task, changes nothing; a coroutine that never ends emits its
    events and stays pending. *)
Definition run_task {A} (st : run_state A) (i : nat) : run_state A :=
  let '(tasks, finished, evs) := st in
  match tasks !! i with
  | Some (Pending (Diverged, t)) =>
      (<[i := Pending (Diverged, [])]> tasks, finished, evs ++ t)
  | Some (Pending (r, t)) =>
      (<[i := Done r]> tasks, finished ++ [i], evs ++ t)
  | _ => st
  end.

Definition run {A} (order : list nat) (tasks : list (Task A)) : run_state A :=
  fold_left run_task order (tasks, [], []).

(** The loop gets control and runs the tasks that are ready, in the order
    of their creation: the new states of the tasks and the events. *)
Definition run_ready {A} (tasks : list (Task A))
    : list (Task A) * list event :=
  let '(tasks', _, evs) := run (seq 0 (length tasks)) tasks in
  (tasks', evs).

(** The events [evs] of a coroutine that waits for the network, and the
    events [ready] of the tasks that run while it waits: the coroutine
    runs up to its first request, the tasks run while the answer is
    awaited, and the coroutine goes on. *)
Definition while_waiting (ready evs : list event) : list event :=
  match evs with
  | [] => ready
  | ev :: rest => ev :: ready ++ rest
  end.

(** [await c], where [c] waits for the network and the tasks that are
    ready emit [ready]. *)
Definition await_network {A} (ready : list event) (c : io A) : io A :=
  (fst c, while_waiting ready (snd c)).

Definition is_done {A} (t : Task A) : bool :=
  match t with Done _ => true | Pending _ => false end.

(** Indices of the tasks that are done, in list order. *)
Definition done_indices {A} (tasks : list (Task A)) : list nat :=
  List.filter (fun i => match tasks !! i with
                   | Some t => is_done t
                   | None => false
                   end) (seq 0 (length tasks)).

(** The exception of the first task, in the order [indices], that raised. *)
Fixpoint first_exception {A} (tasks : list (Task A)) (indices : list nat)
    : option exn :=
  match indices with
  | [] => None
  | i :: rest =>
      match tasks !! i with
      | Some (Done (Raised e)) => Some e
      | _ => first_exception tasks rest
      end
  end.

(** The results of the tasks in list order, when all have returned. *)
Fixpoint results {A} (tasks : list (Task A)) : option (list A) :=
  match tasks with
  | [] => Some []
  | Done (Return a) :: rest =>
      match results rest with
      | Some rs => Some (a :: rs)
      | None => None
      end
  | _ => None
  end.

(** [await asyncio.gather( *tasks )]. The loop runs the pending tasks, in
    the order [order] and then in the order of their creation. The first
    exception to reach [gather] is raised: tasks that were done already
    report first, in list order, then the others as they finish. Without
    an exception the results come back in the order of [tasks]; when a
    task never ends and none raises, neither does [gather] end. The task
    objects are shared with the loop; their new states are returned with
    the results. The events are those of all the tasks that were run,
    also of those that the loop would still be running when [gather]
    raises. *)
Definition gather {A} (order : list nat) (tasks : list (Task A))
    : io (list (Task A) * list A) :=
  let already := done_indices tasks in
  let '(tasks', finished, evs) :=
    run (order ++ seq 0 (length tasks)) tasks in
  match first_exception tasks' (already ++ finished) with
  | Some e => (Raised e, evs)
  | None =>
      match results tasks' with
      | Some rs => (Return (tasks', rs), evs)
      | None => (Diverged, evs)
      end
  end.

(** [await asyncio.gather( *tasks )] for tasks that wait for the network:
    the outcome of [gather], in the trace of the awaiting coroutine. The
    events of the tasks are in their own traces. *)
Definition gather_concurrent {A} (order : list nat) (tasks : list (Task A))
    : io (list (Task A) * list A) :=
  (fst (gather order tasks), []).

End asyncio.

(* ================================================================= *)
(** ** models.py: [create_installations] *)

Section CreateInstallations.
Local Open Scope io_scope.

(** [Installation(id = data[...], ...)]: keyword arguments are evaluated
    from left to right. *)
Definition make_installation (data : value) : io Installation.t :=
  id <- getitem data "Identyfikator stanowiska" ;;
  param_name <- getitem data "Wskaźnik" ;;
  param_formula <- getitem data "Wskaźnik - wzór" ;;
  param_code <- getitem data "Wskaźnik - kod" ;;
  param_id <- getitem data "Id wskaźnika" ;;
  IO.ret (Installation.Build id param_name param_formula param_code param_id).

(** The [for data in installation_data_list] loop. *)
Fixpoint installations_of_records (records : list value)
    (installations : list Installation.t) : io (list Installation.t) :=
  match records with
  | [] => IO.ret installations
  | data :: rest =>
      installations <-
        IO.try_except
          (installation <- make_installation data ;;
           IO.ret (installations ++ [installation]))
          (fun e =>
             if isinstance e CKeyError then
               IO.print (LogKeyError data) ;;; IO.ret installations
             else IO.raise e) ;;
      installations_of_records rest installations
  end.

Definition create_installations (installation_data : value)
    : io (list Installation.t) :=
  if negb (isinstance_dict installation_data) then
    IO.raise (ValueError "Data must be a dictionary/json")
  else
    installation_data_list <-
      getitem installation_data
              "Lista stanowisk pomiarowych dla podanej stacji" ;;
    records <- iterate installation_data_list ;;
    installations_of_records records [].

End CreateInstallations.

(* ================================================================= *)
(** ** The store of list objects *)

(** [Station.add_installations] appends to a list in place, and a caller may
    hand it that very list. The lists owned by stations are therefore kept
    in a store, and a station holds the location of its list. *)
Abbreviation loc := nat (only parsing).
Abbreviation store := (list (list pyobj)) (only parsing).

Definition read (s : store) (l : loc) : list pyobj := default [] (s !! l).

(** A computation over the store: outcome, final store, emitted events.
    The store survives an exception. *)
Definition proc (A : Type) : Type := store -> outcome A * store * list event.

Module Proc.
Definition ret {A} (a : A) : proc A := fun s => (Return a, s, []).
Definition raise {A} (e : exn) : proc A := fun s => (Raised e, s, []).
Definition diverge {A} : proc A := fun s => (Diverged, s, []).
Definition print (l : line) : proc unit := fun s => (Return tt, s, [EvPrint l]).
Definition lift {A} (c : io A) : proc A := fun s => (fst c, s, snd c).

Definition bind {A B} (c : proc A) (k : A -> proc B) : proc B :=
  fun s =>
    match c s with
    | (Return a, s', t) => let '(r, s'', t') := k a s' in (r, s'', t ++ t')
    | (Raised e, s', t) => (Raised e, s', t)
    | (Diverged, s', t) => (Diverged, s', t)
    end.

Definition try_except {A} (c : proc A) (handler : exn -> proc A) : proc A :=
  fun s =>
    match c s with
    | (Raised e, s', t) => let '(r, s'', t') := handler e s' in (r, s'', t ++ t')
    | other => other
    end.

Definition get_store : proc store := fun s => (Return s, s, []).

(** A new empty list: [field(default_factory=list)]. *)
Definition new_list : proc loc := fun s => (Return (length s), s ++ [[]], []).

(** [l.append(x)] *)
Definition append (l : loc) (x : pyobj) : proc unit :=
  fun s => (Return tt, <[l := read s l ++ [x]]> s, []).
End Proc.

Declare Scope proc_scope.
Delimit Scope proc_scope with proc.
Notation "x <- c ;; k" := (Proc.bind c (fun x => k))
  (at level 100, c at next level, right associativity) : proc_scope.
Notation "c ;;; k" := (Proc.bind c (fun _ => k))
  (at level 100, right associativity) : proc_scope.

(** A list object: one that the store holds, named by its location, or one
    that only the caller holds, given by its items. *)
Inductive pylist : Type :=
| Stored (l : loc)
| Fresh (items : list pyobj).

Definition items_of (s : store) (xs : pylist) : list pyobj :=
  match xs with
  | Stored l => read s l
  | Fresh items => items
  end.

(** What a caller can pass to [add_installations]. *)
Inductive argument : Type :=
| AList (xs : pylist)
| AObject (o : pyobj).

(* ================================================================= *)
(** ** models.py: the [Station] dataclass *)

Definition default_max_retries : Z := 5.

Module Station.

Record t : Type := Build {
  id : value;
  code : value;
  name : value;
  latitude : value;
  longitude : value;
  city : value;
  address_street : value;
  installations : loc
}.

Section Methods.
Variable net : network.

Definition sensors_url (self : t) (current_page : Z) : url :=
  Url BASE_URL (sensors (id self)) current_page AMOUNT_PER_PAGE.

(** The [while] loop of [get_installations] and the lines after it,
    which run when the loop condition fails. [inl] is the [return []]
    of the handler, [inr] the fetched document. The parse task of a page
    has no [await] inside: it runs while the next page is fetched, and the
    task of the last page runs when [gather] is awaited. *)
Fixpoint get_installations_loop (fuel : nat) (self : t) (current_page : Z)
    (total_pages : value) (updated_total : bool)
    (tasks : list (asyncio.Task (list Installation.t)))
    : io (list Installation.t) :=
  match fuel with
  | O => IO.diverge
  | S fuel =>
      (go <- int_lt current_page total_pages ;;
       if go : bool then
         let ready := asyncio.run_ready tasks in
         let tasks := fst ready in
         fetched <-
           IO.try_except
             (installation_data <-
                asyncio.await_network (snd ready)
                  (fetch_data net (sensors_url self current_page)
                              default_max_retries) ;;
              IO.ret (inr installation_data))
             (fun e =>
                if isinstance e CHTTPError then
                  IO.print (LogError e) ;;; IO.ret (inl [])
                else IO.raise e) ;;
         match fetched with
         | inl result => IO.ret result
         | inr installation_data =>
             total_pages <-
               (if updated_total then IO.ret total_pages
                else getitem installation_data "totalPages") ;;
             get_installations_loop fuel self (current_page + 1)
               total_pages true
               (tasks ++ [asyncio.create_task
                            (create_installations installation_data)])
         end
       else
         gathered <- asyncio.gather [] tasks ;;
         let installations := snd gathered in
         IO.ret (concat installations))%io
  end.

Definition get_installations (fuel : nat) (self : t)
    : io (list Installation.t) :=
  get_installations_loop fuel self 0 (VInt 1) false [].

End Methods.

(** [for install in installations: self.installations.append(install)]:
    the iterator holds an index into the list and stops when the index
    reaches the length the list has at that moment. *)
Fixpoint append_each (fuel : nat) (self : t) (installations : pylist)
    (index : nat) : proc unit :=
  match fuel with
  | O => Proc.diverge
  | S fuel =>
      (s <- Proc.get_store ;;
       match items_of s installations !! index with
       | None => Proc.ret tt
       | Some install =>
           Proc.append (Station.installations self) install ;;;
           append_each fuel self installations (S index)
       end)%proc
  end.

Definition add_installations (fuel : nat) (self : t) (arg : argument)
    : proc unit :=
  (let installations :=
     match arg with
     | AList xs => xs
     | AObject o => Fresh [o]
     end in
   s <- Proc.get_store ;;
   if negb (forallb isinstance_Installation (items_of s installations)) then
     Proc.raise (ValueError "All installations must be of type Installation")
   else append_each fuel self installations 0)%proc.

Definition installation_count (self : t) : proc nat :=
  (s <- Proc.get_store ;;
   Proc.ret (length (read s (installations self))))%proc.

(** [__str__] reads the identifier, the name and the installations. *)
Definition str (self : t) : proc line :=
  (s <- Proc.get_store ;;
   Proc.ret (LogStation (id self) (name self) (read s (installations self))))%proc.

End Station.

(* ================================================================= *)
(** ** models.py: [create_stations], [get_stations], [output_stations] *)

Section Stations.
Variable net : network.

Local Open Scope proc_scope.

(** [Station(id = data[...], ...)]: the eleven lookups from left to
    right, then the constructor, which makes the new station's own empty
    list of installations. *)
Definition make_station (data : value) : proc Station.t :=
  id <- Proc.lift (getitem data "Identyfikator stacji") ;;
  code <- Proc.lift (getitem data "Kod stacji") ;;
  name <- Proc.lift (getitem data "Nazwa stacji") ;;
  latitude <- Proc.lift (getitem data "WGS84 φ N") ;;
  longitude <- Proc.lift (getitem data "WGS84 λ E") ;;
  city_name <- Proc.lift (getitem data "Nazwa miasta") ;;
  city_id <- Proc.lift (getitem data "Identyfikator miasta") ;;
  commune <- Proc.lift (getitem data "Gmina") ;;
  district <- Proc.lift (getitem data "Powiat") ;;
  province <- Proc.lift (getitem data "Województwo") ;;
  address_street <- Proc.lift (getitem data "Ulica") ;;
  installations <- Proc.new_list ;;
  Proc.ret (Station.Build id code name latitude longitude
              (VDict [("name", city_name); ("city_id", city_id);
                      ("commune", commune); ("district", district);
                      ("province", province)])
              address_street installations).

(** The [for data in station_data_list] loop. *)
Fixpoint stations_of_records (records : list value)
    (stations : list Station.t) : proc (list Station.t) :=
  match records with
  | [] => Proc.ret stations
  | data :: rest =>
      stations <-
        Proc.try_except
          (station <- make_station data ;;
           Proc.ret (stations ++ [station]))
          (fun e =>
             if isinstance e CKeyError then
               Proc.print (LogKeyError data) ;;; Proc.ret stations
             else Proc.raise e) ;;
      stations_of_records rest stations
  end.

Definition create_stations (station_data : value) : proc (list Station.t) :=
  if negb (isinstance_dict station_data) then
    Proc.raise (ValueError "Data must be a dictionary/json")
  else
    station_data_list <-
      Proc.lift (getitem station_data "Lista stacji pomiarowych") ;;
    records <- Proc.lift (iterate station_data_list) ;;
    stations_of_records records [].

Definition stations_url (current_page : Z) : url :=
  Url BASE_URL findAll current_page AMOUNT_PER_PAGE.

Definition installation_task : Type := asyncio.Task (list Installation.t).

(** The [while] loop of [get_stations]; [task_fuel] bounds the loops of
    the coroutines it creates. The tasks it creates wait for the network:
    they run concurrently with the loop, which keeps them as it made them
    until they are awaited, and the events are those of the loop
    itself. *)
Fixpoint get_stations_loop (fuel task_fuel : nat) (current_page : Z)
    (total_pages : value) (updated_total : bool)
    (tasks : list installation_task) (master_list : list Station.t)
    : proc (list Station.t * list installation_task) :=
  match fuel with
  | O => Proc.diverge
  | S fuel =>
      go <- Proc.lift (int_lt current_page total_pages) ;;
      if go : bool then
        station_data <-
          Proc.try_except
            (Proc.lift (fetch_data net (stations_url current_page)
                                   default_max_retries))
            (fun e => Proc.raise e) ;;
        total_pages <-
          (if updated_total then Proc.ret total_pages
           else Proc.lift (getitem station_data "totalPages")) ;;
        let current_page := current_page + 1 in
        stations <- create_stations station_data ;;
        let tasks :=
          tasks ++ map (fun station =>
                          asyncio.create_task
                            (Station.get_installations net task_fuel station))
                       stations in
        let master_list := master_list ++ stations in
        Proc.print (LogCompletedPage current_page total_pages) ;;;
        get_stations_loop fuel task_fuel current_page total_pages true
                          tasks master_list
      else Proc.ret (master_list, tasks)
  end.

(** [for x in xs: body(x)] *)
Fixpoint for_each {A} (xs : list A) (body : A -> proc unit) : proc unit :=
  match xs with
  | [] => Proc.ret tt
  | x :: rest => body x ;;; for_each rest body
  end.

Definition output_stations (stations : list Station.t) : proc unit :=
  for_each stations (fun station =>
    l <- Station.str station ;; Proc.print l).

(** [sched] is the order in which the event loop finishes the
    installation tasks; [fuel] bounds every loop. The list that a task
    returned is held by [get_stations] alone. The installation tasks wait
    for the network: the events are those of [get_stations] itself, and
    the trace of the task of a station is that of its
    [get_installations]. *)
Definition get_stations (sched : list nat) (fuel : nat) (echo : bool)
    : proc (list Station.t) :=
  Proc.print LogStarting ;;;
  looped <- get_stations_loop fuel fuel 0 (VInt 1) false [] [] ;;
  let master_list := fst looped in
  let tasks := snd looped in
  gathered <- Proc.lift (asyncio.gather_concurrent sched tasks) ;;
  let tasks := fst gathered in
  gathered <- Proc.lift (asyncio.gather_concurrent sched tasks) ;;
  for_each (combine master_list (snd gathered))
    (fun '(station, installs) =>
       Station.add_installations fuel station
         (AList (Fresh (map PInstallation installs)))) ;;;
  Proc.print LogCompleted ;;;
  (if echo then output_stations master_list else Proc.ret tt) ;;;
  Proc.ret master_list.

End Stations.

(* ================================================================= *)
(** * The vocabulary of the properties *)

(* ================================================================= *)
(** ** Reading event lists *)

Definition sleeps (evs : list event) : list Z :=
  flat_map (fun ev => match ev with EvSleep t => [t] | _ => [] end) evs.

Definition requests (evs : list event) : list url :=
  flat_map (fun ev => match ev with EvRequest u => [u] | _ => [] end) evs.

Definition total_wait (evs : list event) : Z := fold_right Z.add 0 (sleeps evs).

(** The waits of a backoff that starts at [w]: [w], [2w], [4w], ... *)
Fixpoint backoff (w : Z) (k : nat) : list Z :=
  match k with
  | O => []
  | S k => w :: backoff (w * 2) k
  end.

Definition is_429 (r : response) : Prop :=
  exists json, r = Response 429 json.

(** The events of [k] consecutive turns that were answered by 429. *)
Fixpoint turns_429 (u : url) (w : Z) (k : nat) : list event :=
  match k with
  | O => []
  | S k =>
      [EvRequest u; EvPrint (Log429 w); EvSleep w] ++ turns_429 u (w * 2) k
  end.

(** Two answers 429, then success, within the default five turns. *)
Definition twice_429 (body : value) : network :=
  fun _ n =>
    match n with
    | 0%nat | 1%nat => Response 429 (inl (Exception "Too Many Requests"))
    | _ => Response 200 (inr body)
    end.

Definition always_status (status : Z) : network :=
  fun _ _ => Response status (inl (JSONDecodeError "no body")).

(* ================================================================= *)
(** ** Records, entities and pages *)

(** The record is a dictionary that has the key. *)
Definition has_field (data : value) (key : string) : bool :=
  match data with
  | VDict fields => bool_decide (is_Some (assoc key fields))
  | _ => false
  end.

(** The value under the key. *)
Definition field (data : value) (key : string) : value :=
  match data with
  | VDict fields => default VNone (assoc key fields)
  | _ => VNone
  end.

Definition installation_keys : list string :=
  ["Identyfikator stanowiska"; "Wskaźnik"; "Wskaźnik - wzór";
   "Wskaźnik - kod"; "Id wskaźnika"].

Definition station_keys : list string :=
  ["Identyfikator stacji"; "Kod stacji"; "Nazwa stacji"; "WGS84 φ N";
   "WGS84 λ E"; "Nazwa miasta"; "Identyfikator miasta"; "Gmina"; "Powiat";
   "Województwo"; "Ulica"].

(** What the specification calls a well-formed record: a dictionary that
    has every key the parser reads. The other records are the ones that
    miss a required field. *)
Definition well_formed (keys : list string) (data : value) : bool :=
  forallb (has_field data) keys.

Definition malformed (keys : list string) (data : value) : bool :=
  negb (well_formed keys data).

(** The entity that the field mapping gives for a record. *)
Definition installation_of (data : value) : Installation.t :=
  Installation.Build
    (field data "Identyfikator stanowiska") (field data "Wskaźnik")
    (field data "Wskaźnik - wzór") (field data "Wskaźnik - kod")
    (field data "Id wskaźnika").

(** The fields of the station for a record; its list of installations is
    set by [place]. *)
Definition station_of (data : value) : Station.t :=
  Station.Build
    (field data "Identyfikator stacji") (field data "Kod stacji")
    (field data "Nazwa stacji") (field data "WGS84 φ N")
    (field data "WGS84 λ E")
    (VDict [("name", field data "Nazwa miasta");
            ("city_id", field data "Identyfikator miasta");
            ("commune", field data "Gmina");
            ("district", field data "Powiat");
            ("province", field data "Województwo")])
    (field data "Ulica") 0%nat.

Definition with_installations (st : Station.t) (l : loc) : Station.t :=
  Station.Build (Station.id st) (Station.code st) (Station.name st)
    (Station.latitude st) (Station.longitude st) (Station.city st)
    (Station.address_street st) l.

(** Stations that were made one after the other, the first when the store
    had [base] lists: each owns the list that was new at its creation. *)
Fixpoint place (base : loc) (sts : list Station.t) : list Station.t :=
  match sts with
  | [] => []
  | st :: rest => with_installations st base :: place (S base) rest
  end.

Definition key_errors (records : list value) : list event :=
  map (fun data => EvPrint (LogKeyError data)) records.

Definition is_dict (v : value) : Prop := isinstance_dict v = true.

(* ================================================================= *)
(** ** Sample documents *)

Definition sample_installation_record (i : Z) : value :=
  VDict [("Identyfikator stanowiska", VInt i); ("Wskaźnik", VStr "pył PM10");
         ("Wskaźnik - wzór", VStr "PM10"); ("Wskaźnik - kod", VStr "PM10");
         ("Id wskaźnika", VInt 3)].

Definition sample_station_record (i : Z) : value :=
  VDict [("Identyfikator stacji", VInt i); ("Kod stacji", VStr "DsWrocWybCon");
         ("Nazwa stacji", VStr "Wrocław"); ("WGS84 φ N", VStr "51.1");
         ("WGS84 λ E", VStr "17.0"); ("Nazwa miasta", VStr "Wrocław");
         ("Identyfikator miasta", VInt 1064); ("Gmina", VStr "Wrocław");
         ("Powiat", VStr "Wrocław"); ("Województwo", VStr "DOLNOŚLĄSKIE");
         ("Ulica", VStr "Wyb. Conrada")].

(** A record without its street, and one without its formula. *)
Definition broken_station_record : value :=
  VDict [("Identyfikator stacji", VInt 9); ("Kod stacji", VStr "x")].

Definition broken_installation_record : value :=
  VDict [("Identyfikator stanowiska", VInt 9); ("Wskaźnik", VStr "x")].

Definition installations_page (total_pages : Z) (records : list value)
    : list (string * value) :=
  [("totalPages", VInt total_pages);
   ("Lista stanowisk pomiarowych dla podanej stacji", VList records)].

Definition stations_page (total_pages : Z) (records : list value)
    : list (string * value) :=
  [("totalPages", VInt total_pages);
   ("Lista stacji pomiarowych", VList records)].

Definition sample_installation (i : Z) : Installation.t :=
  installation_of (sample_installation_record i).

(** A station that owns the list at location 0. *)
Definition sample_station : Station.t :=
  with_installations (station_of (sample_station_record 1)) 0.

(* ================================================================= *)
(** ** Parsing twice, equality of stations *)

Definition parse_installations_twice (d : value)
    : io (list Installation.t * list Installation.t) :=
  (first <- create_installations d ;;
   second <- create_installations d ;;
   IO.ret (first, second))%io.

Definition parse_stations_twice (d : value)
    : proc (list Station.t * list Station.t) :=
  (first <- create_stations d ;;
   second <- create_stations d ;;
   Proc.ret (first, second))%proc.

(** Equality of two [Station] objects as the dataclass defines it: field by
    field, the two lists of installations compared by their items. *)
Definition station_equal (s : store) (a b : Station.t) : Prop :=
  Station.id a = Station.id b /\
  Station.code a = Station.code b /\
  Station.name a = Station.name b /\
  Station.latitude a = Station.latitude b /\
  Station.longitude a = Station.longitude b /\
  Station.city a = Station.city b /\
  Station.address_street a = Station.address_street b /\
  read s (Station.installations a) = read s (Station.installations b).

(* ================================================================= *)
(** ** Arguments of [add_installations] *)

(** The list that an argument stands for, after the first two lines of
    the method. *)
Definition argument_items (s : store) (arg : argument) : list pyobj :=
  match arg with
  | AList xs => items_of s xs
  | AObject o => [o]
  end.

(** The argument is not the station's own list object. *)
Definition other_list (self : Station.t) (xs : pylist) : Prop :=
  match xs with
  | Stored l => l <> Station.installations self
  | Fresh _ => True
  end.

Definition other_object (self : Station.t) (arg : argument) : Prop :=
  match arg with
  | AList xs => other_list self xs
  | AObject _ => True
  end.

(* ================================================================= *)
(** ** Tasks and page loops *)

(** The state of a task once the loop has run it. *)
Definition finish {A} (t : asyncio.Task A) : asyncio.Task A :=
  match t with
  | asyncio.Pending (r, _) => asyncio.Done r
  | asyncio.Done r => asyncio.Done r
  end.

(** The coroutine of the task ends. *)
Definition ends {A} (t : asyncio.Task A) : Prop :=
  forall evs, t <> asyncio.Pending (Diverged, evs).

(** Tasks that are done and have returned [rs]. *)
Definition returned {A} (rs : list A) : list (asyncio.Task A) :=
  map (fun a => asyncio.Done (Return a)) rs.

Definition returns {A} (c : io A) (a : A) : Prop := fst c = Return a.

(** The value of [total_pages] after the first lines of a turn. *)
Definition read_total (updated_total : bool) (total_pages data : value)
    : io value :=
  if updated_total then IO.ret total_pages else getitem data "totalPages".

Definition parse_task (data : value) : asyncio.Task (list Installation.t) :=
  asyncio.create_task (create_installations data).

Definition installations_task (net : network) (task_fuel : nat)
    (st : Station.t) : installation_task :=
  asyncio.create_task (Station.get_installations net task_fuel st).

Definition installations_key : string :=
  "Lista stanowisk pomiarowych dla podanej stacji".

Definition stations_key : string := "Lista stacji pomiarowych".

(** What one page contributes: the entities of its well-formed records and
    a printed line for each of the others. *)
Definition page_installations (records : list value) : list Installation.t :=
  map installation_of (List.filter (well_formed installation_keys) records).

Definition page_stations (records : list value) : list Station.t :=
  map station_of (List.filter (well_formed station_keys) records).

Definition over_pages {A} (first count : nat) (f : nat -> list A) : list A :=
  concat (map f (seq first count)).

(** The first [n] pages of a resource are fetched without error: page
    [i] is the dictionary [fields i], its record list [records i] holds
    dictionaries, the fetch emits [fevs i], and page 0 reports [total]
    pages. *)
Definition serves (net : network) (page_url : Z -> url) (list_key : string)
    (total : Z) (n : nat) (fields : nat -> list (string * value))
    (records : nat -> list value) (fevs : nat -> list event) : Prop :=
  forall i, (i < n)%nat ->
    fetch_data net (page_url (Z.of_nat i)) default_max_retries
      = (Return (VDict (fields i)), fevs i) /\
    assoc list_key (fields i) = Some (VList (records i)) /\
    Forall is_dict (records i) /\
    (i = 0%nat -> assoc "totalPages" (fields i) = Some (VInt total)).

Definition gathered (r : outcome (list (asyncio.Task (list Installation.t))
                                  * list (list Installation.t)))
    : outcome (list Installation.t) :=
  match r with
  | Return g => Return (concat (snd g))
  | Raised e => Raised e
  | Diverged => Diverged
  end.

(** [total_pages] and [updated_total] at the start of the turn for page
    [c]. *)
Definition loop_state (total : Z) (c : nat) : value * bool :=
  match c with
  | O => (VInt 1, false)
  | S _ => (VInt total, true)
  end.

(** The events of the turn of [get_stations] for page [i]. *)
Definition station_turn (total : Z) (records : nat -> list value)
    (fevs : nat -> list event) (i : nat) : list event :=
  fevs i ++
  key_errors (List.filter (malformed station_keys) (records i)) ++
  [EvPrint (LogCompletedPage (Z.of_nat i + 1) (VInt total))].

(* ================================================================= *)
(** ** Mock networks *)

(** A mock of the API: two pages of stations with one station each (the
    second page also has a broken record); the first station has two pages
    of installations, the second station one. Every other request is
    answered with 404. *)
Definition mock_api : network :=
  fun u _ =>
    match url_endpoint u, url_page u with
    | findAll, 0 =>
        Response 200 (inr (VDict (stations_page 2 [sample_station_record 1])))
    | findAll, 1 =>
        Response 200 (inr (VDict (stations_page 2
                             [sample_station_record 2; broken_station_record])))
    | sensors (VInt 1), 0 =>
        Response 200 (inr (VDict (installations_page 2
                             [sample_installation_record 10])))
    | sensors (VInt 1), 1 =>
        Response 200 (inr (VDict (installations_page 2
                             [broken_installation_record;
                              sample_installation_record 11])))
    | sensors (VInt 2), 0 =>
        Response 200 (inr (VDict (installations_page 1
                             [sample_installation_record 20])))
    | _, _ => Response 404 (inl (JSONDecodeError "no body"))
    end.

Definition mock_station (i : Z) (l : loc) : Station.t :=
  with_installations (station_of (sample_station_record i)) l.

(** The stations endpoint answers 503 for its second page. *)
Definition second_page_down : network :=
  fun u n =>
    match url_endpoint u, url_page u with
    | findAll, 1 => Response 503 (inl (JSONDecodeError "no body"))
    | _, _ => mock_api u n
    end.

(** The sensors endpoint of station 2 answers 500; all else is as in
    [mock_api]. *)
Definition second_station_down : network :=
  fun u n =>
    match url_endpoint u with
    | sensors (VInt 2) => Response 500 (inl (JSONDecodeError "no body"))
    | _ => mock_api u n
    end.

(* ================================================================= *)
(** ** The merge *)

(** One call of [add_installations], with the station's own result. *)
Definition merge_one (fuel : nat)
    (installs : Station.t -> list Installation.t) (st : Station.t)
    : proc unit :=
  Station.add_installations fuel st
    (AList (Fresh (map PInstallation (installs st)))).

(** The store after that call. *)
Definition merged_one (installs : Station.t -> list Installation.t)
    (s : store) (st : Station.t) : store :=
  <[Station.installations st :=
      read s (Station.installations st) ++ map PInstallation (installs st)]> s.

(** The results of the two installation fetches against [mock_api]. *)
Definition mock_installs (st : Station.t) : list Installation.t :=
  match Station.id st with
  | VInt 1 => [sample_installation 10; sample_installation 11]
  | _ => [sample_installation 20]
  end.

(* ================================================================= *)
(** ** Failures, malformed pages and printed stations *)

(** The line that the handlers of [fetch_data] print for the exception
    [e]. *)
Definition handler_line (e : exn) : line :=
  if isinstance e CClientResponseError then LogHTTPError e else LogError e.

(** The answer [r] makes the [try] block of [fetch_data] raise [e] without
    an HTTP error status: the request itself failed, or the body of a
    response below 400 could not be decoded. *)
Definition fails_with (r : response) (e : exn) : Prop :=
  r = NoResponse e \/
  exists status, r = Response status (inl e) /\ status < 400 /\ status <> 429.

(** [v] is no number: comparing an integer with it raises [TypeError]. *)
Definition not_a_number (v : value) : Prop :=
  match v with
  | VInt _ | VBool _ | VFloat _ => False
  | _ => True
  end.

(** What [output_stations] prints for a station, in one call of
    [print]: the text of [Station.__str__], made of the identifier, the
    name and the installations. *)
Definition station_line (s : store) (st : Station.t) : event :=
  EvPrint (LogStation (Station.id st) (Station.name st)
             (read s (Station.installations st))).

(** What [echo] adds to the output of [get_stations]. *)
Definition echo_lines (r : outcome (list Station.t)) (s : store)
    : list event :=
  match r with
  | Return master => map (station_line s) master
  | _ => []
  end.

(* ================================================================= *)
(** ** More mock networks and documents *)

(** No request can be made. *)
Definition unreachable : network :=
  fun _ _ => NoResponse (ClientError "Cannot connect to host").

(** Every request is answered with the same document. *)
Definition answers (body : value) : network :=
  fun _ _ => Response 200 (inr body).

(** A page with both record lists and no [totalPages], and the same page
    with [totalPages] set to [v]. *)
Definition page_without_total : list (string * value) :=
  [(installations_key, VList [sample_installation_record 10]);
   (stations_key, VList [sample_station_record 1])].

Definition page_with_total (v : value) : list (string * value) :=
  ("totalPages", v) :: page_without_total.

(** The second page of the installations of station 1 answers 500; all
    else is as in [mock_api]. *)
Definition second_sensors_page_down : network :=
  fun u n =>
    match url_endpoint u, url_page u with
    | sensors (VInt 1), 1 => Response 500 (inl (JSONDecodeError "no body"))
    | _, _ => mock_api u n
    end.

(** The pages of [mock_api]: the station pages, and for each station the
    number of its installation pages and the pages themselves. *)
Definition mock_station_records (i : nat) : list value :=
  match i with
  | O => [sample_station_record 1]
  | _ => [sample_station_record 2; broken_station_record]
  end.

Definition mock_pages (st : Station.t) : Z :=
  match Station.id st with
  | VInt 1 => 2
  | _ => 1
  end.

Definition mock_installation_records (st : Station.t) (i : nat)
    : list value :=
  match Station.id st, i with
  | VInt 1, O => [sample_installation_record 10]
  | VInt 1, _ => [broken_installation_record; sample_installation_record 11]
  | _, _ => [sample_installation_record 20]
  end.

(** The first [n] pages of a resource are fetched without error,
    whatever they hold besides the number of pages, which page 0 reports
    as [total]. *)
Definition delivers (net : network) (page_url : Z -> url) (total : Z)
    (n : nat) (fields : nat -> list (string * value))
    (fevs : nat -> list event) : Prop :=
  forall i, (i < n)%nat ->
    fetch_data net (page_url (Z.of_nat i)) default_max_retries
      = (Return (VDict (fields i)), fevs i) /\
    (i = 0%nat -> assoc "totalPages" (fields i) = Some (VInt total)).

(** The parse of page [i] of a station's installations. *)
Definition parse_of (fields : nat -> list (string * value)) (i : nat)
    : io (list Installation.t) :=
  create_installations (VDict (fields i)).

(** A task once it has run. *)
Definition ran {A} (c : io A) : asyncio.Task A := asyncio.Done (fst c).

(** The tasks of [get_installations] at the head of the turn for page
    [c]: the parses of the pages before the last one have run, the parse
    of the last page is ready. *)
Definition tasks_at (fields : nat -> list (string * value)) (c : nat)
    : list (asyncio.Task (list Installation.t)) :=
  match c with
  | O => []
  | S j =>
      map ran (map (parse_of fields) (seq 0 j)) ++
      map asyncio.Pending [parse_of fields j]
  end.

(** What the task that is ready at the head of the turn for page [c]
    emits: the parse of the page before. *)
Definition ready_at (fields : nat -> list (string * value)) (c : nat)
    : list event :=
  match c with
  | O => []
  | S j => snd (parse_of fields j)
  end.

(** The events of the turn for page [i]: those of the fetch of the page
    and, while it waits, those of the parse of the page before. *)
Definition turn_events (fields : nat -> list (string * value))
    (fevs : nat -> list event) (i : nat) : list event :=
  asyncio.while_waiting (ready_at fields i) (fevs i).




(** The first page of the installations of station 1 holds a record that
    is no dictionary, and so does the first page of the stations; all else
    is as in [mock_api]. *)
Definition first_pages_broken : network :=
  fun u n =>
    match url_endpoint u, url_page u with
    | sensors (VInt 1), 0 =>
        Response 200 (inr (VDict (installations_page 2 [VNone])))
    | findAll, 0 =>
        Response 200 (inr (VDict (stations_page 2
                             [sample_station_record 1; VStr "station"])))
    | _, _ => mock_api u n
    end.

(* ================================================================= *)
(** * Properties *)

(** ** Reading event lists *)

Lemma sleeps_app evs1 evs2 : sleeps (evs1 ++ evs2) = sleeps evs1 ++ sleeps evs2.
Proof. apply flat_map_app. Qed.

Lemma requests_app evs1 evs2 :
  requests (evs1 ++ evs2) = requests evs1 ++ requests evs2.
Proof. apply flat_map_app. Qed.

Lemma backoff_sum w k : fold_right Z.add 0 (backoff w k) = w * (2 ^ Z.of_nat k - 1).
Proof.
  revert w; induction k as [|k IH]; intros w.
  - simpl. lia.
  - cbn [backoff fold_right]. rewrite IH.
    rewrite Nat2Z.inj_succ, Z.pow_succ_r by lia. lia.
Qed.

Lemma backoff_nth w k i :
  (i < k)%nat -> backoff w k !! i = Some (w * 2 ^ Z.of_nat i).
Proof.
  revert w i; induction k as [|k IH]; intros w i Hi; [lia|].
  destruct i as [|i]; cbn [backoff].
  - simpl. f_equal. lia.
  - change ((w :: backoff (w * 2) k) !! S i) with (backoff (w * 2) k !! i).
    rewrite IH by lia. f_equal.
    rewrite Nat2Z.inj_succ, Z.pow_succ_r by lia. lia.
Qed.

Lemma backoff_length w k : length (backoff w k) = k.
Proof. revert w; induction k; intros; simpl; auto. Qed.

(* ================================================================= *)
(** ** [fetch_data] *)

Section FetchData.
Variable net : network.

Lemma sleeps_turns_429 u w k : sleeps (turns_429 u w k) = backoff w k.
Proof.
  revert w; induction k as [|k IH]; intros w; [reflexivity|].
  cbn [turns_429]. rewrite sleeps_app, IH. reflexivity.
Qed.

Lemma requests_turns_429 u w k : requests (turns_429 u w k) = repeat u k.
Proof.
  revert w; induction k as [|k IH]; intros w; [reflexivity|].
  cbn [turns_429]. rewrite requests_app, IH. reflexivity.
Qed.

(** [k] answers 429 in a row take the loop through [k] turns. *)
Lemma fetch_loop_429 u max_retries k :
  forall fuel r w,
    (forall i, (r <= i < r + k)%nat -> is_429 (net u i)) ->
    Z.of_nat (r + k) <= max_retries ->
    fetch_loop net (k + fuel) u max_retries r w =
    (fst (fetch_loop net fuel u max_retries (r + k) (w * 2 ^ Z.of_nat k)),
     turns_429 u w k ++
     snd (fetch_loop net fuel u max_retries (r + k) (w * 2 ^ Z.of_nat k))).
Proof.
  induction k as [|k IH]; intros fuel r w H429 Hle.
  - rewrite Nat.add_0_r, Z.mul_1_r. simpl. now destruct (fetch_loop _ _ _ _ _ _).
  - change (S k + fuel)%nat with (S (k + fuel)). cbn [fetch_loop].
    destruct (Z.ltb_spec (Z.of_nat r) max_retries) as [_|?]; [|lia].
    destruct (H429 r ltac:(lia)) as [json ->].
    cbn -[fetch_loop Z.mul Z.pow].
    rewrite (IH fuel (S r) (w * 2)).
    + replace (S r + k)%nat with (r + S k)%nat by lia.
      replace (w * 2 * 2 ^ Z.of_nat k) with (w * 2 ^ Z.of_nat (S k))
        by (rewrite Nat2Z.inj_succ, Z.pow_succ_r by lia; lia).
      now destruct (fetch_loop _ _ _ _ _ _).
    + intros i Hi. apply H429. lia.
    + lia.
Qed.

(** Whatever [fetch_data] raises is the one exception of its last line,
    and it never runs out of turns. *)
Lemma fetch_loop_outcome u max_retries :
  forall fuel r w,
    (Z.to_nat max_retries - r < fuel)%nat ->
    (exists v, fst (fetch_loop net fuel u max_retries r w) = Return v) \/
    fst (fetch_loop net fuel u max_retries r w) = Raised failed_to_fetch.
Proof.
  induction fuel as [|fuel IH]; intros r w Hfuel; [lia|].
  cbn [fetch_loop].
  destruct (Z.ltb_spec (Z.of_nat r) max_retries) as [Hlt|Hge]; [|now right].
  destruct (net u r) as [status json|e]; cbn -[fetch_loop Z.mul].
  - destruct (status =? 429); cbn -[fetch_loop Z.mul].
    + specialize (IH (S r) (w * 2) ltac:(lia)).
      destruct (fetch_loop net fuel u max_retries (S r) (w * 2)) as [o t].
      exact IH.
    + destruct (400 <=? status); cbn; [now right|].
      destruct json as [e|v]; cbn.
      * destruct e; cbn; now right.
      * left; eauto.
  - destruct e; cbn; now right.
Qed.



Lemma fetch_data_outcome u max_retries :
  (exists v, fst (fetch_data net u max_retries) = Return v) \/
  fst (fetch_data net u max_retries) = Raised failed_to_fetch.
Proof. apply fetch_loop_outcome. lia. Qed.

Lemma fetch_data_raises u max_retries e evs :
  fetch_data net u max_retries = (Raised e, evs) -> e = failed_to_fetch.
Proof.
  intros H. destruct (fetch_data_outcome u max_retries) as [[v Hv]|Hr];
    rewrite H in *; simpl in *; congruence.
Qed.

End FetchData.

Lemma backoff_powers k :
  backoff 1 k = map (fun i => 2 ^ Z.of_nat i) (seq 0 k).
Proof.
  apply list_eq. intros i.
  destruct (Nat.lt_ge_cases i k) as [Hi|Hi].
  - rewrite backoff_nth by assumption.
    rewrite list_lookup_fmap, lookup_seq_lt by assumption.
    simpl. f_equal. lia.
  - rewrite !lookup_ge_None_2; [reflexivity| |].
    + now rewrite length_map, length_seq.
    + now rewrite backoff_length.
Qed.

(** C3. An endpoint that answers 429 exactly [k] times and then succeeds:
    with [k < max_retries] the call returns the decoded body after the
    waits 1, 2, ..., 2^(k-1), whose sum is 2^k - 1; with
    [k >= max_retries] the call raises after [max_retries] requests. *)
Theorem fetch_data_retry_backoff
    (net : network) (u : url) (max_retries : Z) (k : nat)
    (status : Z) (body : value) :
  (forall i, (i < k)%nat -> is_429 (net u i)) ->
  net u k = Response status (inr body) ->
  status <> 429 -> status < 400 ->
  (Z.of_nat k < max_retries ->
   exists evs,
     fetch_data net u max_retries = (Return body, evs) /\
     sleeps evs = map (fun i => 2 ^ Z.of_nat i) (seq 0 k) /\
     total_wait evs = 2 ^ Z.of_nat k - 1 /\
     requests evs = repeat u (S k)) /\
  (max_retries <= Z.of_nat k ->
   exists evs,
     fetch_data net u max_retries = (Raised failed_to_fetch, evs) /\
     sleeps evs = map (fun i => 2 ^ Z.of_nat i) (seq 0 (Z.to_nat max_retries)) /\
     requests evs = repeat u (Z.to_nat max_retries)).
Proof.
  intros H429 Hok Hne Hlt. split; intros Hk.
  - exists (turns_429 u 1 k ++ [EvRequest u]).
    assert (Hev : sleeps (turns_429 u 1 k ++ [EvRequest u]) = backoff 1 k).
    { rewrite sleeps_app, sleeps_turns_429. apply app_nil_r. }
    split; [|split; [|split]].
    + unfold fetch_data.
      replace (S (Z.to_nat max_retries))
        with (k + S (Z.to_nat max_retries - k))%nat by lia.
      rewrite (fetch_loop_429 net u max_retries k _ 0%nat 1).
      * cbn [fetch_loop Nat.add].
        destruct (Z.ltb_spec (Z.of_nat k) max_retries) as [_|?]; [|lia].
        rewrite Hok. cbn.
        destruct (Z.eqb_spec status 429) as [?|_]; [contradiction|].
        destruct (Z.leb_spec 400 status) as [?|_]; [lia|].
        reflexivity.
      * intros i Hi. apply H429. lia.
      * simpl. lia.
    + rewrite Hev. apply backoff_powers.
    + unfold total_wait. rewrite Hev, backoff_sum. lia.
    + rewrite requests_app, requests_turns_429.
      replace (S k) with (k + 1)%nat by lia. now rewrite repeat_app.
  - destruct (Z.le_gt_cases max_retries 0) as [Hneg|Hpos].
    + exists []. unfold fetch_data.
      replace (Z.to_nat max_retries) with 0%nat by lia. cbn [fetch_loop].
      destruct (Z.ltb_spec (Z.of_nat 0) max_retries) as [?|_]; [lia|]. auto.
    + exists (turns_429 u 1 (Z.to_nat max_retries)).
      split; [|split].
      * unfold fetch_data.
        replace (S (Z.to_nat max_retries)) with (Z.to_nat max_retries + 1)%nat
          by lia.
        rewrite (fetch_loop_429 net u max_retries _ _ 0%nat 1).
        -- cbn [fetch_loop Nat.add].
           destruct (Z.ltb_spec (Z.of_nat (Z.to_nat max_retries)) max_retries)
             as [?|_]; [lia|].
           cbn. now rewrite app_nil_r.
        -- intros i Hi. apply H429. lia.
        -- simpl. lia.
      * rewrite sleeps_turns_429. apply backoff_powers.
      * apply requests_turns_429.
Qed.

Lemma fetch_data_retry_backoff_witness :
  fetch_data (twice_429 (VInt 7)) (Url BASE_URL findAll 0 500) 5
  = (Return (VInt 7),
     [EvRequest (Url BASE_URL findAll 0 500); EvPrint (Log429 1); EvSleep 1;
      EvRequest (Url BASE_URL findAll 0 500); EvPrint (Log429 2); EvSleep 2;
      EvRequest (Url BASE_URL findAll 0 500)]) /\
  fetch_data (twice_429 (VInt 7)) (Url BASE_URL findAll 0 500) 2
  = (Raised failed_to_fetch,
     [EvRequest (Url BASE_URL findAll 0 500); EvPrint (Log429 1); EvSleep 1;
      EvRequest (Url BASE_URL findAll 0 500); EvPrint (Log429 2); EvSleep 2]).
Proof.
  assert (H429 : forall i, (i < 2)%nat ->
                   is_429 (twice_429 (VInt 7) (Url BASE_URL findAll 0 500) i)).
  { intros i Hi. destruct i as [|[|i]]; [eexists; reflexivity ..|lia]. }
  split.
  - destruct (fetch_data_retry_backoff (twice_429 (VInt 7))
                (Url BASE_URL findAll 0 500) 5 2 200 (VInt 7) H429 eq_refl
                ltac:(lia) ltac:(lia)) as [Hok _].
    destruct (Hok ltac:(lia)) as (evs & Hrun & _). reflexivity.
  - destruct (fetch_data_retry_backoff (twice_429 (VInt 7))
                (Url BASE_URL findAll 0 500) 2 2 200 (VInt 7) H429 eq_refl
                ltac:(lia) ltac:(lia)) as [_ Hfail].
    destruct (Hfail ltac:(lia)) as (evs & Hrun & _). reflexivity.
Defined.

(** C6. An error status other than 429 ends the call at once: after [k]
    answers 429 (none, for the first response) the request that gets the
    error status is the last one, no wait follows it, and the call raises. *)
Theorem fetch_data_error_status_no_retry
    (net : network) (u : url) (max_retries : Z) (k : nat)
    (status : Z) (json : exn + value) :
  (forall i, (i < k)%nat -> is_429 (net u i)) ->
  net u k = Response status json ->
  400 <= status -> status <> 429 ->
  Z.of_nat k < max_retries ->
  exists evs,
    fetch_data net u max_retries = (Raised failed_to_fetch, evs) /\
    requests evs = repeat u (S k) /\
    sleeps evs = map (fun i => 2 ^ Z.of_nat i) (seq 0 k) /\
    (k = 0%nat ->
     evs = [EvRequest u; EvPrint (LogHTTPError (ClientResponseError status))]).
Proof.
  intros H429 Hresp Herr Hne Hk.
  exists (turns_429 u 1 k ++
          [EvRequest u; EvPrint (LogHTTPError (ClientResponseError status))]).
  split; [|split; [|split]].
  - unfold fetch_data.
    replace (S (Z.to_nat max_retries))
      with (k + S (Z.to_nat max_retries - k))%nat by lia.
    rewrite (fetch_loop_429 net u max_retries k _ 0%nat 1).
    + cbn [fetch_loop Nat.add].
      destruct (Z.ltb_spec (Z.of_nat k) max_retries) as [_|?]; [|lia].
      rewrite Hresp. cbn.
      destruct (Z.eqb_spec status 429) as [?|_]; [contradiction|].
      destruct (Z.leb_spec 400 status) as [_|?]; [|lia].
      reflexivity.
    + intros i Hi. apply H429. lia.
    + simpl. lia.
  - rewrite requests_app, requests_turns_429.
    replace (S k) with (k + 1)%nat by lia. now rewrite repeat_app.
  - rewrite sleeps_app, sleeps_turns_429. simpl. rewrite app_nil_r.
    apply backoff_powers.
  - intros ->. reflexivity.
Qed.

Lemma fetch_data_error_status_no_retry_witness :
  fetch_data (always_status 500) (Url BASE_URL findAll 0 500) 5
  = (Raised failed_to_fetch,
     [EvRequest (Url BASE_URL findAll 0 500);
      EvPrint (LogHTTPError (ClientResponseError 500))]).
Proof.
  destruct (fetch_data_error_status_no_retry (always_status 500)
              (Url BASE_URL findAll 0 500) 5 0 500
              (inl (JSONDecodeError "no body")))
    as (evs & Hrun & _ & _ & Hevs).
  - intros i Hi. lia.
  - reflexivity.
  - lia.
  - lia.
  - lia.
  - rewrite Hrun, (Hevs eq_refl). reflexivity.
Defined.

(* ================================================================= *)
(** ** The two parsers *)

Lemma place_app base sts1 sts2 :
  place base (sts1 ++ sts2) =
  place base sts1 ++ place (base + length sts1)%nat sts2.
Proof.
  revert base; induction sts1 as [|st sts1 IH]; intros base; simpl.
  - now rewrite Nat.add_0_r.
  - rewrite IH. do 3 f_equal. lia.
Qed.

Lemma place_length base sts : length (place base sts) = length sts.
Proof. revert base; induction sts; intros; simpl; auto. Qed.

Lemma place_installations base sts :
  map Station.installations (place base sts) = seq base (length sts).
Proof. revert base; induction sts; intros; simpl; f_equal; auto. Qed.

Section Parsers.

Lemma getitem_dict fields key :
  getitem (VDict fields) key =
  match assoc key fields with
  | Some x => IO.ret x
  | None => IO.raise (KeyError key)
  end.
Proof. reflexivity. Qed.

(** A lookup returns or raises, and prints nothing. *)
Lemma getitem_cases data key :
  (exists v, getitem data key = (Return v, [])) \/
  (exists e, getitem data key = (Raised e, [])).
Proof.
  destruct data; simpl; eauto.
  destruct (assoc key fields); eauto.
Qed.

Lemma has_field_assoc fields key :
  has_field (VDict fields) key = true ->
  assoc key fields = Some (field (VDict fields) key).
Proof.
  simpl. intros H. apply bool_decide_eq_true in H.
  destruct H as [v ->]. reflexivity.
Qed.

Lemma has_field_assoc_false fields key :
  has_field (VDict fields) key = false -> assoc key fields = None.
Proof.
  simpl. intros H. apply bool_decide_eq_false in H.
  destruct (assoc key fields); [exfalso; eauto|reflexivity].
Qed.

Ltac lookup_field fields key :=
  rewrite (getitem_dict fields key);
  let H := fresh "H" in
  destruct (has_field (VDict fields) key) eqn:H;
  [ rewrite (has_field_assoc _ _ H); cbn [IO.bind IO.ret app]
  | rewrite (has_field_assoc_false _ _ H); eexists; reflexivity ].

Lemma make_installation_well_formed data :
  is_dict data -> well_formed installation_keys data = true ->
  make_installation data = (Return (installation_of data), []).
Proof.
  destruct data; try discriminate. intros _ Hwf.
  unfold well_formed, installation_keys in Hwf. cbn [forallb] in Hwf.
  repeat (apply andb_prop in Hwf; destruct Hwf as [?H Hwf]).
  unfold make_installation.
  rewrite !getitem_dict.
  repeat match goal with
         | H : has_field _ _ = true |- _ =>
             rewrite (has_field_assoc _ _ H); clear H
         end.
  reflexivity.
Qed.

Lemma make_installation_malformed data :
  is_dict data -> well_formed installation_keys data = false ->
  exists key, make_installation data = (Raised (KeyError key), []).
Proof.
  destruct data; try discriminate. intros _ Hwf.
  unfold make_installation.
  lookup_field fields "Identyfikator stanowiska".
  lookup_field fields "Wskaźnik".
  lookup_field fields "Wskaźnik - wzór".
  lookup_field fields "Wskaźnik - kod".
  lookup_field fields "Id wskaźnika".
  unfold well_formed, installation_keys in Hwf. cbn [forallb] in Hwf.
  rewrite H, H0, H1, H2, H3 in Hwf. discriminate.
Qed.

End Parsers.

Section ParserLoops.

Lemma installations_of_records_dicts records :
  Forall is_dict records ->
  forall acc,
    installations_of_records records acc =
    (Return (acc ++ map installation_of
                      (List.filter (well_formed installation_keys) records)),
     key_errors (List.filter (malformed installation_keys) records)).
Proof.
  induction 1 as [|data rest Hdict _ IH]; intros acc.
  - simpl. now rewrite app_nil_r.
  - cbn [installations_of_records List.filter]. unfold malformed at 1.
    destruct (well_formed installation_keys data) eqn:Hwf.
    + rewrite (make_installation_well_formed data Hdict Hwf).
      cbn [IO.bind IO.try_except IO.ret app negb].
      rewrite IH. cbn [map]. now rewrite <- app_assoc.
    + destruct (make_installation_malformed data Hdict Hwf) as [key ->].
      cbn [IO.bind IO.try_except IO.ret IO.print IO.emit IO.raise
           isinstance app negb].
      rewrite IH. reflexivity.
Qed.

Lemma create_installations_page fields records :
  assoc "Lista stanowisk pomiarowych dla podanej stacji" fields
    = Some (VList records) ->
  Forall is_dict records ->
  create_installations (VDict fields) =
  (Return (map installation_of
             (List.filter (well_formed installation_keys) records)),
   key_errors (List.filter (malformed installation_keys) records)).
Proof.
  intros Hlist Hdicts. unfold create_installations.
  cbn [isinstance_dict negb]. rewrite getitem_dict, Hlist.
  cbn [IO.bind IO.ret iterate app].
  now rewrite (installations_of_records_dicts records Hdicts []).
Qed.

Ltac run_lookups :=
  unfold make_station, Proc.bind, Proc.lift;
  repeat match goal with
         | H : getitem _ _ = _ |- _ => rewrite H; clear H
         end;
  reflexivity.

(** [make_station] either makes a station whose fields do not depend on
    the store and whose list is the new one, or raises and leaves the
    store as it was. *)
Lemma make_station_cases data :
  (exists st, forall s,
      make_station data s =
      (Return (with_installations st (length s)), s ++ [[]], [])) \/
  (exists e, forall s, make_station data s = (Raised e, s, [])).
Proof.
  destruct (getitem_cases data "Identyfikator stacji") as [[v1 H1]|[e H1]];
    [|right; exists e; intros s; run_lookups].
  destruct (getitem_cases data "Kod stacji") as [[v2 H2]|[e H2]];
    [|right; exists e; intros s; run_lookups].
  destruct (getitem_cases data "Nazwa stacji") as [[v3 H3]|[e H3]];
    [|right; exists e; intros s; run_lookups].
  destruct (getitem_cases data "WGS84 φ N") as [[v4 H4]|[e H4]];
    [|right; exists e; intros s; run_lookups].
  destruct (getitem_cases data "WGS84 λ E") as [[v5 H5]|[e H5]];
    [|right; exists e; intros s; run_lookups].
  destruct (getitem_cases data "Nazwa miasta") as [[v6 H6]|[e H6]];
    [|right; exists e; intros s; run_lookups].
  destruct (getitem_cases data "Identyfikator miasta") as [[v7 H7]|[e H7]];
    [|right; exists e; intros s; run_lookups].
  destruct (getitem_cases data "Gmina") as [[v8 H8]|[e H8]];
    [|right; exists e; intros s; run_lookups].
  destruct (getitem_cases data "Powiat") as [[v9 H9]|[e H9]];
    [|right; exists e; intros s; run_lookups].
  destruct (getitem_cases data "Województwo") as [[v10 H10]|[e H10]];
    [|right; exists e; intros s; run_lookups].
  destruct (getitem_cases data "Ulica") as [[v11 H11]|[e H11]];
    [|right; exists e; intros s; run_lookups].
  left.
  exists (Station.Build v1 v2 v3 v4 v5
            (VDict [("name", v6); ("city_id", v7); ("commune", v8);
                    ("district", v9); ("province", v10)]) v11 0%nat).
  intros s. run_lookups.
Qed.

Lemma has_field_getitem data key :
  is_dict data -> has_field data key = true ->
  getitem data key = (Return (field data key), []).
Proof.
  destruct data; try discriminate. intros _ H.
  rewrite getitem_dict, (has_field_assoc _ _ H). reflexivity.
Qed.

Lemma has_field_false_getitem data key :
  is_dict data -> has_field data key = false ->
  getitem data key = (Raised (KeyError key), []).
Proof.
  destruct data; try discriminate. intros _ H.
  rewrite getitem_dict, (has_field_assoc_false _ _ H). reflexivity.
Qed.

Lemma make_station_well_formed data :
  is_dict data -> well_formed station_keys data = true ->
  forall s,
    make_station data s =
    (Return (with_installations (station_of data) (length s)), s ++ [[]], []).
Proof.
  intros Hdict Hwf s.
  unfold well_formed, station_keys in Hwf. cbn [forallb] in Hwf.
  repeat (apply andb_prop in Hwf; destruct Hwf as [?H Hwf]).
  repeat match goal with
         | H : has_field _ _ = true |- _ =>
             apply (has_field_getitem _ _ Hdict) in H
         end.
  run_lookups.
Qed.

Lemma make_station_malformed data :
  is_dict data -> well_formed station_keys data = false ->
  exists key, forall s, make_station data s = (Raised (KeyError key), s, []).
Proof.
  intros Hdict Hwf.
  unfold well_formed, station_keys in Hwf. cbn [forallb] in Hwf.
  repeat match type of Hwf with
         | (has_field ?d ?k && _)%bool = false =>
             let H := fresh "H" in
             destruct (has_field d k) eqn:H;
             [ apply (has_field_getitem _ _ Hdict) in H; cbn [andb] in Hwf
             | apply (has_field_false_getitem _ _ Hdict) in H;
               eexists; intros s; run_lookups ]
         end.
  discriminate.
Qed.

End ParserLoops.

Section ParsersEnd.

Lemma make_installation_cases data :
  (exists x, make_installation data = (Return x, [])) \/
  (exists e, make_installation data = (Raised e, [])).
Proof.
  unfold make_installation.
  destruct (getitem_cases data "Identyfikator stanowiska")
    as [[v1 ->]|[e ->]]; [|right; now exists e].
  destruct (getitem_cases data "Wskaźnik")
    as [[v2 ->]|[e ->]]; [|right; now exists e].
  destruct (getitem_cases data "Wskaźnik - wzór")
    as [[v3 ->]|[e ->]]; [|right; now exists e].
  destruct (getitem_cases data "Wskaźnik - kod")
    as [[v4 ->]|[e ->]]; [|right; now exists e].
  destruct (getitem_cases data "Id wskaźnika")
    as [[v5 ->]|[e ->]]; [|right; now exists e].
  left. eexists. reflexivity.
Qed.

(** The loop of [create_installations] ends, and all it emits are printed
    lines. *)
Lemma installations_of_records_ends records :
  forall acc,
    fst (installations_of_records records acc) <> Diverged /\
    requests (snd (installations_of_records records acc)) = [].
Proof.
  induction records as [|data rest IH]; intros acc.
  - split; [discriminate|reflexivity].
  - cbn [installations_of_records].
    destruct (make_installation_cases data) as [[x ->]|[e ->]].
    + cbn [IO.bind IO.try_except IO.ret app].
      specialize (IH (acc ++ [x])).
      now destruct (installations_of_records rest (acc ++ [x])) as [r t].
    + cbn [IO.bind IO.try_except IO.ret IO.raise app].
      destruct (isinstance e CKeyError).
      * cbn [IO.bind IO.print IO.emit IO.ret app].
        specialize (IH acc).
        now destruct (installations_of_records rest acc) as [r t].
      * split; [discriminate|reflexivity].
Qed.

Lemma create_installations_ends d :
  fst (create_installations d) <> Diverged /\
  requests (snd (create_installations d)) = [].
Proof.
  unfold create_installations.
  destruct (isinstance_dict d); cbn [negb];
    [|split; [discriminate|reflexivity]].
  destruct (getitem_cases d "Lista stanowisk pomiarowych dla podanej stacji")
    as [[v ->]|[e ->]]; [|split; [discriminate|reflexivity]].
  cbn [IO.bind app].
  assert (Hit : (exists items, iterate v = (Return items, [])) \/
                (exists e, iterate v = (Raised e, []))).
  { destruct v; simpl; eauto. }
  destruct Hit as [[items ->]|[e ->]]; [|split; [discriminate|reflexivity]].
  cbn [IO.bind app].
  pose proof (installations_of_records_ends items []) as H.
  now destruct (installations_of_records items []) as [r t].
Qed.

Lemma requests_over_pages n (f : nat -> list event) :
  (forall i, requests (f i) = []) ->
  forall c, requests (over_pages c n f) = [].
Proof.
  intros Hf. unfold over_pages.
  induction n as [|n IH]; intros c; [reflexivity|].
  cbn [seq map concat]. now rewrite requests_app, Hf, IH.
Qed.

End ParsersEnd.

Section StationRecords.

(** One turn of the loop of [create_stations]. *)
Lemma stations_of_records_cons data rest acc s :
  stations_of_records (data :: rest) acc s =
  match make_station data s with
  | (Return st, s', t) =>
      let '(r, s'', t') := stations_of_records rest (acc ++ [st]) s' in
      (r, s'', t ++ t')
  | (Raised e, s', t) =>
      if isinstance e CKeyError then
        let '(r, s'', t') := stations_of_records rest acc s' in
        (r, s'', t ++ EvPrint (LogKeyError data) :: t')
      else (Raised e, s', t)
  | (Diverged, s', t) => (Diverged, s', t)
  end.
Proof.
  cbn [stations_of_records]. unfold Proc.bind, Proc.try_except.
  destruct (make_station data s) as [[[st|e|] s'] t]; cbv beta iota.
  - cbn. now rewrite app_nil_r.
  - destruct (isinstance e CKeyError); cbn.
    + destruct (stations_of_records rest acc s') as [[r s''] t'].
      now rewrite <- app_assoc.
    + now rewrite app_nil_r.
  - reflexivity.
Qed.

Lemma stations_of_records_dicts records :
  Forall is_dict records ->
  forall acc s,
    stations_of_records records acc s =
    (Return (acc ++ place (length s)
                      (map station_of
                         (List.filter (well_formed station_keys) records))),
     s ++ repeat [] (length (List.filter (well_formed station_keys) records)),
     key_errors (List.filter (malformed station_keys) records)).
Proof.
  induction 1 as [|data rest Hdict _ IH]; intros acc s.
  - simpl. now rewrite !app_nil_r.
  - rewrite stations_of_records_cons.
    cbn [List.filter]. unfold malformed at 1.
    destruct (well_formed station_keys data) eqn:Hwf.
    + rewrite (make_station_well_formed data Hdict Hwf s), IH.
      cbn [map place length repeat negb app].
      rewrite <- !app_assoc, length_app. cbn [length app].
      replace (length s + 1)%nat with (S (length s)) by lia.
      reflexivity.
    + destruct (make_station_malformed data Hdict Hwf) as [key ->].
      cbn [isinstance negb]. rewrite IH. reflexivity.
Qed.

(** Whatever the records are, the stations that the loop makes do not
    depend on the store, only the lists they own do: each station gets
    the list that was new when it was made. *)
Lemma stations_of_records_cases records :
  (exists sts evs, forall acc s,
      stations_of_records records acc s =
      (Return (acc ++ place (length s) sts),
       s ++ repeat [] (length sts), evs)) \/
  (exists e n evs, forall acc s,
      stations_of_records records acc s =
      (Raised e, s ++ repeat [] n, evs)).
Proof.
  induction records as [|data rest IH].
  - left. exists [], []. intros acc s. simpl. now rewrite !app_nil_r.
  - destruct (make_station_cases data) as [[st Hst]|[e He]].
    + destruct IH as [(sts & evs & IH)|(e & n & evs & IH)].
      * left. exists (st :: sts), evs. intros acc s.
        rewrite stations_of_records_cons, Hst, IH.
        cbn [place length repeat app].
        rewrite <- !app_assoc, length_app. cbn [length app].
        replace (length s + 1)%nat with (S (length s)) by lia.
        reflexivity.
      * right. exists e, (S n), evs. intros acc s.
        rewrite stations_of_records_cons, Hst, IH.
        cbn [repeat app]. now rewrite <- app_assoc.
    + destruct (isinstance e CKeyError) eqn:Hkey.
      * destruct IH as [(sts & evs & IH)|(e' & n & evs & IH)].
        -- left. exists sts, (EvPrint (LogKeyError data) :: evs).
           intros acc s.
           now rewrite stations_of_records_cons, He, Hkey, IH.
        -- right. exists e', n, (EvPrint (LogKeyError data) :: evs).
           intros acc s.
           now rewrite stations_of_records_cons, He, Hkey, IH.
      * right. exists e, 0%nat, []. intros acc s.
        rewrite stations_of_records_cons, He, Hkey.
        simpl. now rewrite app_nil_r.
Qed.

Lemma create_stations_page fields records s :
  assoc "Lista stacji pomiarowych" fields = Some (VList records) ->
  Forall is_dict records ->
  create_stations (VDict fields) s =
  (Return (place (length s)
             (map station_of
                (List.filter (well_formed station_keys) records))),
   s ++ repeat [] (length (List.filter (well_formed station_keys) records)),
   key_errors (List.filter (malformed station_keys) records)).
Proof.
  intros Hlist Hdicts. unfold create_stations.
  cbn [isinstance_dict negb]. unfold Proc.bind at 1, Proc.lift at 1.
  rewrite getitem_dict, Hlist. cbn [IO.ret fst snd].
  unfold Proc.bind, Proc.lift. cbn [iterate IO.ret fst snd].
  rewrite (stations_of_records_dicts records Hdicts [] s).
  reflexivity.
Qed.

Lemma create_stations_cases station_data :
  (exists sts evs, forall s,
      create_stations station_data s =
      (Return (place (length s) sts), s ++ repeat [] (length sts), evs)) \/
  (exists e n evs, forall s,
      create_stations station_data s = (Raised e, s ++ repeat [] n, evs)).
Proof.
  unfold create_stations.
  destruct (isinstance_dict station_data); cbn [negb].
  2: { right. exists (ValueError "Data must be a dictionary/json"), 0%nat, [].
       intros s. unfold Proc.raise. simpl. now rewrite app_nil_r. }
  destruct (getitem_cases station_data "Lista stacji pomiarowych")
    as [[v Hv]|[e He]].
  2: { right. exists e, 0%nat, []. intros s.
       unfold Proc.bind, Proc.lift. rewrite He. simpl. now rewrite app_nil_r. }
  assert (Hiter : (exists records, iterate v = (Return records, [])) \/
                  (exists e, iterate v = (Raised e, []))).
  { destruct v; simpl; eauto. }
  destruct Hiter as [[records Hrec]|[e He]].
  2: { right. exists e, 0%nat, []. intros s.
       unfold Proc.bind, Proc.lift. rewrite Hv. cbn [fst snd].
       rewrite He. simpl. now rewrite app_nil_r. }
  destruct (stations_of_records_cases records)
    as [(sts & evs & H)|(e & n & evs & H)].
  - left. exists sts, evs. intros s.
    unfold Proc.bind, Proc.lift. rewrite Hv. cbn [fst snd].
    rewrite Hrec. cbn [fst snd]. now rewrite (H [] s).
  - right. exists e, n, evs. intros s.
    unfold Proc.bind, Proc.lift. rewrite Hv. cbn [fst snd].
    rewrite Hrec. cbn [fst snd]. now rewrite (H [] s).
Qed.

End StationRecords.

(** C7. A value that is not a dictionary (a list, say) makes either parser
    raise [ValueError]; nothing is parsed, printed or stored. *)
Theorem parsers_reject_non_dict (data : value) (s : store) :
  isinstance_dict data = false ->
  create_installations data
    = (Raised (ValueError "Data must be a dictionary/json"), []) /\
  create_stations data s
    = (Raised (ValueError "Data must be a dictionary/json"), s, []).
Proof.
  intros H. unfold create_installations, create_stations.
  rewrite H. split; reflexivity.
Qed.

Lemma parsers_reject_non_dict_witness :
  create_installations (VList [VDict []])
    = (Raised (ValueError "Data must be a dictionary/json"), []) /\
  create_stations (VList [VDict []]) []
    = (Raised (ValueError "Data must be a dictionary/json"), [], []).
Proof. apply (parsers_reject_non_dict (VList [VDict []]) []). reflexivity. Defined.

(** C5. A page whose record list holds dictionaries: the parser returns the
    entities of the records that have every required key, in list order,
    prints one line for each of the other records and raises nothing. With
    N records of the first kind and M of the second, the result has N
    entities and the log M lines. Each new station owns a new empty list. *)
Theorem parsers_skip_malformed_records :
  (forall (fields : list (string * value)) (records : list value),
      Forall is_dict records ->
      assoc "Lista stanowisk pomiarowych dla podanej stacji" fields
        = Some (VList records) ->
      let good := List.filter (well_formed installation_keys) records in
      let bad := List.filter (malformed installation_keys) records in
      create_installations (VDict fields)
        = (Return (map installation_of good), key_errors bad) /\
      length (map installation_of good) = length good /\
      length (key_errors bad) = length bad) /\
  (forall (fields : list (string * value)) (records : list value) (s : store),
      Forall is_dict records ->
      assoc "Lista stacji pomiarowych" fields = Some (VList records) ->
      let good := List.filter (well_formed station_keys) records in
      let bad := List.filter (malformed station_keys) records in
      create_stations (VDict fields) s
        = (Return (place (length s) (map station_of good)),
           s ++ repeat [] (length good), key_errors bad) /\
      length (place (length s) (map station_of good)) = length good /\
      length (key_errors bad) = length bad).
Proof.
  split.
  - intros fields records Hdicts Hlist good bad. split; [|split].
    + now apply create_installations_page.
    + apply length_map.
    + apply length_map.
  - intros fields records s Hdicts Hlist good bad. split; [|split].
    + now apply create_stations_page.
    + now rewrite place_length, length_map.
    + apply length_map.
Qed.

Lemma parsers_skip_malformed_records_witness :
  create_installations
    (VDict (installations_page 1
              [sample_installation_record 1; broken_installation_record;
               sample_installation_record 2]))
  = (Return [installation_of (sample_installation_record 1);
             installation_of (sample_installation_record 2)],
     [EvPrint (LogKeyError broken_installation_record)]) /\
  create_stations
    (VDict (stations_page 1
              [broken_station_record; sample_station_record 1;
               sample_station_record 2])) []
  = (Return [with_installations (station_of (sample_station_record 1)) 0;
             with_installations (station_of (sample_station_record 2)) 1],
     [[]; []],
     [EvPrint (LogKeyError broken_station_record)]).
Proof.
  destruct parsers_skip_malformed_records as [Hi Hs]. split.
  - destruct (Hi (installations_page 1
                    [sample_installation_record 1; broken_installation_record;
                     sample_installation_record 2])
                 [sample_installation_record 1; broken_installation_record;
                  sample_installation_record 2]) as [Hrun _].
    + repeat constructor.
    + reflexivity.
    + rewrite Hrun. reflexivity.
  - destruct (Hs (stations_page 1
                    [broken_station_record; sample_station_record 1;
                     sample_station_record 2])
                 [broken_station_record; sample_station_record 1;
                  sample_station_record 2] []) as [Hrun _].
    + repeat constructor.
    + reflexivity.
    + rewrite Hrun. reflexivity.
Defined.

(* ================================================================= *)
(** ** Parsing the same document twice *)

Lemma read_new_lists s n l :
  (length s <= l)%nat -> read (s ++ repeat [] n) l = [].
Proof.
  intros Hl. unfold read.
  destruct ((s ++ repeat [] n) !! l) as [xs|] eqn:Hlook; [|reflexivity].
  rewrite lookup_app_r in Hlook by assumption.
  apply list_elem_of_lookup_2, list_elem_of_In, repeat_spec in Hlook.
  now subst.
Qed.

Lemma place_equal s sts :
  forall base1 base2,
    (forall l, (base1 <= l)%nat -> read s l = []) ->
    (forall l, (base2 <= l)%nat -> read s l = []) ->
    Forall2 (station_equal s) (place base1 sts) (place base2 sts).
Proof.
  induction sts as [|st sts IH]; intros base1 base2 H1 H2; simpl.
  - constructor.
  - constructor.
    + unfold station_equal. simpl. rewrite H1, H2 by lia. tauto.
    + apply IH; intros l Hl; [apply H1|apply H2]; lia.
Qed.

(** C9. Parsing a document twice gives two equal lists of entities: the
    second parse returns what the first returned, and the stations of the
    two parses, which are different objects with lists of their own, are
    equal field by field. *)
Theorem parse_twice_equal (d : value) :
  (forall first evs,
      create_installations d = (Return first, evs) ->
      parse_installations_twice d = (Return (first, first), evs ++ evs)) /\
  (forall s first s1 evs,
      create_stations d s = (Return first, s1, evs) ->
      exists second s2,
        parse_stations_twice d s = (Return (first, second), s2, evs ++ evs) /\
        Forall2 (station_equal s2) first second).
Proof.
  split.
  - intros first evs H. unfold parse_installations_twice.
    rewrite H. cbn. now rewrite app_nil_r.
  - intros s first s1 evs H.
    destruct (create_stations_cases d) as [(sts & evs' & Hd)|(e & n & evs' & Hd)].
    + rewrite Hd in H. injection H as <- <- <-.
      exists (place (length (s ++ repeat [] (length sts))) sts),
             ((s ++ repeat [] (length sts)) ++ repeat [] (length sts)).
      split.
      * unfold parse_stations_twice, Proc.bind. rewrite !Hd. cbn.
        now rewrite app_nil_r.
      * apply place_equal; intros l Hl.
        -- rewrite <- app_assoc, <- repeat_app. now apply read_new_lists.
        -- rewrite <- app_assoc, <- repeat_app. apply read_new_lists.
           rewrite length_app in Hl. lia.
    + rewrite Hd in H. discriminate.
Qed.

Lemma parse_twice_equal_witness :
  exists second s2 evs,
    parse_stations_twice
      (VDict (stations_page 1 [sample_station_record 1; broken_station_record]))
      []
    = (Return ([with_installations (station_of (sample_station_record 1)) 0],
               second), s2, evs) /\
    Forall2 (station_equal s2)
            [with_installations (station_of (sample_station_record 1)) 0]
            second /\
    parse_installations_twice
      (VDict (installations_page 1 [sample_installation_record 1]))
    = (Return ([installation_of (sample_installation_record 1)],
               [installation_of (sample_installation_record 1)]), []).
Proof.
  destruct (parse_twice_equal
              (VDict (stations_page 1
                        [sample_station_record 1; broken_station_record])))
    as [_ Hs].
  destruct (Hs [] [with_installations (station_of (sample_station_record 1)) 0]
               [[]] [EvPrint (LogKeyError broken_station_record)] eq_refl)
    as (second & s2 & Hrun & Heq).
  destruct (parse_twice_equal
              (VDict (installations_page 1 [sample_installation_record 1])))
    as [Hi _].
  eexists second, s2, _. split; [exact Hrun|]. split; [exact Heq|].
  exact (Hi _ _ eq_refl).
Defined.

(* ================================================================= *)
(** ** [Station.add_installations] *)

Section AddInstallations.

Lemma read_insert_eq (s : store) l xs :
  (l < length s)%nat -> read (<[l := xs]> s) l = xs.
Proof. intros H. unfold read. now rewrite list_lookup_insert_eq. Qed.

Lemma read_insert_ne (s : store) l l' xs :
  l <> l' -> read (<[l := xs]> s) l' = read s l'.
Proof. intros H. unfold read. now rewrite list_lookup_insert_ne. Qed.

Lemma read_lookup (s : store) l :
  (l < length s)%nat -> s !! l = Some (read s l).
Proof.
  intros H. unfold read.
  destruct (lookup_lt_is_Some_2 s l H) as [xs ->]. reflexivity.
Qed.

Lemma items_of_insert self xs (s : store) ys :
  other_list self xs ->
  items_of (<[Station.installations self := ys]> s) xs = items_of s xs.
Proof.
  destruct xs as [l|items]; simpl; [|reflexivity].
  intros Hne. apply read_insert_ne. congruence.
Qed.

(** The loop over a list that is not the station's own appends what is
    left of it. *)
Lemma append_each_other self xs :
  other_list self xs ->
  forall fuel index (s : store),
    (Station.installations self < length s)%nat ->
    (length (items_of s xs) - index < fuel)%nat ->
    Station.append_each fuel self xs index s =
    (Return tt,
     <[Station.installations self :=
         read s (Station.installations self) ++ drop index (items_of s xs)]> s,
     []).
Proof.
  intros Hother. induction fuel as [|fuel IH]; intros index s Hl Hfuel; [lia|].
  cbn [Station.append_each]. unfold Proc.bind, Proc.get_store.
  destruct (items_of s xs !! index) as [install|] eqn:Hlook.
  - unfold Proc.append at 1.
    pose proof (lookup_lt_Some _ _ _ Hlook) as Hlt.
    rewrite IH.
    + rewrite items_of_insert by assumption.
      rewrite read_insert_eq by assumption.
      rewrite list_insert_insert_eq, <- app_assoc.
      cbn [app]. now rewrite <- (drop_S _ _ _ Hlook).
    + now rewrite length_insert.
    + rewrite items_of_insert by assumption. lia.
  - apply lookup_ge_None_1 in Hlook.
    rewrite drop_ge, app_nil_r by assumption.
    rewrite list_insert_id by now apply read_lookup.
    reflexivity.
Qed.

(** The loop over the station's own list never reaches its end: every
    turn makes the list one item longer. *)
Lemma append_each_own self :
  forall fuel index (s : store),
    (Station.installations self < length s)%nat ->
    (index < length (read s (Station.installations self)))%nat ->
    exists s',
      Station.append_each fuel self (Stored (Station.installations self))
                          index s
      = (Diverged, s', []).
Proof.
  induction fuel as [|fuel IH]; intros index s Hl Hindex.
  - exists s. reflexivity.
  - cbn [Station.append_each]. unfold Proc.bind, Proc.get_store.
    cbn [items_of].
    destruct (lookup_lt_is_Some_2 _ _ Hindex) as [install ->].
    unfold Proc.append at 1.
    destruct (IH (S index)
                 (<[Station.installations self :=
                      read s (Station.installations self) ++ [install]]> s))
      as [s' ->].
    + now rewrite length_insert.
    + rewrite read_insert_eq, length_app by assumption. simpl. lia.
    + exists s'. reflexivity.
Qed.

End AddInstallations.

Lemma argument_items_of (s : store) (arg : argument) :
  items_of s match arg with
             | AList xs => xs
             | AObject o => Fresh [o]
             end = argument_items s arg.
Proof. now destruct arg. Qed.

Lemma add_installations_rejects (self : Station.t) (s : store) arg fuel :
  forallb isinstance_Installation (argument_items s arg) = false ->
  Station.add_installations fuel self arg s
  = (Raised (ValueError "All installations must be of type Installation"),
     s, []).
Proof.
  intros Hall. unfold Station.add_installations, Proc.bind, Proc.get_store.
  rewrite argument_items_of, Hall. reflexivity.
Qed.

Lemma add_installations_accepts (self : Station.t) (s : store) arg fuel :
  (Station.installations self < length s)%nat ->
  forallb isinstance_Installation (argument_items s arg) = true ->
  other_object self arg \/ argument_items s arg = [] ->
  (length (argument_items s arg) < fuel)%nat ->
  Station.add_installations fuel self arg s
  = (Return tt,
     <[Station.installations self :=
         read s (Station.installations self) ++ argument_items s arg]> s,
     []).
Proof.
  intros Hl Hall [Hother|Hnil] Hfuel;
    unfold Station.add_installations, Proc.bind, Proc.get_store;
    rewrite argument_items_of, Hall; cbn [negb].
  - rewrite append_each_other.
    + rewrite argument_items_of. reflexivity.
    + now destruct arg.
    + assumption.
    + rewrite argument_items_of. lia.
  - destruct fuel as [|fuel]; [lia|].
    cbn [Station.append_each]. unfold Proc.bind, Proc.get_store.
    rewrite argument_items_of, Hnil, app_nil_r.
    rewrite list_insert_id by now apply read_lookup.
    reflexivity.
Qed.

(** C10, as the code has it. The type check comes first: an item that is
    not an [Installation] makes the call raise [ValueError] with the store
    untouched. Otherwise, when the argument is not the station's own list
    object (or is empty), the call appends the items in order to the
    station's list and changes no other list; an [Installation] that is
    not in a list is appended as the one item. *)
Theorem add_installations_appends
    (self : Station.t) (s : store) (arg : argument) :
  (Station.installations self < length s)%nat ->
  let items := argument_items s arg in
  (forallb isinstance_Installation items = false ->
   forall fuel,
     Station.add_installations fuel self arg s
     = (Raised (ValueError "All installations must be of type Installation"),
        s, [])) /\
  (forallb isinstance_Installation items = true ->
   other_object self arg \/ items = [] ->
   forall fuel,
     (length items < fuel)%nat ->
     Station.add_installations fuel self arg s
     = (Return tt,
        <[Station.installations self :=
            read s (Station.installations self) ++ items]> s,
        [])) /\
  (forall i,
     arg = AObject (PInstallation i) ->
     forall fuel,
       (1 < fuel)%nat ->
       Station.add_installations fuel self arg s
       = (Return tt,
          <[Station.installations self :=
              read s (Station.installations self) ++ [PInstallation i]]> s,
          [])).
Proof.
  intros Hl items. split; [|split].
  - intros Hall fuel. now apply add_installations_rejects.
  - intros Hall Hother fuel Hfuel. now apply add_installations_accepts.
  - intros i -> fuel Hfuel.
    apply (add_installations_accepts self s (AObject (PInstallation i)) fuel);
      [assumption|reflexivity|now left|simpl; lia].
Qed.

Lemma add_installations_appends_witness :
  Station.add_installations 3 sample_station
    (AList (Fresh [PInstallation (sample_installation 1);
                   PInstallation (sample_installation 2)]))
    [[PInstallation (sample_installation 0)]; []]
  = (Return tt,
     [[PInstallation (sample_installation 0);
       PInstallation (sample_installation 1);
       PInstallation (sample_installation 2)]; []],
     []) /\
  Station.add_installations 3 sample_station
    (AList (Fresh [PInstallation (sample_installation 1); POther VNone]))
    [[PInstallation (sample_installation 0)]; []]
  = (Raised (ValueError "All installations must be of type Installation"),
     [[PInstallation (sample_installation 0)]; []], []) /\
  Station.add_installations 3 sample_station
    (AObject (PInstallation (sample_installation 1)))
    [[PInstallation (sample_installation 0)]; []]
  = (Return tt,
     [[PInstallation (sample_installation 0);
       PInstallation (sample_installation 1)]; []],
     []).
Proof.
  assert (Hl : (Station.installations sample_station
                < length [[PInstallation (sample_installation 0)]; []])%nat)
    by (simpl; lia).
  split; [|split].
  - destruct (add_installations_appends sample_station
                [[PInstallation (sample_installation 0)]; []]
                (AList (Fresh [PInstallation (sample_installation 1);
                               PInstallation (sample_installation 2)])) Hl)
      as (_ & Hok & _).
    rewrite (Hok eq_refl (or_introl I) 3%nat); [reflexivity|simpl; lia].
  - destruct (add_installations_appends sample_station
                [[PInstallation (sample_installation 0)]; []]
                (AList (Fresh [PInstallation (sample_installation 1);
                               POther VNone])) Hl)
      as (Hbad & _).
    exact (Hbad eq_refl 3%nat).
  - destruct (add_installations_appends sample_station
                [[PInstallation (sample_installation 0)]; []]
                (AObject (PInstallation (sample_installation 1))) Hl)
      as (_ & _ & Hone).
    rewrite (Hone _ eq_refl 3%nat); [reflexivity|lia].
Defined.

(** A station whose list has one installation is handed its own list: the
    call does not return, whatever the number of turns it is given (the
    interpreter goes on until memory runs out). *)
Lemma add_installations_own_list_never_returns :
  ~ exists fuel s' evs,
      Station.add_installations fuel sample_station (AList (Stored 0))
        [[PInstallation (sample_installation 0)]]
      = (Return tt, s', evs).
Proof.
  intros (fuel & s' & evs & H).
  unfold Station.add_installations, Proc.bind, Proc.get_store in H.
  cbn [items_of read forallb isinstance_Installation negb andb] in H.
  change (forallb isinstance_Installation
            (read [[PInstallation (sample_installation 0)]] 0)) with true in H.
  cbn [negb] in H.
  destruct (append_each_own sample_station fuel 0
              [[PInstallation (sample_installation 0)]]) as [s'' Hrun].
  - simpl. lia.
  - simpl. lia.
  - change (Station.installations sample_station) with 0%nat in Hrun.
    rewrite Hrun in H. discriminate.
Qed.

(* ================================================================= *)
(** ** [asyncio.gather] *)

Section Gather.
Context {A : Type}.
Import asyncio.

Implicit Types (tasks : list (Task A)) (order finished : list nat).

Lemma finish_finish (t : Task A) : finish (finish t) = finish t.
Proof. destruct t as [[r evs]|r]; reflexivity. Qed.

Lemma ends_finish (t : Task A) : ends (finish t).
Proof. destruct t as [[r evs]|r]; intros evs'; discriminate. Qed.

Lemma run_task_other tasks finished evs j i :
  i <> j ->
  fst (fst (run_task (tasks, finished, evs) j)) !! i = tasks !! i.
Proof.
  intros Hne. unfold run_task.
  destruct (tasks !! j) as [[[[a|e|] t]|r]|]; cbn [fst];
    try reflexivity; now apply list_lookup_insert_ne.
Qed.

Lemma run_task_same tasks finished evs i t :
  tasks !! i = Some t -> ends t ->
  fst (fst (run_task (tasks, finished, evs) i)) !! i = Some (finish t).
Proof.
  intros Hi Hends. unfold run_task. rewrite Hi.
  pose proof (lookup_lt_Some _ _ _ Hi) as Hlt.
  destruct t as [[[a|e|] t]|r]; cbn [fst finish].
  - now apply list_lookup_insert_eq.
  - now apply list_lookup_insert_eq.
  - now destruct (Hends t).
  - assumption.
Qed.

Lemma run_task_none tasks finished evs j i :
  tasks !! i = None ->
  fst (fst (run_task (tasks, finished, evs) j)) !! i = None.
Proof.
  intros Hi. apply lookup_ge_None_1 in Hi. apply lookup_ge_None_2.
  unfold run_task.
  destruct (tasks !! j) as [[[[a|e|] t]|r]|]; cbn [fst];
    now rewrite ?length_insert.
Qed.

(** After a run, the tasks that were named are finished and the others
    are as they were. *)
Lemma run_tasks_lookup order :
  forall tasks finished evs i,
    (forall t, tasks !! i = Some t -> ends t) ->
    fst (fst (fold_left run_task order (tasks, finished, evs))) !! i =
    if in_dec Nat.eq_dec i order then finish <$> tasks !! i else tasks !! i.
Proof.
  induction order as [|j order IH]; intros tasks finished evs i Hends.
  - reflexivity.
  - cbn [fold_left].
    destruct (run_task (tasks, finished, evs) j) as [[tasks1 fin1] evs1] eqn:Hrun.
    assert (H1 : tasks1 !! i =
                 if decide (i = j) then finish <$> tasks !! i else tasks !! i).
    { change tasks1 with (fst (fst (tasks1, fin1, evs1))). rewrite <- Hrun.
      destruct (decide (i = j)) as [->|Hne].
      - destruct (tasks !! j) as [t|] eqn:Hj.
        + now apply run_task_same; [|apply Hends].
        + now apply run_task_none.
      - now apply run_task_other. }
    rewrite IH.
    + rewrite H1.
      destruct (in_dec Nat.eq_dec i order) as [Hin|Hnin];
        destruct (decide (i = j)) as [->|Hne];
        destruct (in_dec Nat.eq_dec _ (_ :: order)) as [Hin'|Hnin'];
        try reflexivity;
        try (exfalso; apply Hnin'; simpl; auto; fail);
        try (destruct Hin' as [?|?]; congruence).
      destruct (tasks !! j) as [t|]; simpl; [|reflexivity].
      now rewrite finish_finish.
    + intros t. rewrite H1.
      destruct (decide (i = j)) as [->|Hne]; [|apply Hends].
      destruct (tasks !! j) as [t0|]; simpl; [|discriminate].
      intros [= <-]. apply ends_finish.
Qed.

Lemma run_all_finished order tasks :
  Forall ends tasks ->
  fst (fst (run (order ++ seq 0 (length tasks)) tasks)) = map finish tasks.
Proof.
  intros Hends. apply list_eq. intros i. unfold run.
  rewrite run_tasks_lookup.
  - rewrite list_lookup_fmap.
    destruct (in_dec Nat.eq_dec i (order ++ seq 0 (length tasks))) as [_|Hnin];
      [reflexivity|].
    assert (length tasks <= i)%nat as Hge.
    { destruct (Nat.le_gt_cases (length tasks) i) as [?|Hlt]; [assumption|].
      exfalso. apply Hnin, in_or_app. right. apply in_seq. lia. }
    now rewrite (lookup_ge_None_2 _ _ Hge).
  - intros t Ht. eapply Forall_lookup_1; eassumption.
Qed.

Lemma run_task_finished_mono tasks finished evs j i :
  In i finished -> In i (snd (fst (run_task (tasks, finished, evs) j))).
Proof.
  intros Hin. unfold run_task.
  destruct (tasks !! j) as [[[[a|e|] t]|r]|]; cbn [fst snd];
    try assumption; apply in_or_app; now left.
Qed.

Lemma run_task_finishes tasks finished evs i r t :
  tasks !! i = Some (Pending (r, t)) -> r <> Diverged ->
  In i (snd (fst (run_task (tasks, finished, evs) i))).
Proof.
  intros Hi Hr. unfold run_task. rewrite Hi.
  destruct r as [a|e|]; cbn [fst snd]; try congruence;
    apply in_or_app; right; now left.
Qed.

(** A task whose coroutine ends is among the finished ones once the loop
    has run it. *)
Lemma run_finished order i r t :
  r <> Diverged ->
  forall tasks finished evs,
    In i finished \/ (tasks !! i = Some (Pending (r, t)) /\ In i order) ->
    In i (snd (fst (fold_left run_task order (tasks, finished, evs)))).
Proof.
  intros Hr. induction order as [|j order IH]; intros tasks finished evs H.
  - destruct H as [H|[_ []]]. exact H.
  - cbn [fold_left].
    destruct (run_task (tasks, finished, evs) j) as [[tasks1 fin1] evs1] eqn:Hrun.
    apply IH.
    destruct H as [H|[Hi Hin]].
    + left. change fin1 with (snd (fst (tasks1, fin1, evs1))).
      rewrite <- Hrun. now apply run_task_finished_mono.
    + destruct (decide (i = j)) as [->|Hne].
      * left. change fin1 with (snd (fst (tasks1, fin1, evs1))).
        rewrite <- Hrun. eapply run_task_finishes; eassumption.
      * right. split.
        -- change tasks1 with (fst (fst (tasks1, fin1, evs1))).
           rewrite <- Hrun. now rewrite run_task_other.
        -- destruct Hin as [?|?]; [congruence|assumption].
Qed.

Lemma first_exception_none tasks indices :
  (forall i e, tasks !! i <> Some (Done (Raised e))) ->
  first_exception tasks indices = None.
Proof.
  intros H. induction indices as [|i rest IH]; [reflexivity|].
  cbn [first_exception].
  destruct (tasks !! i) as [[c|[a|e|]]|] eqn:Hi; try exact IH.
  now destruct (H i e).
Qed.

Lemma first_exception_some tasks indices i e :
  In i indices -> tasks !! i = Some (Done (Raised e)) ->
  exists e', first_exception tasks indices = Some e'.
Proof.
  intros Hin Hi. induction indices as [|j rest IH]; [destruct Hin|].
  cbn [first_exception].
  destruct Hin as [->|Hin].
  - rewrite Hi. eauto.
  - destruct (tasks !! j) as [[c|[a|e'|]]|]; eauto.
Qed.

Lemma results_returned (rs : list A) :
  results (map (fun a => Done (Return a)) rs) = Some rs.
Proof. induction rs as [|a rs IH]; simpl; [reflexivity|now rewrite IH]. Qed.

Lemma run_done order :
  forall tasks finished evs,
    Forall (fun t => is_done t = true) tasks ->
    fold_left run_task order (tasks, finished, evs) = (tasks, finished, evs).
Proof.
  induction order as [|j order IH]; intros tasks finished evs Hdone;
    [reflexivity|].
  cbn [fold_left].
  assert (run_task (tasks, finished, evs) j = (tasks, finished, evs)) as ->.
  { unfold run_task. destruct (tasks !! j) as [t|] eqn:Hj; [|reflexivity].
    pose proof (Forall_lookup_1 _ _ _ _ Hdone Hj) as Ht.
    destruct t; [discriminate|reflexivity]. }
  now apply IH.
Qed.

End Gather.

Section GatherResults.
Context {A : Type}.
Import asyncio.

Lemma results_of_returned (rs : list A) : results (returned rs) = Some rs.
Proof. apply results_returned. Qed.

Lemma finish_pending (cs : list (io A)) (rs : list A) :
  Forall2 returns cs rs -> map finish (map Pending cs) = returned rs.
Proof.
  induction 1 as [|[r t] a cs rs Hc _ IH]; [reflexivity|].
  simpl in *. unfold returns in Hc. simpl in Hc. subst r.
  unfold returned in IH. now rewrite IH.
Qed.

Lemma returned_lookup (rs : list A) i e :
  returned rs !! i <> Some (Done (Raised e)).
Proof.
  unfold returned. rewrite list_lookup_fmap.
  destruct (rs !! i); simpl; congruence.
Qed.

(** When every coroutine returns, [gather] returns the results in the
    order of the tasks, whatever the order in which the loop ran them. *)
Lemma gather_returns order (cs : list (io A)) (rs : list A) :
  Forall2 returns cs rs ->
  exists evs,
    gather order (map Pending cs) = (Return (returned rs, rs), evs).
Proof.
  intros Hrs. unfold gather.
  destruct (run (order ++ seq 0 (length (map Pending cs))) (map Pending cs))
    as [[tasks' fin] evs] eqn:Hrun.
  assert (tasks' = returned rs) as ->.
  { change tasks' with (fst (fst (tasks', fin, evs))). rewrite <- Hrun.
    rewrite run_all_finished; [now apply finish_pending|].
    clear -Hrs. induction Hrs as [|[r t] a cs rs Hc _ IH]; constructor; auto.
    unfold returns in Hc. simpl in Hc. subst r. intros evs'. discriminate. }
  rewrite first_exception_none by apply returned_lookup.
  rewrite results_of_returned. eauto.
Qed.

(** Awaiting tasks that are done gives their results again. *)
Lemma gather_returned order (rs : list A) :
  gather order (returned rs) = (Return (returned rs, rs), []).
Proof.
  unfold gather, run. rewrite run_done.
  - rewrite first_exception_none by apply returned_lookup.
    now rewrite results_of_returned.
  - unfold returned. induction rs; constructor; auto.
Qed.

(** A task that raises makes [gather] raise. *)
Lemma gather_raises order (tasks : list (Task A)) i e t :
  tasks !! i = Some (Pending (Raised e, t)) ->
  exists e' evs, gather order tasks = (Raised e', evs).
Proof.
  intros Hi. unfold gather.
  destruct (run (order ++ seq 0 (length tasks)) tasks)
    as [[tasks' fin] evs] eqn:Hrun.
  assert (Hin : In i (order ++ seq 0 (length tasks))).
  { apply in_or_app. right. apply in_seq.
    pose proof (lookup_lt_Some _ _ _ Hi). lia. }
  assert (Hdone : tasks' !! i = Some (Done (Raised e))).
  { change tasks' with (fst (fst (tasks', fin, evs))). rewrite <- Hrun.
    unfold run. rewrite run_tasks_lookup.
    - destruct (in_dec Nat.eq_dec i _) as [_|Hn]; [|contradiction].
      now rewrite Hi.
    - intros t0. rewrite Hi. intros [= <-] evs'. discriminate. }
  assert (Hfin : In i fin).
  { change fin with (snd (fst (tasks', fin, evs))). rewrite <- Hrun.
    unfold run. apply (run_finished _ i (Raised e) t); [discriminate|].
    right. split; assumption. }
  destruct (first_exception_some tasks' (done_indices tasks ++ fin) i e)
    as [e' ->]; [apply in_or_app; now right|assumption|eauto].
Qed.

(** Run in the order of their creation, tasks that end leave their events
    in that order. *)
Lemma run_fifo (cs : list (io A)) :
  Forall (fun c => fst c <> Diverged) cs ->
  forall (done : list (Task A)) fin evs,
    fold_left run_task (seq (length done) (length cs))
              (done ++ map Pending cs, fin, evs)
    = (done ++ map (fun c => Done (fst c)) cs,
       fin ++ seq (length done) (length cs),
       evs ++ concat (map snd cs)).
Proof.
  induction 1 as [|[r t] cs Hr _ IH]; intros done fin evs.
  - simpl. now rewrite !app_nil_r.
  - cbn [length seq fold_left map concat fst snd].
    assert (run_task (done ++ Pending (r, t) :: map Pending cs, fin, evs)
                     (length done)
            = ((done ++ [Done r]) ++ map Pending cs,
               fin ++ [length done], evs ++ t)) as ->.
    { unfold run_task. rewrite list_lookup_middle by reflexivity.
      rewrite insert_app_r_alt, Nat.sub_diag by lia.
      rewrite <- app_assoc. simpl in Hr.
      destruct r; [reflexivity|reflexivity|congruence]. }
    replace (S (length done)) with (length (done ++ [Done r]))
      by (rewrite length_app; simpl; lia).
    rewrite IH. rewrite <- !app_assoc. reflexivity.
Qed.

Lemma done_indices_pending (cs : list (io A)) :
  done_indices (map Pending cs) = [].
Proof.
  unfold done_indices.
  assert (H : forall l, List.filter
                (fun i => match map Pending cs !! i with
                          | Some t => is_done t
                          | None => false
                          end) l = []).
  { induction l as [|i l IH]; [reflexivity|]. cbn [List.filter].
    rewrite list_lookup_fmap. destruct (cs !! i); simpl; exact IH. }
  apply H.
Qed.

Lemma gather_fifo (cs : list (io A)) (rs : list A) :
  Forall2 returns cs rs ->
  gather [] (map Pending cs)
  = (Return (returned rs, rs), concat (map snd cs)).
Proof.
  intros Hrs. unfold gather, run. cbn [app].
  rewrite length_map, done_indices_pending.
  pose proof (run_fifo cs) as Hrun. specialize (Hrun ltac:(
    clear -Hrs; induction Hrs as [|c a cs rs Hc _ IH]; constructor; auto;
    unfold returns in Hc; congruence) [] [] []).
  cbn [app length] in Hrun. rewrite Hrun.
  cbn [app].
  assert (map (fun c => Done (fst c)) cs = returned rs) as ->.
  { clear -Hrs. induction Hrs as [|c a cs rs Hc _ IH]; [reflexivity|].
    simpl. unfold returns in Hc. rewrite Hc. unfold returned in IH.
    now rewrite IH. }
  rewrite first_exception_none by apply returned_lookup.
  now rewrite results_of_returned.
Qed.

End GatherResults.

(* ================================================================= *)
(** ** Tasks that run before they are awaited *)

Section ReadyTasks.
Context {A : Type}.
Import asyncio.

Lemma while_waiting_nil (evs : list event) : while_waiting [] evs = evs.
Proof. now destruct evs. Qed.

Lemma run_ready_nil : run_ready (@nil (Task A)) = ([], []).
Proof. reflexivity. Qed.

Lemma await_network_nil (c : io A) : await_network [] c = c.
Proof. unfold await_network. rewrite while_waiting_nil. now destruct c. Qed.

Lemma requests_while_waiting ready evs :
  requests ready = [] ->
  requests (while_waiting ready evs) = requests evs.
Proof.
  intros Hready. destruct evs as [|ev rest]; [exact Hready|].
  cbn [while_waiting].
  change (ev :: ready ++ rest) with ([ev] ++ ready ++ rest).
  change (ev :: rest) with ([ev] ++ rest).
  now rewrite !requests_app, Hready.
Qed.

(** The loop finds nothing to do at a task that is done. *)
Lemma run_over_done (idx : list nat) (tasks : list (Task A)) fin evs :
  (forall i, In i idx -> exists r, tasks !! i = Some (Done r)) ->
  fold_left run_task idx (tasks, fin, evs) = (tasks, fin, evs).
Proof.
  induction idx as [|i idx IH]; intros H; [reflexivity|].
  cbn [fold_left].
  destruct (H i (or_introl eq_refl)) as [r Hr].
  assert (run_task (tasks, fin, evs) i = (tasks, fin, evs)) as ->
    by (unfold run_task; now rewrite Hr).
  apply IH. intros j Hj. apply H. now right.
Qed.

Lemma run_partly_done (ds cs : list (io A)) :
  Forall (fun c => fst c <> Diverged) cs ->
  run (seq 0 (length (map ran ds ++ map Pending cs)))
      (map ran ds ++ map Pending cs)
  = (map ran (ds ++ cs), seq (length ds) (length cs), concat (map snd cs)).
Proof.
  intros Hends. unfold run.
  rewrite length_app, !length_map, seq_app, fold_left_app.
  rewrite run_over_done.
  - pose proof (run_fifo cs Hends (map ran ds) [] []) as Hrun.
    rewrite length_map in Hrun. cbn [Nat.add]. rewrite Hrun.
    cbn [app]. now rewrite map_app.
  - intros i Hi. apply in_seq in Hi.
    destruct (lookup_lt_is_Some_2 ds i ltac:(lia)) as [d Hd].
    exists (fst d).
    rewrite lookup_app_l by (rewrite length_map; lia).
    now rewrite list_lookup_fmap, Hd.
Qed.

Lemma run_ready_partly_done (ds cs : list (io A)) :
  Forall (fun c => fst c <> Diverged) cs ->
  run_ready (map ran ds ++ map Pending cs)
  = (map ran (ds ++ cs), concat (map snd cs)).
Proof.
  intros Hends. unfold run_ready. now rewrite run_partly_done.
Qed.

Lemma filter_all {B} (f : B -> bool) (l : list B) :
  (forall x, In x l -> f x = true) -> List.filter f l = l.
Proof.
  induction l as [|x l IH]; intros H; [reflexivity|].
  cbn [List.filter]. rewrite (H x (or_introl eq_refl)).
  f_equal. apply IH. intros y Hy. apply H. now right.
Qed.

Lemma filter_none {B} (f : B -> bool) (l : list B) :
  (forall x, In x l -> f x = false) -> List.filter f l = [].
Proof.
  induction l as [|x l IH]; intros H; [reflexivity|].
  cbn [List.filter]. rewrite (H x (or_introl eq_refl)).
  apply IH. intros y Hy. apply H. now right.
Qed.

Lemma done_indices_partly_done (ds cs : list (io A)) :
  done_indices (map ran ds ++ map Pending cs) = seq 0 (length ds).
Proof.
  unfold done_indices.
  rewrite length_app, !length_map, seq_app, List.filter_app.
  rewrite filter_all, filter_none; [apply app_nil_r| |].
  - intros i Hi. apply in_seq in Hi.
    rewrite lookup_app_r by (rewrite length_map; lia).
    rewrite length_map, list_lookup_fmap.
    now destruct (cs !! (i - length ds)%nat).
  - intros i Hi. apply in_seq in Hi.
    destruct (lookup_lt_is_Some_2 ds i ltac:(lia)) as [d Hd].
    rewrite lookup_app_l by (rewrite length_map; lia).
    now rewrite list_lookup_fmap, Hd.
Qed.

(** Awaiting tasks of which some have run already: the outcome is that
    of awaiting them all from the start, the events are those of the
    tasks that had not run. *)
Lemma gather_partly_done (ds cs : list (io A)) :
  Forall (fun c => fst c <> Diverged) (ds ++ cs) ->
  gather [] (map ran ds ++ map Pending cs)
  = (fst (gather [] (map Pending (ds ++ cs))), concat (map snd cs)).
Proof.
  intros Hends. apply Forall_app in Hends as Hsplit.
  destruct Hsplit as [_ Hcs].
  unfold gather. cbn [app].
  rewrite (run_partly_done ds cs Hcs), done_indices_partly_done.
  rewrite done_indices_pending. unfold run.
  pose proof (run_fifo (ds ++ cs) Hends [] [] []) as Hrun.
  cbn [app length] in Hrun. rewrite length_map, Hrun. cbn [app].
  replace (seq 0 (length ds) ++ seq (length ds) (length cs))
    with (seq 0 (length (ds ++ cs)))
    by (now rewrite length_app, seq_app).
  unfold ran, io.
  destruct (first_exception _ _); [reflexivity|].
  now destruct (results _).
Qed.

End ReadyTasks.

(* ================================================================= *)
(** ** One turn of the two page loops *)

Lemma int_lt_events n v : snd (int_lt n v) = [].
Proof. destruct v; reflexivity. Qed.

Lemma getitem_events data key : snd (getitem data key) = [].
Proof. destruct (getitem_cases data key) as [[v ->]|[e ->]]; reflexivity. Qed.

Section PageLoops.
Variable net : network.

Lemma read_total_events upd tp data : snd (read_total upd tp data) = [].
Proof. destruct upd; [reflexivity|apply getitem_events]. Qed.

Lemma get_installations_loop_turn fuel self cur tp upd tasks :
  Station.get_installations_loop net (S fuel) self cur tp upd tasks =
  match fst (int_lt cur tp) with
  | Return true =>
      let ready := asyncio.run_ready tasks in
      match fetch_data net (Station.sensors_url self cur)
                       default_max_retries with
      | (Return data, fevs) =>
          match fst (read_total upd tp data) with
          | Return tp' =>
              let '(r, evs) :=
                Station.get_installations_loop net fuel self (cur + 1) tp'
                  true (fst ready ++ [parse_task data]) in
              (r, asyncio.while_waiting (snd ready) fevs ++ evs)
          | Raised e => (Raised e, asyncio.while_waiting (snd ready) fevs)
          | Diverged => (Diverged, asyncio.while_waiting (snd ready) fevs)
          end
      | (Raised e, fevs) =>
          if isinstance e CHTTPError
          then (Return [],
                asyncio.while_waiting (snd ready) fevs ++
                [EvPrint (LogError e)])
          else (Raised e, asyncio.while_waiting (snd ready) fevs)
      | (Diverged, fevs) =>
          (Diverged, asyncio.while_waiting (snd ready) fevs)
      end
  | Return false =>
      let '(r, evs) := asyncio.gather [] tasks in
      (match r with
       | Return gathered => Return (concat (snd gathered))
       | Raised e => Raised e
       | Diverged => Diverged
       end, evs)
  | Raised e => (Raised e, [])
  | Diverged => (Diverged, [])
  end.
Proof.
  cbn [Station.get_installations_loop]. cbv zeta.
  pose proof (int_lt_events cur tp) as Hev.
  destruct (int_lt cur tp) as [[[|]|e|] t]; simpl in Hev; subst t;
    cbn [fst IO.bind app]; try reflexivity.
  - unfold asyncio.await_network.
    destruct (fetch_data net (Station.sensors_url self cur)
                         default_max_retries) as [[data|e|] fevs];
      cbn [fst snd IO.bind IO.try_except IO.ret].
    + rewrite app_nil_r.
      fold (read_total upd tp data).
      pose proof (read_total_events upd tp data) as Hev.
      destruct (read_total upd tp data) as [[tp'|e|] t]; simpl in Hev;
        subst t; cbn [fst IO.bind app].
      * unfold parse_task.
        destruct (Station.get_installations_loop net fuel self (cur + 1) tp'
                    true _) as [r evs].
        reflexivity.
      * now rewrite app_nil_r.
      * now rewrite app_nil_r.
    + destruct (isinstance e CHTTPError);
        cbn [IO.bind IO.print IO.emit IO.ret IO.raise app];
        now rewrite ?app_nil_r.
    + reflexivity.
  - destruct (asyncio.gather [] tasks) as [[g|e|] evs];
      cbn [IO.bind IO.ret]; now rewrite ?app_nil_r.
Qed.

Lemma get_stations_loop_turn fuel tf cur tp upd tasks master s :
  get_stations_loop net (S fuel) tf cur tp upd tasks master s =
  match fst (int_lt cur tp) with
  | Return true =>
      match fetch_data net (stations_url cur) default_max_retries with
      | (Return data, fevs) =>
          match fst (read_total upd tp data) with
          | Return tp' =>
              match create_stations data s with
              | (Return stations, s1, pevs) =>
                  let '(r, s2, evs) :=
                    get_stations_loop net fuel tf (cur + 1) tp' true
                      (tasks ++ map (installations_task net tf) stations)
                      (master ++ stations) s1 in
                  (r, s2,
                   fevs ++ pevs ++
                   EvPrint (LogCompletedPage (cur + 1) tp') :: evs)
              | (Raised e, s1, pevs) => (Raised e, s1, fevs ++ pevs)
              | (Diverged, s1, pevs) => (Diverged, s1, fevs ++ pevs)
              end
          | Raised e => (Raised e, s, fevs)
          | Diverged => (Diverged, s, fevs)
          end
      | (Raised e, fevs) => (Raised e, s, fevs)
      | (Diverged, fevs) => (Diverged, s, fevs)
      end
  | Return false => (Return (master, tasks), s, [])
  | Raised e => (Raised e, s, [])
  | Diverged => (Diverged, s, [])
  end.
Proof.
  cbn [get_stations_loop]. unfold Proc.bind at 1, Proc.lift at 1.
  pose proof (int_lt_events cur tp) as Hev.
  destruct (int_lt cur tp) as [[[|]|e|] t]; simpl in Hev; subst t;
    cbn [fst snd]; try reflexivity.
  unfold Proc.bind at 1, Proc.try_except, Proc.lift at 1.
  destruct (fetch_data net (stations_url cur) default_max_retries)
    as [[data|e|] fevs]; cbn [fst snd].
  - unfold Proc.bind at 1.
    fold (read_total upd tp data).
    assert (Hrt : (if upd then Proc.ret tp
                   else Proc.lift (getitem data "totalPages")) s
                  = (fst (read_total upd tp data), s, [])).
    { unfold read_total. destruct upd; [reflexivity|].
      unfold Proc.lift. now rewrite getitem_events. }
    rewrite Hrt.
    destruct (fst (read_total upd tp data)) as [tp'|e|].
    + unfold Proc.bind at 1.
      destruct (create_stations data s) as [[[stations|e|] s1] pevs].
      * unfold Proc.bind at 1, Proc.print at 1.
        unfold installations_task.
        destruct (get_stations_loop net fuel tf (cur + 1) tp' true _ _ s1)
          as [[r s2] evs].
        cbn [app]. reflexivity.
      * cbn [app]. now rewrite ?app_nil_r.
      * cbn [app]. now rewrite ?app_nil_r.
    + cbn [app]. now rewrite ?app_nil_r.
    + cbn [app]. now rewrite ?app_nil_r.
  - unfold Proc.raise. cbn [app]. now rewrite ?app_nil_r.
  - reflexivity.
Qed.

End PageLoops.

(* ================================================================= *)
(** ** Pagination *)

Lemma over_pages_cons {A} first count (f : nat -> list A) :
  over_pages first (S count) f = f first ++ over_pages (S first) count f.
Proof. reflexivity. Qed.

Section Pagination.
Variable net : network.

Lemma serves_delivers page_url list_key total n fields records fevs :
  serves net page_url list_key total n fields records fevs ->
  delivers net page_url total n fields fevs.
Proof.
  intros H i Hi. destruct (H i Hi) as (Hfetch & _ & _ & Htp). now split.
Qed.


Lemma over_pages_ext {A} (f g : nat -> list A) :
  forall count first,
    (forall i, (first <= i < first + count)%nat -> f i = g i) ->
    over_pages first count f = over_pages first count g.
Proof.
  induction count as [|count IH]; intros first H; [reflexivity|].
  rewrite !over_pages_cons, (H first) by lia.
  f_equal. apply IH. intros i Hi. apply H. lia.
Qed.

Lemma requests_over_pages_map (f : nat -> list event) :
  forall count first,
    requests (over_pages first count f)
    = over_pages first count (fun i => requests (f i)).
Proof.
  induction count as [|count IH]; intros first; [reflexivity|].
  now rewrite !over_pages_cons, requests_app, IH.
Qed.







Lemma requests_ready_at fields c : requests (ready_at fields c) = [].
Proof. destruct c as [|j]; [reflexivity|]. apply create_installations_ends. Qed.

Lemma requests_turn_events fields fevs i :
  requests (turn_events fields fevs i) = requests (fevs i).
Proof. apply requests_while_waiting, requests_ready_at. Qed.

(** At the head of a turn the parse of the page before is ready; it
    runs while the page of the turn is fetched. *)
Lemma run_ready_tasks_at fields c :
  asyncio.run_ready (tasks_at fields c)
  = (map ran (map (parse_of fields) (seq 0 c)), ready_at fields c).
Proof.
  destruct c as [|j]; [reflexivity|].
  unfold tasks_at. rewrite run_ready_partly_done.
  - rewrite seq_S, !map_app. cbn [map concat app Nat.add ready_at].
    now rewrite app_nil_r.
  - repeat constructor. apply create_installations_ends.
Qed.

Lemma tasks_at_next fields c :
  fst (asyncio.run_ready (tasks_at fields c)) ++
  [parse_task (VDict (fields c))]
  = tasks_at fields (S c).
Proof. now rewrite run_ready_tasks_at. Qed.

Lemma loop_goes_on total c :
  (forall i, (0 < i <= c)%nat -> Z.of_nat i < total) ->
  fst (int_lt (Z.of_nat c) (fst (loop_state total c))) = Return true.
Proof.
  intros Hlt. destruct c as [|c]; [reflexivity|].
  cbn [loop_state fst int_lt IO.ret].
  destruct (Z.ltb_spec (Z.of_nat (S c)) total) as [_|?]; [reflexivity|].
  specialize (Hlt (S c) ltac:(lia)). lia.
Qed.

(** [k] pages that are delivered take the loop of [get_installations]
    through [k] turns. *)
Lemma get_installations_loop_prefix self total n fields fevs :
  delivers net (Station.sensors_url self) total n fields fevs ->
  forall k c fuel,
    (c + k <= n)%nat ->
    (forall i, (0 < i < c + k)%nat -> Z.of_nat i < total) ->
    Station.get_installations_loop net (k + fuel) self (Z.of_nat c)
      (fst (loop_state total c)) (snd (loop_state total c))
      (tasks_at fields c)
    = (fst (Station.get_installations_loop net fuel self (Z.of_nat (c + k))
              (fst (loop_state total (c + k)))
              (snd (loop_state total (c + k)))
              (tasks_at fields (c + k))),
       over_pages c k (turn_events fields fevs) ++
       snd (Station.get_installations_loop net fuel self (Z.of_nat (c + k))
              (fst (loop_state total (c + k)))
              (snd (loop_state total (c + k)))
              (tasks_at fields (c + k)))).
Proof.
  intros Hdel. induction k as [|k IH]; intros c fuel Hck Hlt.
  - rewrite Nat.add_0_r. cbn [Nat.add over_pages seq map concat app].
    now destruct (Station.get_installations_loop net fuel self _ _ _ _).
  - change (S k + fuel)%nat with (S (k + fuel)).
    rewrite get_installations_loop_turn.
    destruct (Hdel c ltac:(lia)) as (Hfetch & Htp).
    rewrite (loop_goes_on total c) by (intros i Hi; apply Hlt; lia).
    cbv zeta. rewrite Hfetch.
    assert (Hread : fst (read_total (snd (loop_state total c))
                           (fst (loop_state total c)) (VDict (fields c)))
                    = Return (VInt total)).
    { destruct c as [|c]; [|reflexivity].
      cbn [loop_state fst snd read_total].
      now rewrite getitem_dict, (Htp eq_refl). }
    rewrite Hread, tasks_at_next, run_ready_tasks_at. cbn [snd].
    fold (turn_events fields fevs c).
    replace (Z.of_nat c + 1) with (Z.of_nat (S c)) by lia.
    pose proof (IH (S c) fuel ltac:(lia)
                  ltac:(intros i Hi; apply Hlt; lia)) as Hrest.
    cbn [loop_state fst snd] in Hrest. rewrite Hrest. clear Hrest.
    replace (c + S k)%nat with (S c + k)%nat by lia.
    rewrite over_pages_cons, <- !app_assoc.
    reflexivity.
Qed.

(** All the pages are delivered: the loop ends, and [gather] awaits
    the parses. *)
Lemma get_installations_delivered self total n fields fevs fuel :
  delivers net (Station.sensors_url self) total n fields fevs ->
  1 <= total -> Z.of_nat n = total -> (n < fuel)%nat ->
  Station.get_installations net fuel self
  = (gathered
       (fst (asyncio.gather []
               (map asyncio.Pending (map (parse_of fields) (seq 0 n))))),
     over_pages 0 n (turn_events fields fevs) ++ ready_at fields n).
Proof.
  intros Hdel Htotal Hn Hfuel.
  unfold Station.get_installations.
  replace fuel with (n + S (fuel - S n))%nat by lia.
  pose proof (get_installations_loop_prefix self total n fields fevs Hdel
                n 0%nat (S (fuel - S n)) ltac:(lia)
                ltac:(intros i Hi; lia)) as Hrun.
  cbn [loop_state fst snd Nat.add tasks_at] in Hrun.
  change (Z.of_nat 0) with 0 in Hrun. rewrite Hrun. clear Hrun.
  rewrite get_installations_loop_turn.
  destruct n as [|m]; [lia|].
  cbn [loop_state fst snd int_lt IO.ret].
  destruct (Z.ltb_spec (Z.of_nat (S m)) total) as [?|_]; [lia|].
  assert (Hall : map (parse_of fields) (seq 0 m) ++ [parse_of fields m]
                 = map (parse_of fields) (seq 0 (S m)))
    by (now rewrite seq_S, map_app).
  unfold tasks_at. rewrite gather_partly_done.
  - rewrite Hall. cbn [map concat app ready_at].
    rewrite app_nil_r.
    now destruct (asyncio.gather [] _) as [[g|e|] evs].
  - rewrite Hall. apply List.Forall_forall. intros c Hin.
    apply in_map_iff in Hin.
    destruct Hin as (i & <- & _). apply create_installations_ends.
Qed.

Lemma get_installations_pages self total n fields records fevs fuel :
  serves net (Station.sensors_url self) installations_key total n
         fields records fevs ->
  1 <= total -> Z.of_nat n = total -> (n < fuel)%nat ->
  Station.get_installations net fuel self
  = (Return (over_pages 0 n (fun i => page_installations (records i))),
     over_pages 0 n (turn_events fields fevs) ++ ready_at fields n).
Proof.
  intros Hserves Htotal Hn Hfuel.
  rewrite (get_installations_delivered self total n fields fevs fuel
             (serves_delivers _ _ _ _ _ _ _ Hserves) Htotal Hn Hfuel).
  rewrite (gather_fifo _
             (map (fun i => page_installations (records i)) (seq 0 n))).
  - reflexivity.
  - apply Forall2_fmap. apply Forall2_same_length_lookup_2; [reflexivity|].
    intros i x y Hx Hy. rewrite Hx in Hy. injection Hy as <-.
    apply lookup_seq in Hx. destruct Hx as [-> Hlt]. cbn [Nat.add].
    destruct (Hserves i ltac:(lia)) as (_ & Hlist & Hdicts & _).
    unfold returns, parse_of.
    now rewrite (create_installations_page _ _ Hlist Hdicts).
Qed.


End Pagination.

Section StationPages.
Variable net : network.
Variable task_fuel : nat.

Lemma create_stations_served fields records (s : store) :
  assoc stations_key fields = Some (VList records) ->
  Forall is_dict records ->
  create_stations (VDict fields) s =
  (Return (place (length s) (page_stations records)),
   s ++ repeat [] (length (page_stations records)),
   key_errors (List.filter (malformed station_keys) records)).
Proof.
  intros Hlist Hdicts. unfold page_stations. rewrite length_map.
  now apply create_stations_page.
Qed.

(** [k] pages that are served take the loop through [k] turns. *)
Lemma get_stations_loop_pages total n fields records fevs :
  serves net stations_url stations_key total n fields records fevs ->
  forall k c fuel tasks master (s : store),
    (c + k <= n)%nat ->
    (forall i, (0 < i < c + k)%nat -> Z.of_nat i < total) ->
    get_stations_loop net (k + fuel) task_fuel (Z.of_nat c)
      (fst (loop_state total c)) (snd (loop_state total c)) tasks master s
    = let sts := over_pages c k (fun i => page_stations (records i)) in
      let '(r, s', evs) :=
        get_stations_loop net fuel task_fuel (Z.of_nat (c + k))
          (fst (loop_state total (c + k))) (snd (loop_state total (c + k)))
          (tasks ++ map (installations_task net task_fuel)
                        (place (length s) sts))
          (master ++ place (length s) sts)
          (s ++ repeat [] (length sts)) in
      (r, s', over_pages c k (station_turn total records fevs) ++ evs).
Proof.
  intros Hserves. induction k as [|k IH];
    intros c fuel tasks master s Hck Hlt; cbv zeta.
  - rewrite Nat.add_0_r. cbn [Nat.add over_pages seq map concat place
                              length repeat app].
    rewrite !app_nil_r.
    now destruct (get_stations_loop net fuel task_fuel _ _ _ _ _ s)
      as [[r s'] evs].
  - change (S k + fuel)%nat with (S (k + fuel)).
    rewrite get_stations_loop_turn.
    destruct (Hserves c ltac:(lia)) as (Hfetch & Hlist & Hdicts & Htp).
    assert (Hgo : fst (int_lt (Z.of_nat c) (fst (loop_state total c)))
                  = Return true).
    { destruct c as [|c]; [reflexivity|]. cbn [loop_state fst int_lt IO.ret].
      destruct (Z.ltb_spec (Z.of_nat (S c)) total) as [_|?]; [reflexivity|].
      specialize (Hlt (S c) ltac:(lia)). lia. }
    rewrite Hgo, Hfetch.
    assert (Hread : fst (read_total (snd (loop_state total c))
                           (fst (loop_state total c)) (VDict (fields c)))
                    = Return (VInt total)).
    { destruct c as [|c]; [|reflexivity].
      cbn [loop_state fst snd read_total].
      now rewrite getitem_dict, (Htp eq_refl). }
    rewrite Hread, (create_stations_served _ _ s Hlist Hdicts).
    replace (Z.of_nat c + 1) with (Z.of_nat (S c)) by lia.
    pose proof (IH (S c) fuel
                  (tasks ++ map (installations_task net task_fuel)
                     (place (length s) (page_stations (records c))))
                  (master ++ place (length s) (page_stations (records c)))
                  (s ++ repeat [] (length (page_stations (records c))))
                  ltac:(lia) ltac:(intros i Hi; apply Hlt; lia)) as Hrest.
    cbv zeta in Hrest. cbn [loop_state fst snd] in Hrest.
    cbn [loop_state fst snd]. rewrite Hrest. clear Hrest.
    rewrite over_pages_cons, place_app, map_app, length_app.
    rewrite !length_app, repeat_length, <- !app_assoc.
    rewrite (repeat_app _ (length (page_stations (records c)))).
    rewrite <- ?app_assoc.
    replace (c + S k)%nat with (S c + k)%nat by lia.
    destruct (get_stations_loop net fuel task_fuel _ _ _ _ _ _)
      as [[r s'] evs].
    rewrite (over_pages_cons c k (station_turn total records fevs)).
    unfold station_turn at 2.
    replace (Z.of_nat (S c)) with (Z.of_nat c + 1) by lia.
    rewrite <- ?app_assoc. reflexivity.
Qed.

End StationPages.



(* ================================================================= *)
(** ** [get_stations] *)

Section ProcRuns.
Context {A B : Type}.

Lemma bind_return (c : proc A) (k : A -> proc B) (s : store) a s' t :
  c s = (Return a, s', t) ->
  Proc.bind c k s = (fst (fst (k a s')), snd (fst (k a s')), t ++ snd (k a s')).
Proof.
  intros H. unfold Proc.bind. rewrite H.
  now destruct (k a s') as [[r s''] t'].
Qed.

Lemma bind_raised (c : proc A) (k : A -> proc B) (s : store) e s' t :
  c s = (Raised e, s', t) -> Proc.bind c k s = (Raised e, s', t).
Proof. intros H. unfold Proc.bind. now rewrite H. Qed.

End ProcRuns.

Section GetStations.
Variable net : network.

(** Whatever the pages are, when the loop returns, the stations it made
    own the lists that are new in the store, one each and all empty, and
    there is one task for each station, in the same order. *)
Lemma get_stations_loop_returns tf :
  forall fuel cur tp upd tasks master (s : store) master' tasks' s' evs,
    get_stations_loop net fuel tf cur tp upd tasks master s
      = (Return (master', tasks'), s', evs) ->
    exists sts,
      master' = master ++ place (length s) sts /\
      tasks' = tasks ++ map (installations_task net tf)
                            (place (length s) sts) /\
      s' = s ++ repeat [] (length sts).
Proof.
  induction fuel as [|fuel IH];
    intros cur tp upd tasks master s master' tasks' s' evs H;
    [discriminate|].
  rewrite get_stations_loop_turn in H.
  destruct (fst (int_lt cur tp)) as [[|]|e|]; try discriminate.
  - destruct (fetch_data net (stations_url cur) default_max_retries)
      as [[data|e|] fevs]; try discriminate.
    destruct (fst (read_total upd tp data)) as [tp'|e|]; try discriminate.
    destruct (create_stations_cases data)
      as [(sts0 & pevs & Hd)|(e & n & pevs & Hd)];
      rewrite (Hd s) in H; [|discriminate].
    destruct (get_stations_loop net fuel tf (cur + 1) tp' true _ _ _)
      as [[r s2] evs'] eqn:Hrec.
    injection H as -> -> _.
    apply IH in Hrec. destruct Hrec as (sts & -> & -> & ->).
    exists (sts0 ++ sts).
    rewrite place_app, map_app, !length_app, repeat_length, repeat_app.
    now rewrite <- !app_assoc.
  - injection H as <- <- <- _. exists [].
    simpl. now rewrite !app_nil_r.
Qed.

Lemma get_stations_raises sched fuel echo (s : store) e s' evs :
  get_stations_loop net fuel fuel 0 (VInt 1) false [] [] s
    = (Raised e, s', evs) ->
  get_stations net sched fuel echo s
    = (Raised e, s', EvPrint LogStarting :: evs).
Proof.
  intros H. unfold get_stations.
  erewrite bind_return by reflexivity.
  erewrite bind_raised by exact H. reflexivity.
Qed.

End GetStations.

(** C8. When the fetch of a station page raises, [get_stations] raises the
    same exception and returns no list. The page may be any page that the
    loop gets to: the pages before it were served, and it is page 0 or a
    page below the reported number of pages. *)
Theorem station_fetch_failure_propagates
    (net : network) (sched : list nat) (fuel : nat) (echo : bool) (s : store)
    (total : Z) (p : nat) (fields : nat -> list (string * value))
    (records : nat -> list value) (fevs : nat -> list event)
    (e : exn) (evs_p : list event) :
  serves net stations_url stations_key total p fields records fevs ->
  (forall i, (0 < i <= p)%nat -> Z.of_nat i < total) ->
  fetch_data net (stations_url (Z.of_nat p)) default_max_retries
    = (Raised e, evs_p) ->
  (p < fuel)%nat ->
  exists s' evs,
    get_stations net sched fuel echo s = (Raised e, s', evs).
Proof.
  intros Hserves Hlt Hfail Hfuel.
  pose proof (get_stations_loop_pages net fuel total p fields records fevs
                Hserves p 0%nat (fuel - p)%nat [] [] s
                ltac:(lia) ltac:(intros i Hi; apply Hlt; lia)) as Hrun.
  cbv zeta in Hrun. cbn [loop_state fst snd Nat.add] in Hrun.
  replace (p + (fuel - p))%nat with fuel in Hrun by lia.
  destruct (fuel - p)%nat as [|fuel'] eqn:Hf; [lia|].
  rewrite get_stations_loop_turn in Hrun.
  assert (Hgo : fst (int_lt (Z.of_nat p) (fst (loop_state total p)))
                = Return true).
  { destruct p as [|p]; [reflexivity|]. cbn [loop_state fst int_lt IO.ret].
    destruct (Z.ltb_spec (Z.of_nat (S p)) total) as [_|?]; [reflexivity|].
    specialize (Hlt (S p) ltac:(lia)). lia. }
  rewrite Hgo, Hfail in Hrun.
  eexists _, _. apply get_stations_raises. exact Hrun.
Qed.

Lemma station_fetch_failure_propagates_witness :
  exists evs,
    get_stations second_page_down [] 3 true []
    = (Raised failed_to_fetch, [[]], evs).
Proof.
  destruct (station_fetch_failure_propagates second_page_down [] 3 true []
              2 1
              (fun _ => stations_page 2 [sample_station_record 1])
              (fun _ => [sample_station_record 1])
              (fun i => [EvRequest (stations_url (Z.of_nat i))])
              failed_to_fetch
              [EvRequest (stations_url 1);
               EvPrint (LogHTTPError (ClientResponseError 503))])
    as (s' & evs & Hrun).
  - intros i Hi. destruct i as [|i]; [|lia].
    split; [reflexivity|split; [reflexivity|split;
      [repeat constructor|reflexivity]]].
  - intros i Hi. lia.
  - reflexivity.
  - lia.
  - exists (snd (get_stations second_page_down [] 3 true [])). reflexivity.
Defined.

Section InstallationFailure.
Variable net : network.

Lemma get_installations_first_fetch_fails fuel self e evs :
  fetch_data net (Station.sensors_url self 0) default_max_retries
    = (Raised e, evs) ->
  Station.get_installations net (S fuel) self = (Raised failed_to_fetch, evs).
Proof.
  intros H. pose proof (fetch_data_raises _ _ _ _ _ H) as ->.
  unfold Station.get_installations.
  rewrite get_installations_loop_turn. cbn [int_lt IO.ret fst].
  change (0 <? 1) with true. cbv iota zeta.
  now rewrite H, run_ready_nil, while_waiting_nil.
Qed.

Lemma get_stations_task_raises sched fuel echo (s : store)
      master tasks s1 evs1 i e t :
  get_stations_loop net fuel fuel 0 (VInt 1) false [] [] s
    = (Return (master, tasks), s1, evs1) ->
  tasks !! i = Some (asyncio.Pending (Raised e, t)) ->
  exists e' evs', get_stations net sched fuel echo s = (Raised e', s1, evs').
Proof.
  intros Hloop Hi.
  destruct (gather_raises sched tasks i e t Hi) as (e' & evs' & Hg).
  exists e'. eexists. unfold get_stations.
  erewrite bind_return by reflexivity.
  erewrite bind_return by exact Hloop.
  cbn [fst snd].
  erewrite bind_raised by (unfold Proc.lift, asyncio.gather_concurrent; rewrite Hg; reflexivity).
  reflexivity.
Qed.

End InstallationFailure.

(** C1, as the code has it. [fetch_data] raises a plain [Exception], which
    the handler for [HTTPError] in [get_installations] does not catch: a
    first page whose fetch fails makes [get_installations] raise instead of
    returning the empty list, and [get_stations], which awaits the task of
    every station, raises as well. *)
Theorem installation_fetch_failure_is_raised (net : network) :
  (forall fuel self e evs,
      fetch_data net (Station.sensors_url self 0) default_max_retries
        = (Raised e, evs) ->
      Station.get_installations net (S fuel) self
        = (Raised failed_to_fetch, evs)) /\
  (forall sched fuel echo (s : store) master tasks s1 evs1 st e evs,
      get_stations_loop net (S fuel) (S fuel) 0 (VInt 1) false [] [] s
        = (Return (master, tasks), s1, evs1) ->
      In st master ->
      fetch_data net (Station.sensors_url st 0) default_max_retries
        = (Raised e, evs) ->
      exists e' evs',
        get_stations net sched (S fuel) echo s = (Raised e', s1, evs')).
Proof.
  split.
  - apply get_installations_first_fetch_fails.
  - intros sched fuel echo s master tasks s1 evs1 st e evs Hloop Hin Hfail.
    destruct (get_stations_loop_returns net _ _ _ _ _ _ _ _ _ _ _ _ Hloop)
      as (sts & Hmaster & Htasks & _).
    cbn [app] in Hmaster, Htasks. rewrite <- Hmaster in Htasks.
    apply list_elem_of_In, list_elem_of_lookup in Hin. destruct Hin as [i Hi].
    apply (get_stations_task_raises net sched (S fuel) echo s master tasks s1
             evs1 i failed_to_fetch evs Hloop).
    rewrite Htasks, list_lookup_fmap, Hi. cbn.
    unfold installations_task, asyncio.create_task.
    now rewrite (get_installations_first_fetch_fails net fuel st e evs Hfail).
Qed.

Lemma installation_fetch_failure_is_raised_witness :
  Station.get_installations second_station_down 3 (mock_station 2 1)
  = (Raised failed_to_fetch,
     [EvRequest (Station.sensors_url (mock_station 2 1) 0);
      EvPrint (LogHTTPError (ClientResponseError 500))]) /\
  exists evs,
    get_stations second_station_down [] 3 true []
    = (Raised failed_to_fetch, [[]; []], evs).
Proof.
  destruct (installation_fetch_failure_is_raised second_station_down)
    as [Hi Hs]. split.
  - apply (Hi 2%nat (mock_station 2 1) failed_to_fetch). reflexivity.
  - destruct (Hs [] 2%nat true []
                [mock_station 1 0; mock_station 2 1]
                [installations_task second_station_down 3 (mock_station 1 0);
                 installations_task second_station_down 3 (mock_station 2 1)]
                [[]; []]
                [EvRequest (stations_url 0);
                 EvPrint (LogCompletedPage 1 (VInt 2));
                 EvRequest (stations_url 1);
                 EvPrint (LogKeyError broken_station_record);
                 EvPrint (LogCompletedPage 2 (VInt 2))]
                (mock_station 2 1) failed_to_fetch
                [EvRequest (Station.sensors_url (mock_station 2 1) 0);
                 EvPrint (LogHTTPError (ClientResponseError 500))])
      as (e' & evs' & Hrun).
    + reflexivity.
    + simpl. auto.
    + reflexivity.
    + eexists. reflexivity.
Defined.

(* ================================================================= *)
(** ** Merging the installations into the stations *)

Section Merge.
Variable fuel : nat.
Variable installs : Station.t -> list Installation.t.

Lemma forallb_installations (xs : list Installation.t) :
  forallb isinstance_Installation (map PInstallation xs) = true.
Proof. induction xs; simpl; auto. Qed.

Lemma merge_one_run (s : store) st :
  (Station.installations st < length s)%nat ->
  (length (installs st) < fuel)%nat ->
  merge_one fuel installs st s = (Return tt, merged_one installs s st, []).
Proof.
  intros Hl Hfuel.
  apply (add_installations_accepts st s
           (AList (Fresh (map PInstallation (installs st)))) fuel Hl).
  - apply forallb_installations.
  - left. exact I.
  - simpl. now rewrite length_map.
Qed.

Lemma for_each_merge sts :
  forall s : store,
    (forall st, In st sts ->
                (Station.installations st < length s)%nat /\
                (length (installs st) < fuel)%nat) ->
    for_each sts (merge_one fuel installs) s = (Return tt, fold_left (merged_one installs) sts s, []).
Proof.
  induction sts as [|st sts IH]; intros s H; [reflexivity|].
  cbn [for_each fold_left].
  erewrite bind_return
    by (apply merge_one_run; apply H; now left).
  rewrite IH; [reflexivity|].
  intros st' Hin. unfold merged_one. rewrite length_insert.
  apply H. now right.
Qed.

Lemma merged_other (s : store) sts l :
  ~ In l (map Station.installations sts) ->
  read (fold_left (merged_one installs) sts s) l = read s l.
Proof.
  revert s; induction sts as [|st sts IH]; intros s Hnin; [reflexivity|].
  cbn [fold_left]. rewrite IH by (intros Hin; apply Hnin; now right).
  apply read_insert_ne. intros Heq. apply Hnin. now left.
Qed.

(** Stations with lists of their own: after the merge each list has got
    the result of its own station, and nothing else. *)
Lemma merged_read sts :
  NoDup (map Station.installations sts) ->
  forall (s : store) st,
    In st sts ->
    (Station.installations st < length s)%nat ->
    read (fold_left (merged_one installs) sts s) (Station.installations st)
    = read s (Station.installations st) ++ map PInstallation (installs st).
Proof.
  induction sts as [|st0 sts IH]; intros Hnd s st Hin Hl; [destruct Hin|].
  cbn [map] in Hnd. apply NoDup_cons in Hnd. destruct Hnd as [Hnin Hnd].
  cbn [fold_left].
  assert (Hnin' : ~ In (Station.installations st0)
                       (map Station.installations sts))
    by (intros H; apply Hnin, list_elem_of_In, H).
  destruct Hin as [->|Hin].
  - rewrite merged_other by assumption.
    now apply read_insert_eq.
  - rewrite IH; [|assumption|assumption|
                 unfold merged_one; now rewrite length_insert].
    unfold merged_one at 1. rewrite read_insert_ne; [reflexivity|].
    intros Heq. apply Hnin'. rewrite Heq. now apply in_map.
Qed.

End Merge.

Lemma for_each_combine {A B} (xs : list A) (f : A -> B)
      (body : A -> B -> proc unit) (s : store) :
  for_each (combine xs (map f xs)) (fun '(x, y) => body x y) s
  = for_each xs (fun x => body x (f x)) s.
Proof.
  revert s; induction xs as [|x xs IH]; intros s; [reflexivity|].
  cbn [map combine for_each]. unfold Proc.bind.
  destruct (body x (f x) s) as [[[[]|e|] s'] t]; [|reflexivity..].
  now rewrite IH.
Qed.

Lemma output_stations_run sts (s : store) :
  exists evs, output_stations sts s = (Return tt, s, evs).
Proof.
  unfold output_stations.
  induction sts as [|st sts [evs IH]]; [now exists []|].
  cbn [for_each].
  erewrite bind_return by reflexivity.
  rewrite IH. eexists. reflexivity.
Qed.

(** C4. Whatever stations the loop of [get_stations] has fetched, and
    whatever the order [sched] in which the event loop finishes their
    installation tasks: when the fetch for each station returns, say
    [installs st] for the station [st], then [get_stations] returns the
    fetched stations, the list of every station holds exactly the result
    of that station's own task, and the store is the one that a single call
    of [add_installations] per station, with that result, leaves. *)
Theorem station_installation_correlation
    (net : network) (sched : list nat) (fuel : nat) (echo : bool) (s : store)
    (master : list Station.t) (tasks : list installation_task)
    (s1 : store) (evs1 : list event)
    (installs : Station.t -> list Installation.t) :
  get_stations_loop net fuel fuel 0 (VInt 1) false [] [] s
    = (Return (master, tasks), s1, evs1) ->
  (forall st, In st master ->
     returns (Station.get_installations net fuel st) (installs st) /\
     (length (installs st) < fuel)%nat) ->
  exists s2 evs2,
    get_stations net sched fuel echo s = (Return master, s2, evs2) /\
    (forall st, In st master ->
       read s2 (Station.installations st)
       = map PInstallation (installs st)) /\
    for_each master (merge_one fuel installs) s1 = (Return tt, s2, []).
Proof.
  intros Hloop Hinstalls.
  destruct (get_stations_loop_returns net _ _ _ _ _ _ _ _ _ _ _ _ Hloop)
    as (sts & Hmaster & Htasks & Hs1).
  cbn [app] in Hmaster, Htasks. rewrite <- Hmaster in Htasks.
  assert (Hlocs : map Station.installations master
                  = seq (length s) (length sts))
    by (rewrite Hmaster; apply place_installations).
  assert (Hvalid : forall st, In st master ->
                     (length s <= Station.installations st < length s1)%nat).
  { intros st Hin. apply (in_map Station.installations) in Hin.
    rewrite Hlocs in Hin. apply in_seq in Hin.
    rewrite Hs1, length_app, repeat_length. lia. }
  assert (Hmerge : for_each master (merge_one fuel installs) s1
                   = (Return tt,
                      fold_left (merged_one installs) master s1, [])).
  { apply for_each_merge. intros st Hin. split.
    - apply (Hvalid st Hin).
    - apply (Hinstalls st Hin). }
  destruct (gather_returns sched
              (map (Station.get_installations net fuel) master)
              (map installs master)) as [evs_g Hg].
  { apply Forall2_fmap, Forall_Forall2_diag, List.Forall_forall.
    intros st Hin. apply (Hinstalls st Hin). }
  rewrite map_map in Hg.
  change (map (fun x => asyncio.Pending (Station.get_installations net fuel x))
              master)
    with (map (installations_task net fuel) master) in Hg.
  rewrite <- Htasks in Hg.
  assert (Hecho : exists evs_o,
             (if echo then output_stations master else Proc.ret tt)
               (fold_left (merged_one installs) master s1)
             = (Return tt, fold_left (merged_one installs) master s1, evs_o)).
  { destruct echo; [apply output_stations_run|now exists []]. }
  destruct Hecho as [evs_o Ho].
  exists (fold_left (merged_one installs) master s1).
  eexists. split; [|split].
  - unfold get_stations.
    erewrite bind_return by reflexivity.
    erewrite bind_return by exact Hloop.
    cbn [fst snd].
    erewrite bind_return by (unfold Proc.lift, asyncio.gather_concurrent; rewrite Hg; reflexivity).
    cbn [fst snd].
    erewrite bind_return
      by (unfold Proc.lift, asyncio.gather_concurrent;
         rewrite gather_returned; reflexivity).
    cbn [fst snd].
    erewrite bind_return.
    2: { rewrite (for_each_combine master installs
                    (fun station xs =>
                       Station.add_installations fuel station
                         (AList (Fresh (map PInstallation xs))))).
         exact Hmerge. }
    erewrite bind_return by reflexivity.
    erewrite bind_return by exact Ho.
    reflexivity.
  - intros st Hin.
    rewrite merged_read.
    + rewrite Hs1, read_new_lists by apply (Hvalid st Hin). reflexivity.
    + rewrite Hlocs. apply NoDup_seq.
    + assumption.
    + apply (Hvalid st Hin).
  - exact Hmerge.
Qed.

(** The task of the second station finishes first. *)
Lemma station_installation_correlation_witness :
  exists evs,
    get_stations mock_api [1%nat; 0%nat] 3 false []
    = (Return [mock_station 1 0; mock_station 2 1],
       [[PInstallation (sample_installation 10);
         PInstallation (sample_installation 11)];
        [PInstallation (sample_installation 20)]],
       evs).
Proof.
  destruct (station_installation_correlation mock_api [1%nat; 0%nat] 3 false []
              [mock_station 1 0; mock_station 2 1]
              [installations_task mock_api 3 (mock_station 1 0);
               installations_task mock_api 3 (mock_station 2 1)]
              [[]; []]
              [EvRequest (stations_url 0);
               EvPrint (LogCompletedPage 1 (VInt 2));
               EvRequest (stations_url 1);
               EvPrint (LogKeyError broken_station_record);
               EvPrint (LogCompletedPage 2 (VInt 2))]
              mock_installs)
    as (s2 & evs2 & Hrun & Hread & Hmerge).
  - reflexivity.
  - intros st [<-|[<-|[]]]; split; try reflexivity; simpl; lia.
  - exists evs2. rewrite Hrun.
    cbv in Hmerge. injection Hmerge as <-. reflexivity.
Defined.

(* ================================================================= *)
(** * Further properties of the code *)

(* ================================================================= *)
(** ** [fetch_data]: every failure, bounds *)

Section FetchDataBounds.
Variable net : network.

Lemma handlers_break e :
  handlers e = (Return Break, [EvPrint (handler_line e)]).
Proof. destruct e; reflexivity. Qed.

(** The requests and the waits of the loop from the turn with
    [retry_count = r] on. *)
Lemma fetch_loop_bounds u max_retries :
  forall fuel r w,
    (Z.to_nat max_retries - r < fuel)%nat ->
    exists j j',
      (j' <= j <= Z.to_nat max_retries - r)%nat /\
      requests (snd (fetch_loop net fuel u max_retries r w)) = repeat u j /\
      sleeps (snd (fetch_loop net fuel u max_retries r w)) = backoff w j'.
Proof.
  induction fuel as [|fuel IH]; intros r w Hfuel; [lia|].
  cbn [fetch_loop].
  destruct (Z.ltb_spec (Z.of_nat r) max_retries) as [Hlt|Hge].
  2: { exists 0%nat, 0%nat. repeat split; lia. }
  assert (Hone : (1 <= Z.to_nat max_retries - r)%nat) by lia.
  destruct (net u r) as [status json|e]; cbn [attempt].
  - destruct (status =? 429).
    + destruct (IH (S r) (w * 2) ltac:(lia)) as (j & j' & Hj & Hreq & Hsl).
      exists (S j), (S j'). split; [lia|].
      cbn -[fetch_loop Z.mul] in *.
      destruct (fetch_loop net fuel u max_retries (S r) (w * 2)) as [o t].
      cbn [snd] in *. cbn [requests sleeps flat_map app] in *.
      fold (requests t). fold (sleeps t). rewrite Hreq, Hsl. now split.
    + destruct (400 <=? status).
      * exists 1%nat, 0%nat. split; [lia|]. cbn. now split.
      * destruct json as [e|v].
        -- exists 1%nat, 0%nat. split; [lia|].
           cbn [IO.bind IO.emit IO.raise IO.try_except app].
           rewrite handlers_break. cbn. now split.
        -- exists 1%nat, 0%nat. split; [lia|]. cbn. now split.
  - exists 1%nat, 0%nat. split; [lia|].
    cbn [IO.bind IO.emit IO.raise IO.try_except app].
    rewrite handlers_break. cbn. now split.
Qed.

End FetchDataBounds.

(** X1. Whatever the server does, [fetch_data] ends, and it ends in one of
    two ways: it returns a decoded body, or it raises the one exception of
    its last line; a refused connection, an error status and a body that
    is no JSON all end up as that exception. *)
Theorem fetch_data_returns_or_fails
    (net : network) (u : url) (max_retries : Z) :
  (exists v evs, fetch_data net u max_retries = (Return v, evs)) \/
  (exists evs, fetch_data net u max_retries = (Raised failed_to_fetch, evs)).
Proof.
  destruct (fetch_data_outcome net u max_retries) as [[v Hv]|Hr];
    destruct (fetch_data net u max_retries) as [o evs]; simpl in *; subst;
    eauto.
Qed.

(** X2. One call makes at most [max_retries] requests (none when
    [max_retries <= 0]), all to the URL it was given, and the waits
    between them are 1, 2, 4, ...: their sum stays below
    [2 ^ max_retries]. *)
Theorem fetch_data_bounded (net : network) (u : url) (max_retries : Z) :
  exists j j',
    (j' <= j <= Z.to_nat max_retries)%nat /\
    requests (snd (fetch_data net u max_retries)) = repeat u j /\
    sleeps (snd (fetch_data net u max_retries))
      = map (fun i => 2 ^ Z.of_nat i) (seq 0 j') /\
    total_wait (snd (fetch_data net u max_retries)) = 2 ^ Z.of_nat j' - 1 /\
    total_wait (snd (fetch_data net u max_retries))
      <= 2 ^ Z.of_nat (Z.to_nat max_retries) - 1.
Proof.
  destruct (fetch_loop_bounds net u max_retries
              (S (Z.to_nat max_retries)) 0%nat 1 ltac:(lia))
    as (j & j' & Hj & Hreq & Hsl).
  exists j, j'. unfold fetch_data, total_wait.
  rewrite Hreq, Hsl, backoff_sum, backoff_powers.
  repeat split; try lia.
  assert (2 ^ Z.of_nat j' <= 2 ^ Z.of_nat (Z.to_nat max_retries))
    by (apply Z.pow_le_mono_r; lia).
  lia.
Qed.

(** X3. A request that fails, or a body that cannot be decoded, is not
    retried either: after [k] answers 429 such an answer is the last one,
    the handler prints its line and the call raises without another
    wait. *)
Theorem fetch_data_failure_no_retry
    (net : network) (u : url) (max_retries : Z) (k : nat) (e : exn) :
  (forall i, (i < k)%nat -> is_429 (net u i)) ->
  fails_with (net u k) e ->
  Z.of_nat k < max_retries ->
  fetch_data net u max_retries
  = (Raised failed_to_fetch,
     turns_429 u 1 k ++ [EvRequest u; EvPrint (handler_line e)]) /\
  requests (turns_429 u 1 k ++ [EvRequest u; EvPrint (handler_line e)])
  = repeat u (S k) /\
  sleeps (turns_429 u 1 k ++ [EvRequest u; EvPrint (handler_line e)])
  = map (fun i => 2 ^ Z.of_nat i) (seq 0 k).
Proof.
  intros H429 Hfail Hk. split; [|split].
  - unfold fetch_data.
    replace (S (Z.to_nat max_retries))
      with (k + S (Z.to_nat max_retries - k))%nat by lia.
    rewrite (fetch_loop_429 net u max_retries k _ 0%nat 1).
    + cbn [fetch_loop Nat.add].
      destruct (Z.ltb_spec (Z.of_nat k) max_retries) as [_|?]; [|lia].
      destruct Hfail as [->|(status & -> & Hlt & Hne)]; cbn [attempt].
      * cbn [IO.bind IO.emit IO.raise IO.try_except app].
        rewrite handlers_break. reflexivity.
      * destruct (Z.eqb_spec status 429) as [?|_]; [contradiction|].
        destruct (Z.leb_spec 400 status) as [?|_]; [lia|].
        cbn [IO.bind IO.emit IO.raise IO.try_except app].
        rewrite handlers_break. reflexivity.
    + intros i Hi. apply H429. lia.
    + simpl. lia.
  - rewrite requests_app, requests_turns_429.
    replace (S k) with (k + 1)%nat by lia. now rewrite repeat_app.
  - rewrite sleeps_app, sleeps_turns_429. simpl. rewrite app_nil_r.
    apply backoff_powers.
Qed.

Lemma fetch_data_failure_no_retry_witness :
  fetch_data unreachable (stations_url 0) 5
  = (Raised failed_to_fetch,
     [EvRequest (stations_url 0);
      EvPrint (LogError (ClientError "Cannot connect to host"))]).
Proof.
  destruct (fetch_data_failure_no_retry unreachable (stations_url 0) 5 0
              (ClientError "Cannot connect to host")) as (Hrun & _).
  - intros i Hi. lia.
  - now left.
  - lia.
  - exact Hrun.
Defined.

(** X4. With [max_retries <= 0] the loop is not entered: no request is
    made, and the call raises. *)
Theorem fetch_data_no_attempt (net : network) (u : url) (max_retries : Z) :
  max_retries <= 0 ->
  fetch_data net u max_retries = (Raised failed_to_fetch, []).
Proof.
  intros Hle. unfold fetch_data.
  replace (Z.to_nat max_retries) with 0%nat by lia. cbn [fetch_loop].
  destruct (Z.ltb_spec (Z.of_nat 0) max_retries) as [?|_]; [lia|].
  reflexivity.
Qed.

Lemma fetch_data_no_attempt_witness :
  fetch_data mock_api (stations_url 0) 0 = (Raised failed_to_fetch, []).
Proof. apply fetch_data_no_attempt. lia. Defined.


(* ================================================================= *)
(** ** [Station.get_installations]: failures after the first page, the
    reported number of pages *)

(** X5. A fetch that fails on a later page of a station's installations is
    not caught either: when the pages before page [p] are served and the
    fetch of page [p] raises, [get_installations] raises and the
    installations of the pages before are not returned; the failed request
    is the last one the call makes. *)
Theorem get_installations_page_failure_is_raised
    (net : network) (self : Station.t) (fuel : nat)
    (total : Z) (p : nat) (fields : nat -> list (string * value))
    (records : nat -> list value) (fevs : nat -> list event)
    (e : exn) (evs_p : list event) :
  serves net (Station.sensors_url self) installations_key total p
         fields records fevs ->
  (forall i, (0 < i <= p)%nat -> Z.of_nat i < total) ->
  fetch_data net (Station.sensors_url self (Z.of_nat p)) default_max_retries
    = (Raised e, evs_p) ->
  (p < fuel)%nat ->
  fst (Station.get_installations net fuel self) = Raised failed_to_fetch /\
  requests (snd (Station.get_installations net fuel self))
  = requests (over_pages 0 p fevs ++ evs_p).
Proof.
  intros Hserves Hlt Hfail Hfuel.
  pose proof (fetch_data_raises _ _ _ _ _ Hfail) as ->.
  enough (Station.get_installations net fuel self
          = (Raised failed_to_fetch,
             over_pages 0 p (turn_events fields fevs) ++
             asyncio.while_waiting (ready_at fields p) evs_p)) as ->.
  { split; [reflexivity|]. cbn [snd].
    rewrite !requests_app, !requests_over_pages_map.
    rewrite requests_while_waiting by apply requests_ready_at.
    f_equal. apply over_pages_ext. intros i _.
    apply requests_turn_events. }
  unfold Station.get_installations.
  replace fuel with (p + S (fuel - S p))%nat by lia.
  pose proof (get_installations_loop_prefix net self total p fields fevs
                (serves_delivers _ _ _ _ _ _ _ _ Hserves)
                p 0%nat (S (fuel - S p))
                ltac:(lia) ltac:(intros i Hi; apply Hlt; lia)) as Hrun.
  cbn [loop_state fst snd Nat.add tasks_at] in Hrun.
  change (Z.of_nat 0) with 0 in Hrun.
  rewrite Hrun. clear Hrun.
  rewrite get_installations_loop_turn.
  rewrite (loop_goes_on total p Hlt). cbv zeta.
  rewrite Hfail, run_ready_tasks_at. reflexivity.
Qed.

Lemma get_installations_page_failure_is_raised_witness :
  fst (Station.get_installations second_sensors_page_down 3
         (mock_station 1 0))
  = Raised failed_to_fetch /\
  requests (snd (Station.get_installations second_sensors_page_down 3
                   (mock_station 1 0)))
  = [Station.sensors_url (mock_station 1 0) 0;
     Station.sensors_url (mock_station 1 0) 1].
Proof.
  apply (get_installations_page_failure_is_raised second_sensors_page_down
           (mock_station 1 0) 3 2 1
           (fun _ => installations_page 2 [sample_installation_record 10])
           (fun _ => [sample_installation_record 10])
           (fun i => [EvRequest (Station.sensors_url (mock_station 1 0)
                                                     (Z.of_nat i))])
           failed_to_fetch
           [EvRequest (Station.sensors_url (mock_station 1 0) 1);
            EvPrint (LogHTTPError (ClientResponseError 500))]).
  - intros i Hi. destruct i as [|i]; [|lia].
    split; [reflexivity|split; [reflexivity|split;
      [repeat constructor|reflexivity]]].
  - intros i Hi. lia.
  - reflexivity.
  - lia.
Defined.

(** X6. A first page without the key [totalPages]: [get_installations]
    raises [KeyError] after that one fetch, and so does [get_stations],
    before any station is parsed; the lookup is outside every [try]. *)
Theorem missing_total_pages_is_raised
    (net : network) (fields : list (string * value)) (fevs : list event) :
  assoc "totalPages" fields = None ->
  (forall self fuel,
      fetch_data net (Station.sensors_url self 0) default_max_retries
        = (Return (VDict fields), fevs) ->
      Station.get_installations net (S fuel) self
      = (Raised (KeyError "totalPages"), fevs)) /\
  (forall sched fuel echo (s : store),
      fetch_data net (stations_url 0) default_max_retries
        = (Return (VDict fields), fevs) ->
      get_stations net sched (S fuel) echo s
      = (Raised (KeyError "totalPages"), s, EvPrint LogStarting :: fevs)).
Proof.
  intros Hnone. split.
  - intros self fuel Hfetch. unfold Station.get_installations.
    rewrite get_installations_loop_turn. cbn [int_lt IO.ret fst].
    change (0 <? 1) with true. cbv iota zeta.
    rewrite Hfetch, run_ready_nil.
    unfold read_total. rewrite getitem_dict, Hnone.
    cbn [IO.raise fst snd]. now rewrite while_waiting_nil.
  - intros sched fuel echo s Hfetch. apply get_stations_raises.
    rewrite get_stations_loop_turn. cbn [int_lt IO.ret fst].
    change (0 <? 1) with true. cbv iota. rewrite Hfetch.
    unfold read_total. rewrite getitem_dict, Hnone. reflexivity.
Qed.

Lemma missing_total_pages_is_raised_witness :
  Station.get_installations (answers (VDict page_without_total)) 1
    (mock_station 1 0)
  = (Raised (KeyError "totalPages"),
     [EvRequest (Station.sensors_url (mock_station 1 0) 0)]) /\
  get_stations (answers (VDict page_without_total)) [] 1 false []
  = (Raised (KeyError "totalPages"), [],
     [EvPrint LogStarting; EvRequest (stations_url 0)]).
Proof.
  split.
  - apply (proj1 (missing_total_pages_is_raised
                    (answers (VDict page_without_total)) page_without_total
                    [EvRequest (Station.sensors_url (mock_station 1 0) 0)]
                    eq_refl)).
    reflexivity.
  - apply (proj2 (missing_total_pages_is_raised
                    (answers (VDict page_without_total)) page_without_total
                    [EvRequest (stations_url 0)] eq_refl)).
    reflexivity.
Defined.

(** X7. A first page whose [totalPages] is no number (a string, [None], a
    list, a dictionary): the first page is taken, and the comparison at the
    head of the next turn raises [TypeError]; [get_installations] returns
    nothing of the page it has fetched. *)
Theorem total_pages_not_a_number_is_raised
    (net : network) (self : Station.t) (fuel : nat)
    (fields : list (string * value)) (v : value) (fevs : list event) :
  fetch_data net (Station.sensors_url self 0) default_max_retries
    = (Return (VDict fields), fevs) ->
  assoc "totalPages" fields = Some v ->
  not_a_number v ->
  exists msg,
    fst (Station.get_installations net (S (S fuel)) self)
    = Raised (TypeError msg) /\
    requests (snd (Station.get_installations net (S (S fuel)) self))
    = requests fevs.
Proof.
  intros Hfetch Htp Hnan. eexists. unfold Station.get_installations.
  rewrite get_installations_loop_turn. cbn [int_lt IO.ret fst].
  change (0 <? 1) with true. cbv iota zeta.
  rewrite Hfetch, run_ready_nil.
  unfold read_total. rewrite getitem_dict, Htp. cbn [IO.ret fst snd].
  rewrite while_waiting_nil.
  rewrite get_installations_loop_turn.
  destruct v; try contradiction; cbn; now rewrite app_nil_r.
Qed.

Lemma total_pages_not_a_number_is_raised_witness :
  exists msg,
    fst (Station.get_installations
           (answers (VDict (page_with_total (VStr "2")))) 2
           (mock_station 1 0))
    = Raised (TypeError msg) /\
    requests (snd (Station.get_installations
                     (answers (VDict (page_with_total (VStr "2")))) 2
                     (mock_station 1 0)))
    = [Station.sensors_url (mock_station 1 0) 0].
Proof.
  apply (total_pages_not_a_number_is_raised
           (answers (VDict (page_with_total (VStr "2")))) (mock_station 1 0)
           0 (page_with_total (VStr "2")) (VStr "2")
           [EvRequest (Station.sensors_url (mock_station 1 0) 0)]);
    [reflexivity|reflexivity|exact I].
Defined.

(** X8. Page 0 is fetched and parsed whatever it reports: when the number
    it reports is not above 1 (0, a negative number, [False], [True], not
    a number as a float), the loop ends after this page and
    [get_installations] returns the entities of page 0. *)
Theorem get_installations_single_page
    (net : network) (self : Station.t) (fuel : nat)
    (fields : list (string * value)) (v : value) (records : list value)
    (fevs : list event) :
  fetch_data net (Station.sensors_url self 0) default_max_retries
    = (Return (VDict fields), fevs) ->
  assoc "totalPages" fields = Some v ->
  fst (int_lt 1 v) = Return false ->
  assoc installations_key fields = Some (VList records) ->
  Forall is_dict records ->
  Station.get_installations net (S (S fuel)) self
  = (Return (page_installations records),
     fevs ++ key_errors (List.filter (malformed installation_keys) records)).
Proof.
  intros Hfetch Htp Hstop Hlist Hdicts. unfold Station.get_installations.
  rewrite get_installations_loop_turn. cbn [int_lt IO.ret fst].
  change (0 <? 1) with true. cbv iota zeta.
  rewrite Hfetch, run_ready_nil.
  unfold read_total. rewrite getitem_dict, Htp. cbn [IO.ret fst snd].
  rewrite while_waiting_nil.
  rewrite get_installations_loop_turn. change (0 + 1) with 1.
  rewrite Hstop. cbn [app].
  change [parse_task (VDict fields)]
    with (map asyncio.Pending [create_installations (VDict fields)]).
  rewrite (gather_fifo _ [page_installations records]).
  - cbn [snd concat map app].
    rewrite (create_installations_page _ _ Hlist Hdicts).
    cbn [snd]. now rewrite !app_nil_r.
  - constructor; [|constructor]. unfold returns.
    now rewrite (create_installations_page _ _ Hlist Hdicts).
Qed.

Lemma get_installations_single_page_witness :
  Station.get_installations (answers (VDict (page_with_total (VInt 0)))) 2
    (mock_station 1 0)
  = (Return [sample_installation 10],
     [EvRequest (Station.sensors_url (mock_station 1 0) 0)]).
Proof.
  apply (get_installations_single_page
           (answers (VDict (page_with_total (VInt 0)))) (mock_station 1 0)
           0 (page_with_total (VInt 0)) (VInt 0)
           [sample_installation_record 10]
           [EvRequest (Station.sensors_url (mock_station 1 0) 0)]);
    [reflexivity|reflexivity|reflexivity|reflexivity|repeat constructor].
Defined.

(** X9. The loop trusts the number it is given: a first page that reports
    infinitely many pages (Python decodes the JSON token [Infinity]) makes
    [get_installations] fetch page after page for as long as pages are
    served; it never returns. *)
Theorem get_installations_infinite_pages
    (net : network) (self : Station.t)
    (fields : nat -> list (string * value)) (fevs : nat -> list event) :
  (forall i,
      fetch_data net (Station.sensors_url self (Z.of_nat i))
                 default_max_retries
      = (Return (VDict (fields i)), fevs i)) ->
  assoc "totalPages" (fields 0%nat)
    = Some (VFloat (S754_infinity false)) ->
  forall fuel,
    fst (Station.get_installations net fuel self) = Diverged.
Proof.
  intros Hserves Htp.
  assert (Hloop : forall fuel c tasks,
             fst (Station.get_installations_loop net fuel self (Z.of_nat c)
                    (VFloat (S754_infinity false)) true tasks) = Diverged).
  { induction fuel as [|fuel IH]; intros c tasks; [reflexivity|].
    rewrite get_installations_loop_turn. cbn [int_lt int_lt_float negb
                                              IO.ret fst read_total].
    cbv zeta. rewrite Hserves.
    replace (Z.of_nat c + 1) with (Z.of_nat (S c)) by lia.
    specialize (IH (S c) (fst (asyncio.run_ready tasks) ++
                          [parse_task (VDict (fields c))])).
    now destruct (Station.get_installations_loop net fuel self _ _ _ _). }
  intros [|fuel]; [reflexivity|].
  unfold Station.get_installations.
  rewrite get_installations_loop_turn. cbn [int_lt IO.ret fst].
  change (0 <? 1) with true. cbv iota zeta.
  pose proof (Hserves 0%nat) as Hfirst.
  change (Z.of_nat 0) with 0 in Hfirst. rewrite Hfirst, run_ready_nil.
  unfold read_total. rewrite getitem_dict, Htp. cbn [IO.ret fst snd].
  specialize (Hloop fuel 1%nat ([] ++ [parse_task (VDict (fields 0%nat))])).
  change (Z.of_nat 1) with (0 + 1) in Hloop.
  now destruct (Station.get_installations_loop net fuel self _ _ _ _).
Qed.

Lemma get_installations_infinite_pages_witness :
  fst (Station.get_installations
         (answers (VDict (page_with_total (VFloat (S754_infinity false)))))
         50 (mock_station 1 0))
  = Diverged.
Proof.
  apply (get_installations_infinite_pages
           (answers (VDict (page_with_total (VFloat (S754_infinity false)))))
           (mock_station 1 0)
           (fun _ => page_with_total (VFloat (S754_infinity false)))
           (fun i => [EvRequest (Station.sensors_url (mock_station 1 0)
                                                     (Z.of_nat i))]));
    [intros i; reflexivity|reflexivity].
Defined.

(* ================================================================= *)
(** ** The parsers: records that are no dictionaries, missing lists *)

Section RecordsThatAreNoDictionaries.

Lemma getitem_non_dict data key :
  isinstance_dict data = false ->
  exists msg, getitem data key = (Raised (TypeError msg), []).
Proof. destruct data; try discriminate; intros _; eexists; reflexivity. Qed.

Lemma make_installation_non_dict data :
  isinstance_dict data = false ->
  exists msg, make_installation data = (Raised (TypeError msg), []).
Proof.
  intros H. unfold make_installation.
  destruct (getitem_non_dict data "Identyfikator stanowiska" H) as [msg ->].
  now exists msg.
Qed.

Lemma make_station_non_dict data :
  isinstance_dict data = false ->
  exists msg, forall s : store,
    make_station data s = (Raised (TypeError msg), s, []).
Proof.
  intros H.
  destruct (getitem_non_dict data "Identyfikator stacji" H) as [msg Hmsg].
  exists msg. intros s. unfold make_station, Proc.bind, Proc.lift.
  now rewrite Hmsg.
Qed.

Lemma installations_of_records_non_dict before bad after :
  Forall is_dict before ->
  isinstance_dict bad = false ->
  exists msg, forall acc,
    installations_of_records (before ++ bad :: after) acc =
    (Raised (TypeError msg),
     key_errors (List.filter (malformed installation_keys) before)).
Proof.
  intros Hdicts Hbad.
  destruct (make_installation_non_dict bad Hbad) as [msg Hmsg].
  exists msg.
  induction Hdicts as [|data rest Hdict _ IH]; intros acc.
  - cbn [app installations_of_records List.filter key_errors map].
    rewrite Hmsg. reflexivity.
  - cbn [app installations_of_records List.filter]. unfold malformed at 1.
    destruct (well_formed installation_keys data) eqn:Hwf.
    + rewrite (make_installation_well_formed data Hdict Hwf).
      cbn [IO.bind IO.try_except IO.ret app negb].
      now rewrite IH.
    + destruct (make_installation_malformed data Hdict Hwf) as [key ->].
      cbn [IO.bind IO.try_except IO.ret IO.print IO.emit IO.raise
           isinstance app negb].
      now rewrite IH.
Qed.

Lemma stations_of_records_non_dict before bad after :
  Forall is_dict before ->
  isinstance_dict bad = false ->
  exists msg, forall acc (s : store),
    stations_of_records (before ++ bad :: after) acc s =
    (Raised (TypeError msg),
     s ++ repeat [] (length (page_stations before)),
     key_errors (List.filter (malformed station_keys) before)).
Proof.
  intros Hdicts Hbad.
  destruct (make_station_non_dict bad Hbad) as [msg Hmsg].
  exists msg. unfold page_stations.
  induction Hdicts as [|data rest Hdict _ IH]; intros acc s.
  - cbn [app]. rewrite stations_of_records_cons, Hmsg.
    cbn. now rewrite app_nil_r.
  - cbn [app]. rewrite stations_of_records_cons.
    cbn [List.filter]. unfold malformed at 1.
    destruct (well_formed station_keys data) eqn:Hwf.
    + rewrite (make_station_well_formed data Hdict Hwf s), IH.
      cbn [map length repeat negb app].
      now rewrite <- app_assoc.
    + destruct (make_station_malformed data Hdict Hwf) as [key ->].
      cbn [isinstance negb]. now rewrite IH.
Qed.

End RecordsThatAreNoDictionaries.

(** X10. Only [KeyError] is caught in the loop of [create_installations]:
    a record that is no dictionary (a number, a string, [None], a list)
    raises [TypeError] at its first lookup, the parse of the page ends
    there, and the installations of the records before it are lost. *)
Theorem create_installations_non_dict_record
    (fields : list (string * value)) (before after : list value)
    (bad : value) :
  assoc installations_key fields = Some (VList (before ++ bad :: after)) ->
  Forall is_dict before ->
  isinstance_dict bad = false ->
  exists msg,
    create_installations (VDict fields) =
    (Raised (TypeError msg),
     key_errors (List.filter (malformed installation_keys) before)).
Proof.
  intros Hlist Hdicts Hbad.
  destruct (installations_of_records_non_dict before bad after Hdicts Hbad)
    as [msg Hmsg].
  exists msg. unfold create_installations.
  cbn [isinstance_dict negb]. rewrite getitem_dict.
  unfold installations_key in Hlist. rewrite Hlist.
  cbn [IO.bind IO.ret iterate app]. now rewrite Hmsg.
Qed.

(** The third record is [None]: the installation of the second is lost. *)
Lemma create_installations_non_dict_record_witness :
  exists msg,
    create_installations
      (VDict (installations_page 1
                [broken_installation_record; sample_installation_record 10;
                 VNone; sample_installation_record 11]))
    = (Raised (TypeError msg),
       [EvPrint (LogKeyError broken_installation_record)]).
Proof.
  apply (create_installations_non_dict_record
           (installations_page 1
              [broken_installation_record; sample_installation_record 10;
               VNone; sample_installation_record 11])
           [broken_installation_record; sample_installation_record 10]
           [sample_installation_record 11] VNone);
    [reflexivity|repeat constructor|reflexivity].
Defined.

(** X11. The same for [create_stations]: a record that is no dictionary
    ends the parse of the page with [TypeError]. The stations made from the
    records before it are not returned; all that is left of them in the
    store are their empty lists. *)
Theorem create_stations_non_dict_record
    (fields : list (string * value)) (before after : list value)
    (bad : value) (s : store) :
  assoc stations_key fields = Some (VList (before ++ bad :: after)) ->
  Forall is_dict before ->
  isinstance_dict bad = false ->
  exists msg,
    create_stations (VDict fields) s =
    (Raised (TypeError msg),
     s ++ repeat [] (length (page_stations before)),
     key_errors (List.filter (malformed station_keys) before)).
Proof.
  intros Hlist Hdicts Hbad.
  destruct (stations_of_records_non_dict before bad after Hdicts Hbad)
    as [msg Hmsg].
  exists msg. unfold create_stations.
  cbn [isinstance_dict negb]. unfold Proc.bind at 1, Proc.lift at 1.
  rewrite getitem_dict. unfold stations_key in Hlist. rewrite Hlist.
  cbn [IO.ret fst snd].
  unfold Proc.bind, Proc.lift. cbn [iterate IO.ret fst snd].
  now rewrite Hmsg.
Qed.

Lemma create_stations_non_dict_record_witness :
  exists msg,
    create_stations
      (VDict (stations_page 1
                [sample_station_record 1; VStr "station";
                 sample_station_record 2])) []
    = (Raised (TypeError msg), [[]], []).
Proof.
  apply (create_stations_non_dict_record
           (stations_page 1
              [sample_station_record 1; VStr "station";
               sample_station_record 2])
           [sample_station_record 1] [sample_station_record 2]
           (VStr "station") []);
    [reflexivity|repeat constructor|reflexivity].
Defined.

(** X12. The list of records is looked up outside the [try] of the loop:
    a dictionary without the key of the list makes either parser raise
    [KeyError] for that key, with nothing printed and no list made. *)
Theorem parsers_missing_list_is_raised (fields : list (string * value)) :
  (assoc installations_key fields = None ->
   create_installations (VDict fields)
   = (Raised (KeyError installations_key), [])) /\
  (assoc stations_key fields = None ->
   forall s : store,
     create_stations (VDict fields) s
     = (Raised (KeyError stations_key), s, [])).
Proof.
  split.
  - intros Hnone. unfold create_installations.
    cbn [isinstance_dict negb]. rewrite getitem_dict.
    unfold installations_key in Hnone. now rewrite Hnone.
  - intros Hnone s. unfold create_stations.
    cbn [isinstance_dict negb]. unfold Proc.bind at 1, Proc.lift at 1.
    rewrite getitem_dict. unfold stations_key in Hnone. rewrite Hnone.
    reflexivity.
Qed.

Lemma parsers_missing_list_is_raised_witness :
  create_installations (VDict [("totalPages", VInt 1)])
  = (Raised (KeyError installations_key), []) /\
  create_stations (VDict [("totalPages", VInt 1)]) []
  = (Raised (KeyError stations_key), [], []).
Proof.
  destruct (parsers_missing_list_is_raised [("totalPages", VInt 1)])
    as [Hi Hs].
  split; [apply Hi; reflexivity|apply Hs; reflexivity].
Defined.

(** X13. Whatever document [create_stations] is given and however it
    ends, the store only grows by empty lists; when it returns, these are
    exactly the lists of the returned stations, one each, in the order of
    the stations, so that no two stations share a list and none owns a
    list that existed before. *)
Theorem create_stations_fresh_lists
    (station_data : value) (s s' : store) (r : outcome (list Station.t))
    (evs : list event) :
  create_stations station_data s = (r, s', evs) ->
  r <> Diverged /\
  (exists n, s' = s ++ repeat [] n) /\
  (forall sts, r = Return sts ->
     s' = s ++ repeat [] (length sts) /\
     map Station.installations sts = seq (length s) (length sts) /\
     NoDup (map Station.installations sts) /\
     Forall (fun st => read s' (Station.installations st) = []) sts).
Proof.
  intros Hrun.
  destruct (create_stations_cases station_data)
    as [(sts0 & evs0 & H)|(e & n & evs0 & H)];
    rewrite H in Hrun; injection Hrun as <- <- <-.
  - split; [discriminate|]. split; [eauto|].
    intros sts [= <-]. rewrite place_length.
    pose proof (place_installations (length s) sts0) as Hlocs.
    repeat split; auto.
    + rewrite Hlocs. apply NoDup_seq.
    + apply List.Forall_forall. intros st Hin.
      apply read_new_lists.
      assert (Hl : In (Station.installations st)
                      (seq (length s) (length sts0))).
      { rewrite <- Hlocs. now apply in_map. }
      apply in_seq in Hl. lia.
  - split; [discriminate|]. split; [eauto|]. discriminate.
Qed.

(** Two stations and a broken record, parsed into a store that holds one
    list already. *)
Lemma create_stations_fresh_lists_witness :
  map Station.installations [mock_station 1 1; mock_station 2 2]
  = [1%nat; 2%nat] /\
  NoDup (map Station.installations [mock_station 1 1; mock_station 2 2]).
Proof.
  destruct (create_stations_fresh_lists
              (VDict (stations_page 1
                        [sample_station_record 1; broken_station_record;
                         sample_station_record 2]))
              [[PInstallation (sample_installation 0)]]
              [[PInstallation (sample_installation 0)]; []; []]
              (Return [mock_station 1 1; mock_station 2 2])
              [EvPrint (LogKeyError broken_station_record)] eq_refl)
    as (_ & _ & H).
  destruct (H _ eq_refl) as (_ & Hlocs & Hnd & _).
  split; [exact Hlocs|exact Hnd].
Defined.

(* ================================================================= *)
(** ** The methods of [Station] *)

Section StationMethods.

Lemma installation_count_reads (self : Station.t) (s : store) :
  Station.installation_count self s
  = (Return (length (read s (Station.installations self))), s, []).
Proof. reflexivity. Qed.

(** A loop over the station's own list with [fuel] turns appends [fuel]
    items to it and to no other list. *)
Lemma append_each_own_grows self :
  forall fuel index (s : store),
    (Station.installations self < length s)%nat ->
    (index < length (read s (Station.installations self)))%nat ->
    exists (s' : store) added,
      Station.append_each fuel self (Stored (Station.installations self))
                          index s
      = (Diverged, s', []) /\
      read s' (Station.installations self)
      = read s (Station.installations self) ++ added /\
      length added = fuel /\
      (forall l, l <> Station.installations self -> read s' l = read s l).
Proof.
  induction fuel as [|fuel IH]; intros index s Hl Hindex.
  - exists s, []. rewrite app_nil_r. repeat split.
  - cbn [Station.append_each]. unfold Proc.bind, Proc.get_store.
    cbn [items_of].
    destruct (lookup_lt_is_Some_2 _ _ Hindex) as [install ->].
    unfold Proc.append at 1.
    destruct (IH (S index)
                 (<[Station.installations self :=
                      read s (Station.installations self) ++ [install]]> s))
      as (s' & added & -> & Hread & Hlen & Hframe).
    + now rewrite length_insert.
    + rewrite read_insert_eq, length_app by assumption. simpl. lia.
    + exists s', (install :: added). repeat split.
      * rewrite Hread, read_insert_eq by assumption.
        now rewrite <- app_assoc.
      * simpl. now rewrite Hlen.
      * intros l Hne. rewrite (Hframe l Hne).
        apply read_insert_ne. congruence.
Qed.

End StationMethods.

(** X14. [installation_count] after an accepted [add_installations]: the
    count of the station has risen by the number of items handed over, and
    the count of a station that owns another list is what it was. *)
Theorem installation_count_after_add
    (self other : Station.t) (s : store) (arg : argument) (fuel : nat) :
  (Station.installations self < length s)%nat ->
  forallb isinstance_Installation (argument_items s arg) = true ->
  other_object self arg \/ argument_items s arg = [] ->
  (length (argument_items s arg) < fuel)%nat ->
  exists s1 : store,
    Station.add_installations fuel self arg s = (Return tt, s1, []) /\
    fst (fst (Station.installation_count self s1))
    = Return (length (read s (Station.installations self))
              + length (argument_items s arg))%nat /\
    (Station.installations other <> Station.installations self ->
     fst (fst (Station.installation_count other s1))
     = fst (fst (Station.installation_count other s))).
Proof.
  intros Hl Hall Hother Hfuel.
  eexists. split; [now apply add_installations_accepts|].
  rewrite !installation_count_reads. cbn [fst]. split.
  - now rewrite read_insert_eq, length_app.
  - intros Hne. rewrite read_insert_ne by congruence. reflexivity.
Qed.

Lemma installation_count_after_add_witness :
  exists s1 : store,
    Station.add_installations 3 sample_station
      (AObject (PInstallation (sample_installation 1)))
      [[PInstallation (sample_installation 0)]; []]
    = (Return tt, s1, []) /\
    fst (fst (Station.installation_count sample_station s1)) = Return 2%nat /\
    fst (fst (Station.installation_count (mock_station 2 1) s1))
    = Return 0%nat.
Proof.
  destruct (installation_count_after_add sample_station (mock_station 2 1)
              [[PInstallation (sample_installation 0)]; []]
              (AObject (PInstallation (sample_installation 1))) 3)
    as (s1 & Hrun & Hcount & Hother).
  - simpl. lia.
  - reflexivity.
  - now left.
  - simpl. lia.
  - exists s1. split; [exact Hrun|]. split; [exact Hcount|].
    apply Hother. discriminate.
Defined.

(** X15. Two calls of [add_installations] on a station, one after the
    other, leave the store as one call with the two lists joined does:
    the method only ever appends, in the order of its argument. *)
Theorem add_installations_twice
    (self : Station.t) (s : store) (xs ys : list pyobj) (fuel : nat) :
  (Station.installations self < length s)%nat ->
  forallb isinstance_Installation xs = true ->
  forallb isinstance_Installation ys = true ->
  (length xs + length ys < fuel)%nat ->
  Proc.bind (Station.add_installations fuel self (AList (Fresh xs)))
            (fun _ => Station.add_installations fuel self (AList (Fresh ys)))
            s
  = Station.add_installations fuel self (AList (Fresh (xs ++ ys))) s.
Proof.
  intros Hl Hxs Hys Hfuel.
  unfold Proc.bind.
  rewrite (add_installations_accepts self s (AList (Fresh xs)) fuel);
    [|assumption|assumption|now left|simpl; lia].
  rewrite (add_installations_accepts self _ (AList (Fresh ys)) fuel);
    [|now rewrite length_insert|assumption|now left|simpl; lia].
  rewrite (add_installations_accepts self s (AList (Fresh (xs ++ ys))) fuel);
    [|assumption| |now left|simpl; rewrite length_app; lia].
  - cbn [argument_items items_of app].
    rewrite read_insert_eq by assumption.
    now rewrite list_insert_insert_eq, <- app_assoc.
  - cbn [argument_items items_of]. rewrite forallb_app, Hxs, Hys.
    reflexivity.
Qed.

Lemma add_installations_twice_witness :
  Proc.bind
    (Station.add_installations 3 sample_station
       (AList (Fresh [PInstallation (sample_installation 1)])))
    (fun _ =>
       Station.add_installations 3 sample_station
         (AList (Fresh [PInstallation (sample_installation 2)])))
    [[]]
  = Station.add_installations 3 sample_station
      (AList (Fresh [PInstallation (sample_installation 1);
                     PInstallation (sample_installation 2)])) [[]].
Proof.
  apply (add_installations_twice sample_station [[]]
           [PInstallation (sample_installation 1)]
           [PInstallation (sample_installation 2)] 3);
    [simpl; lia|reflexivity|reflexivity|simpl; lia].
Defined.

(** X16. Any station that is handed its own list, when that list holds
    installations and is not empty, never comes back from
    [add_installations]: every turn of the loop appends one more item to
    the list it iterates over, so that after [fuel] turns the list is
    [fuel] items longer, and the other lists are as they were. *)
Theorem add_installations_own_list_grows
    (self : Station.t) (s : store) (fuel : nat) :
  (Station.installations self < length s)%nat ->
  read s (Station.installations self) <> [] ->
  forallb isinstance_Installation (read s (Station.installations self))
    = true ->
  exists (s' : store) added,
    Station.add_installations fuel self
      (AList (Stored (Station.installations self))) s
    = (Diverged, s', []) /\
    read s' (Station.installations self)
    = read s (Station.installations self) ++ added /\
    length added = fuel /\
    (forall l, l <> Station.installations self -> read s' l = read s l).
Proof.
  intros Hl Hne Hall.
  destruct (append_each_own_grows self fuel 0 s Hl)
    as (s' & added & Hrun & Hgrow).
  { destruct (read s (Station.installations self)); [congruence|simpl; lia]. }
  exists s', added. split; [|exact Hgrow].
  unfold Station.add_installations, Proc.bind, Proc.get_store.
  cbn [items_of]. rewrite Hall. cbn [negb]. now rewrite Hrun.
Qed.

Lemma add_installations_own_list_grows_witness :
  exists (s' : store) added,
    Station.add_installations 7 sample_station (AList (Stored 0))
      [[PInstallation (sample_installation 0)]]
    = (Diverged, s', []) /\
    read s' 0 = PInstallation (sample_installation 0) :: added /\
    length added = 7%nat.
Proof.
  destruct (add_installations_own_list_grows sample_station
              [[PInstallation (sample_installation 0)]] 7)
    as (s' & added & Hrun & Hread & Hlen & _).
  - simpl. lia.
  - discriminate.
  - reflexivity.
  - exists s', added. split; [exact Hrun|]. split; [exact Hread|exact Hlen].
Defined.

(* ================================================================= *)
(** ** [output_stations] and the [echo] of [get_stations] *)

Section Echo.

Lemma output_stations_lines sts (s : store) :
  output_stations sts s = (Return tt, s, map (station_line s) sts).
Proof.
  unfold output_stations.
  induction sts as [|st sts IH]; [reflexivity|].
  cbn [for_each map].
  erewrite bind_return by reflexivity.
  rewrite IH. reflexivity.
Qed.

(** A continuation that only prints more at its end keeps doing so behind
    any computation that runs before it. *)
Lemma bind_echo {A} (c : proc A) (k k' : A -> proc (list Station.t)) :
  (forall a (s : store) r s' t,
      k a s = (r, s', t) -> k' a s = (r, s', t ++ echo_lines r s')) ->
  forall (s : store) r s' t,
    Proc.bind c k s = (r, s', t) ->
    Proc.bind c k' s = (r, s', t ++ echo_lines r s').
Proof.
  intros Hk s r s' t. unfold Proc.bind.
  destruct (c s) as [[[a|e|] s1] t1].
  - destruct (k a s1) as [[r1 s2] t2] eqn:Hrun.
    rewrite (Hk _ _ _ _ _ Hrun). intros [= <- <- <-].
    now rewrite app_assoc.
  - intros [= <- <- <-]. cbn [echo_lines]. now rewrite app_nil_r.
  - intros [= <- <- <-]. cbn [echo_lines]. now rewrite app_nil_r.
Qed.

End Echo.

(** X18. [echo] changes nothing but the output: the call with
    [echo = True] ends as the call with [echo = False] does, with the same
    result and the same lists, and when the call returns it has called
    [print], after everything else, once for each returned station. *)
Theorem get_stations_echo_only_prints
    (net : network) (sched : list nat) (fuel : nat) (s s2 : store)
    (r : outcome (list Station.t)) (evs : list event) :
  get_stations net sched fuel false s = (r, s2, evs) ->
  get_stations net sched fuel true s = (r, s2, evs ++ echo_lines r s2).
Proof.
  unfold get_stations.
  apply bind_echo. intros _ s0 r0 s0' t0.
  apply bind_echo. intros looped s1 r1 s1' t1. cbv zeta.
  apply bind_echo. intros gathered1 s3 r3 s3' t3. cbv zeta.
  apply bind_echo. intros gathered2 s4 r4 s4' t4.
  apply bind_echo. intros _ s5 r5 s5' t5.
  apply bind_echo. intros _ s6 r6 s6' t6.
  unfold Proc.bind at 1, Proc.ret. intros [= <- <- <-].
  unfold Proc.bind. rewrite output_stations_lines.
  cbn [echo_lines app]. now rewrite app_nil_r.
Qed.

Lemma get_stations_echo_only_prints_witness :
  get_stations mock_api [] 3 true []
  = (Return [mock_station 1 0; mock_station 2 1],
     [[PInstallation (sample_installation 10);
       PInstallation (sample_installation 11)];
      [PInstallation (sample_installation 20)]],
     snd (get_stations mock_api [] 3 false []) ++
     [EvPrint (LogStation (VInt 1) (VStr "Wrocław")
                 [PInstallation (sample_installation 10);
                  PInstallation (sample_installation 11)]);
      EvPrint (LogStation (VInt 2) (VStr "Wrocław")
                 [PInstallation (sample_installation 20)])]).
Proof.
  apply (get_stations_echo_only_prints mock_api [] 3 []
           [[PInstallation (sample_installation 10);
             PInstallation (sample_installation 11)];
            [PInstallation (sample_installation 20)]]
           (Return [mock_station 1 0; mock_station 2 1])
           (snd (get_stations mock_api [] 3 false []))).
  reflexivity.
Defined.

(* ================================================================= *)
(** ** [get_stations] from the first request to the merged lists *)

Section EndToEnd.
Variable net : network.

Lemma read_old (s added : store) l :
  (l < length s)%nat -> read (s ++ added) l = read s l.
Proof. intros H. unfold read. now rewrite lookup_app_l. Qed.

(** The loop of [get_stations] over a resource that serves all the pages
    it reports. *)
Lemma get_stations_loop_all_pages task_fuel total fields records fevs fuel
      (s : store) :
  1 <= total ->
  serves net stations_url stations_key total (Z.to_nat total)
         fields records fevs ->
  (Z.to_nat total < fuel)%nat ->
  get_stations_loop net fuel task_fuel 0 (VInt 1) false [] [] s
  = (Return (place (length s)
               (over_pages 0 (Z.to_nat total)
                  (fun i => page_stations (records i))),
             map (installations_task net task_fuel)
               (place (length s)
                  (over_pages 0 (Z.to_nat total)
                     (fun i => page_stations (records i))))),
     s ++ repeat [] (length (over_pages 0 (Z.to_nat total)
                               (fun i => page_stations (records i)))),
     over_pages 0 (Z.to_nat total) (station_turn total records fevs)).
Proof.
  intros Htotal Hserves Hfuel.
  replace fuel with (Z.to_nat total + (fuel - Z.to_nat total))%nat by lia.
  pose proof (get_stations_loop_pages net task_fuel total (Z.to_nat total)
                fields records fevs Hserves (Z.to_nat total) 0%nat
                (fuel - Z.to_nat total)%nat [] [] s
                ltac:(lia) ltac:(intros i Hi; lia)) as Hrun.
  cbv zeta in Hrun. cbn [loop_state fst snd Nat.add] in Hrun.
  change (Z.of_nat 0) with 0 in Hrun. rewrite Hrun. clear Hrun.
  destruct (fuel - Z.to_nat total)%nat as [|fuel'] eqn:Hf; [lia|].
  rewrite get_stations_loop_turn.
  destruct (Z.to_nat total) as [|n] eqn:Hn; [lia|].
  cbn [loop_state fst snd int_lt IO.ret].
  destruct (Z.ltb_spec (Z.of_nat (S n)) total) as [?|_]; [lia|].
  cbn [app]. now rewrite app_nil_r.
Qed.

(** The lines of [get_stations] after its loop, when every task
    returns. *)
Lemma get_stations_merges sched fuel echo (s : store) sts evs1 installs :
  get_stations_loop net fuel fuel 0 (VInt 1) false [] [] s
    = (Return (place (length s) sts,
               map (installations_task net fuel) (place (length s) sts)),
       s ++ repeat [] (length sts), evs1) ->
  (forall st, In st (place (length s) sts) ->
     returns (Station.get_installations net fuel st) (installs st) /\
     (length (installs st) < fuel)%nat) ->
  exists evs2,
    get_stations net sched fuel echo s
    = (Return (place (length s) sts),
       fold_left (merged_one installs) (place (length s) sts)
                 (s ++ repeat [] (length sts)),
       evs2).
Proof.
  intros Hloop Hinstalls.
  set (master := place (length s) sts) in *.
  set (s1 := s ++ repeat [] (length sts)) in *.
  assert (Hlocs : map Station.installations master
                  = seq (length s) (length sts))
    by apply place_installations.
  assert (Hmerge : for_each master (merge_one fuel installs) s1
                   = (Return tt,
                      fold_left (merged_one installs) master s1, [])).
  { apply for_each_merge. intros st Hin. split; [|apply (Hinstalls st Hin)].
    apply (in_map Station.installations) in Hin.
    rewrite Hlocs in Hin. apply in_seq in Hin.
    unfold s1. rewrite length_app, repeat_length. lia. }
  destruct (gather_returns sched
              (map (Station.get_installations net fuel) master)
              (map installs master)) as [evs_g Hg].
  { apply Forall2_fmap, Forall_Forall2_diag, List.Forall_forall.
    intros st Hin. apply (Hinstalls st Hin). }
  rewrite map_map in Hg.
  change (map (fun x => asyncio.Pending (Station.get_installations net fuel x))
              master)
    with (map (installations_task net fuel) master) in Hg.
  assert (Hecho : exists evs_o,
             (if echo then output_stations master else Proc.ret tt)
               (fold_left (merged_one installs) master s1)
             = (Return tt, fold_left (merged_one installs) master s1, evs_o)).
  { destruct echo; [apply output_stations_run|now exists []]. }
  destruct Hecho as [evs_o Ho].
  eexists. unfold get_stations.
  erewrite bind_return by reflexivity.
  erewrite bind_return by exact Hloop.
  cbn [fst snd].
  erewrite bind_return by (unfold Proc.lift, asyncio.gather_concurrent; rewrite Hg; reflexivity).
  cbn [fst snd].
  erewrite bind_return
    by (unfold Proc.lift, asyncio.gather_concurrent;
         rewrite gather_returned; reflexivity).
  cbn [fst snd].
  erewrite bind_return.
  2: { rewrite (for_each_combine master installs
                  (fun station xs =>
                     Station.add_installations fuel station
                       (AList (Fresh (map PInstallation xs))))).
       exact Hmerge. }
  erewrite bind_return by reflexivity.
  erewrite bind_return by exact Ho.
  reflexivity.
Qed.

End EndToEnd.

(** X19. The whole of [get_stations], for every order in which the event
    loop finishes the tasks: when the stations resource serves the pages
    it reports, and for each station on them the installations resource
    serves the pages it reports for that station, the call returns the
    stations of all pages in page order, each with exactly the
    installations of its own pages, in page order; the lists that were in
    the store before the call are as they were. *)
Theorem get_stations_end_to_end
    (net : network) (sched : list nat) (fuel : nat) (echo : bool) (s : store)
    (total : Z) (fields : nat -> list (string * value))
    (records : nat -> list value) (fevs : nat -> list event)
    (pages : Station.t -> Z)
    (ifields : Station.t -> nat -> list (string * value))
    (irecords : Station.t -> nat -> list value)
    (ifevs : Station.t -> nat -> list event) :
  let master :=
    place (length s)
      (over_pages 0 (Z.to_nat total) (fun i => page_stations (records i))) in
  let installs st :=
    over_pages 0 (Z.to_nat (pages st))
      (fun i => page_installations (irecords st i)) in
  1 <= total ->
  serves net stations_url stations_key total (Z.to_nat total)
         fields records fevs ->
  (Z.to_nat total < fuel)%nat ->
  (forall st, In st master ->
     1 <= pages st /\
     serves net (Station.sensors_url st) installations_key (pages st)
            (Z.to_nat (pages st)) (ifields st) (irecords st) (ifevs st) /\
     (Z.to_nat (pages st) < fuel)%nat /\
     (length (installs st) < fuel)%nat) ->
  exists (s2 : store) evs,
    get_stations net sched fuel echo s = (Return master, s2, evs) /\
    length s2 = (length s + length master)%nat /\
    (forall st, In st master ->
       read s2 (Station.installations st)
       = map PInstallation (installs st)) /\
    (forall l, (l < length s)%nat -> read s2 l = read s l).
Proof.
  intros master installs Htotal Hserves Hfuel Hstations.
  set (sts := over_pages 0 (Z.to_nat total)
                (fun i => page_stations (records i))) in *.
  pose proof (get_stations_loop_all_pages net fuel total fields records fevs
                fuel s Htotal Hserves Hfuel) as Hloop.
  fold sts in Hloop. fold master in Hloop.
  assert (Hinst : forall st, In st master ->
             returns (Station.get_installations net fuel st) (installs st) /\
             (length (installs st) < fuel)%nat).
  { intros st Hin. destruct (Hstations st Hin) as (H1 & Hs & Hf & Hlen).
    split; [|exact Hlen]. unfold returns.
    rewrite (get_installations_pages net st (pages st) (Z.to_nat (pages st))
               (ifields st) (irecords st) (ifevs st) fuel Hs H1
               ltac:(lia) Hf).
    reflexivity. }
  destruct (get_stations_merges net sched fuel echo s sts _ installs
              Hloop Hinst) as [evs2 Hrun].
  fold master in Hrun.
  assert (Hlocs : map Station.installations master
                  = seq (length s) (length sts))
    by apply place_installations.
  assert (Hvalid : forall st, In st master ->
             (length s <= Station.installations st
              < length (s ++ repeat [] (length sts)))%nat).
  { intros st Hin. apply (in_map Station.installations) in Hin.
    rewrite Hlocs in Hin. apply in_seq in Hin.
    rewrite length_app, repeat_length. lia. }
  eexists _, evs2. split; [exact Hrun|]. split; [|split].
  - assert (Hlen : forall (sts0 : list Station.t) (s0 : store),
               length (fold_left (merged_one installs) sts0 s0) = length s0).
    { induction sts0 as [|st0 sts0 IH]; intros s0; [reflexivity|].
      cbn [fold_left]. rewrite IH. unfold merged_one.
      apply length_insert. }
    rewrite Hlen, length_app, repeat_length. unfold master.
    now rewrite place_length.
  - intros st Hin.
    rewrite merged_read.
    + rewrite read_new_lists by apply (Hvalid st Hin). reflexivity.
    + rewrite Hlocs. apply NoDup_seq.
    + assumption.
    + apply (Hvalid st Hin).
  - intros l Hl. rewrite merged_other.
    + now apply read_old.
    + rewrite Hlocs. intros Hin. apply in_seq in Hin. lia.
Qed.

(** The task of the second station finishes first. *)
Lemma get_stations_end_to_end_witness :
  exists (s2 : store) evs,
    get_stations mock_api [1%nat; 0%nat] 3 false []
    = (Return [mock_station 1 0; mock_station 2 1], s2, evs) /\
    read s2 0 = [PInstallation (sample_installation 10);
                 PInstallation (sample_installation 11)] /\
    read s2 1 = [PInstallation (sample_installation 20)].
Proof.
  pose proof (get_stations_end_to_end mock_api [1%nat; 0%nat] 3 false [] 2
                (fun i => stations_page 2 (mock_station_records i))
                mock_station_records
                (fun i => [EvRequest (stations_url (Z.of_nat i))])
                mock_pages
                (fun st i => installations_page (mock_pages st)
                               (mock_installation_records st i))
                mock_installation_records
                (fun st i => [EvRequest (Station.sensors_url st (Z.of_nat i))]))
    as H.
  cbv zeta in H.
  destruct H as (s2 & evs & Hrun & _ & Hread & _).
  - lia.
  - intros i Hi. destruct i as [|[|i]]; [| |simpl in Hi; lia];
      (split; [reflexivity|split; [reflexivity|split;
        [repeat constructor|intros; try reflexivity; discriminate]]]).
  - simpl. lia.
  - intros st [<-|[<-|[]]].
    + split; [vm_compute; discriminate|].
      split; [|split; vm_compute; lia].
      intros i Hi. destruct i as [|[|i]]; [| |vm_compute in Hi; lia];
        (split; [reflexivity|split; [reflexivity|split;
          [repeat constructor|intros; try reflexivity; discriminate]]]).
    + split; [vm_compute; discriminate|].
      split; [|split; vm_compute; lia].
      intros i Hi. destruct i as [|i]; [|vm_compute in Hi; lia].
      split; [reflexivity|split; [reflexivity|split;
        [repeat constructor|reflexivity]]].
  - exists s2, evs. split; [exact Hrun|]. split.
    + apply (Hread (mock_station 1 0)). now left.
    + apply (Hread (mock_station 2 1)). right. now left.
Defined.

(** X20. What the loop of [get_stations] hands to the two [gather] calls
    and to [zip], whatever the pages hold: when the loop returns, the
    [i]-th task is the installations fetch of the [i]-th station, every
    station owns a list of its own, made during the loop and empty, and
    nothing else has been added to the store. *)
Theorem get_stations_loop_aligned
    (net : network) (fuel task_fuel : nat) (s s1 : store)
    (master : list Station.t) (tasks : list installation_task)
    (evs : list event) :
  get_stations_loop net fuel task_fuel 0 (VInt 1) false [] [] s
    = (Return (master, tasks), s1, evs) ->
  tasks = map (installations_task net task_fuel) master /\
  length tasks = length master /\
  map Station.installations master = seq (length s) (length master) /\
  s1 = s ++ repeat [] (length master).
Proof.
  intros Hloop.
  destruct (get_stations_loop_returns net _ _ _ _ _ _ _ _ _ _ _ _ Hloop)
    as (sts & -> & -> & ->).
  cbn [app]. rewrite place_length, length_map, place_length.
  repeat split. apply place_installations.
Qed.

Lemma get_stations_loop_aligned_witness :
  [installations_task mock_api 3 (mock_station 1 0);
   installations_task mock_api 3 (mock_station 2 1)]
  = map (installations_task mock_api 3)
        [mock_station 1 0; mock_station 2 1] /\
  map Station.installations [mock_station 1 0; mock_station 2 1]
  = [0%nat; 1%nat].
Proof.
  destruct (get_stations_loop_aligned mock_api 3 3 [] [[]; []]
              [mock_station 1 0; mock_station 2 1]
              [installations_task mock_api 3 (mock_station 1 0);
               installations_task mock_api 3 (mock_station 2 1)]
              [EvRequest (stations_url 0);
               EvPrint (LogCompletedPage 1 (VInt 2));
               EvRequest (stations_url 1);
               EvPrint (LogKeyError broken_station_record);
               EvPrint (LogCompletedPage 2 (VInt 2))] eq_refl)
    as (Htasks & _ & Hlocs & _).
  split; [exact Htasks|exact Hlocs].
Defined.

(* ================================================================= *)
(** ** The lists that [get_stations] writes to *)

Section Frame.

Lemma bind_store {A B} (c : proc A) (k : A -> proc B) (s : store) r s' t :
  Proc.bind c k s = (r, s', t) ->
  (exists a (s1 : store) t1 t2,
      c s = (Return a, s1, t1) /\ k a s1 = (r, s', t2)) \/
  (exists r0 t0, c s = (r0, s', t0)).
Proof.
  unfold Proc.bind.
  destruct (c s) as [[[a|e|] s1] t1].
  - destruct (k a s1) as [[r1 s2] t2] eqn:Hk. intros [= <- <- <-].
    left. now exists a, s1, t1, t2.
  - intros [= <- <- <-]. right. eauto.
  - intros [= <- <- <-]. right. eauto.
Qed.

(** The loop of [add_installations] writes to the list of its station
    and to no other, however it ends. *)
Lemma append_each_frame self xs :
  forall fuel index (s : store) r (s' : store) t,
    Station.append_each fuel self xs index s = (r, s', t) ->
    length s' = length s /\
    (forall l, l <> Station.installations self -> read s' l = read s l).
Proof.
  induction fuel as [|fuel IH]; intros index s r s' t.
  - intros [= <- <- <-]. now split.
  - cbn [Station.append_each]. intros H.
    apply bind_store in H
      as [(s0 & s1 & t1 & t2 & [= <- <- <-] & H)|(r0 & t0 & [= <- <- <-])];
      [|now split].
    destruct (items_of s xs !! index) as [install|].
    + apply bind_store in H
        as [(u & s1 & t1 & t3 & [= <- <- <-] & H)|(r0 & t0 & [= <- <- <-])].
      * apply IH in H. destruct H as [Hlen Hframe].
        rewrite length_insert in Hlen. split; [exact Hlen|].
        intros l Hne. rewrite (Hframe l Hne).
        apply read_insert_ne. congruence.
      * rewrite length_insert. split; [reflexivity|].
        intros l Hne. apply read_insert_ne. congruence.
    + injection H as <- <- <-. now split.
Qed.

Lemma add_installations_frame fuel self arg (s : store) r (s' : store) t :
  Station.add_installations fuel self arg s = (r, s', t) ->
  length s' = length s /\
  (forall l, l <> Station.installations self -> read s' l = read s l).
Proof.
  unfold Station.add_installations. intros H.
  apply bind_store in H
    as [(s0 & s1 & t1 & t2 & [= <- <- <-] & H)|(r0 & t0 & [= <- <- <-])];
    [|now split].
  destruct (negb _).
  - injection H as <- <- <-. now split.
  - now apply append_each_frame in H.
Qed.

(** The merge writes to the lists of the stations it is given. *)
Lemma for_each_frame fuel base
      (pairs : list (Station.t * list Installation.t)) :
  (forall p, In p pairs -> (base <= Station.installations (fst p))%nat) ->
  forall (s : store) r (s' : store) t,
    for_each pairs
      (fun '(station, installs) =>
         Station.add_installations fuel station
           (AList (Fresh (map PInstallation installs)))) s = (r, s', t) ->
    length s' = length s /\
    (forall l, (l < base)%nat -> read s' l = read s l).
Proof.
  induction pairs as [|[st xs] pairs IH]; intros Hbase s r s' t.
  - intros [= <- <- <-]. now split.
  - cbn [for_each]. intros H.
    specialize (Hbase (st, xs) ltac:(now left)) as Hst. cbn [fst] in Hst.
    apply bind_store in H
      as [(u & s1 & t1 & t2 & Hadd & H)|(r0 & t0 & Hadd)];
      apply add_installations_frame in Hadd; destruct Hadd as [Hlen Hframe].
    + apply IH in H; [|intros p Hp; apply Hbase; now right].
      destruct H as [Hlen' Hframe']. split; [congruence|].
      intros l Hl. rewrite (Hframe' l Hl). apply Hframe. lia.
    + split; [exact Hlen|]. intros l Hl. apply Hframe. lia.
Qed.

(** The loop of [get_stations] only adds new empty lists to the store,
    however it ends. *)
Lemma get_stations_loop_store net tf :
  forall fuel cur tp upd tasks master (s : store) r (s' : store) evs,
    get_stations_loop net fuel tf cur tp upd tasks master s = (r, s', evs) ->
    exists n, s' = s ++ repeat [] n.
Proof.
  induction fuel as [|fuel IH]; intros cur tp upd tasks master s r s' evs H.
  - injection H as <- <- <-. exists 0%nat. now rewrite app_nil_r.
  - rewrite get_stations_loop_turn in H.
    assert (Hsame : exists n, s = s ++ repeat [] n)
      by (exists 0%nat; now rewrite app_nil_r).
    destruct (fst (int_lt cur tp)) as [[|]|e|];
      try (injection H as <- <- <-; exact Hsame).
    destruct (fetch_data net (stations_url cur) default_max_retries)
      as [[data|e|] fevs]; try (injection H as <- <- <-; exact Hsame).
    destruct (fst (read_total upd tp data)) as [tp'|e|];
      try (injection H as <- <- <-; exact Hsame).
    destruct (create_stations_cases data)
      as [(sts0 & pevs & Hd)|(e & n & pevs & Hd)];
      rewrite (Hd s) in H.
    + destruct (get_stations_loop net fuel tf (cur + 1) tp' true _ _ _)
        as [[r2 s2] evs'] eqn:Hrec.
      injection H as <- <- <-.
      apply IH in Hrec. destruct Hrec as [n ->].
      exists (length sts0 + n)%nat. now rewrite repeat_app, app_assoc.
    + injection H as <- <- <-. eauto.
Qed.

End Frame.

(** X21. [get_stations] writes to the lists of the stations it has made
    and to no others: however the call ends (it returns, a fetch or a
    parse raises, a task raises), every list that was in the store before
    the call holds what it held. *)
Theorem get_stations_keeps_old_lists
    (net : network) (sched : list nat) (fuel : nat) (echo : bool)
    (s s2 : store) (r : outcome (list Station.t)) (evs : list event) :
  get_stations net sched fuel echo s = (r, s2, evs) ->
  (length s <= length s2)%nat /\
  (forall l, (l < length s)%nat -> read s2 l = read s l).
Proof.
  assert (Hgrown : forall n, (length s <= length (s ++ repeat [] n))%nat /\
             (forall l, (l < length s)%nat ->
                        read (s ++ repeat [] n) l = read s l)).
  { intros n. split; [rewrite length_app; lia|].
    intros l Hl. unfold read. now rewrite lookup_app_l. }
  unfold get_stations. intros H.
  apply bind_store in H
    as [(u & s0 & t1 & t2 & [= <- <- <-] & H)|(r0 & t0 & [= <- <- <-])];
    [|split; auto].
  apply bind_store in H
    as [(looped & s1 & t3 & t4 & Hloop & H)|(r0 & t0 & Hloop)].
  2: { apply get_stations_loop_store in Hloop. destruct Hloop as [n ->].
       apply Hgrown. }
  destruct looped as [master tasks].
  destruct (get_stations_loop_returns net _ _ _ _ _ _ _ _ _ _ _ _ Hloop)
    as (sts & Hmaster & _ & ->).
  cbn [app fst snd] in *.
  apply bind_store in H
    as [(g1 & s3 & t5 & t6 & [= _ <- _] & H)|(r0 & t0 & [= _ <- _])];
    [|apply Hgrown].
  apply bind_store in H
    as [(g2 & s3 & t7 & t8 & [= _ <- _] & H)|(r0 & t0 & [= _ <- _])];
    [|apply Hgrown].
  assert (Hmerge : forall r0 (s3 : store) t0,
             for_each (combine master (snd g2))
               (fun '(station, installs) =>
                  Station.add_installations fuel station
                    (AList (Fresh (map PInstallation installs))))
               (s ++ repeat [] (length sts)) = (r0, s3, t0) ->
             (length s <= length s3)%nat /\
             (forall l, (l < length s)%nat -> read s3 l = read s l)).
  { intros r0 s3 t0 Hrun.
    apply (for_each_frame fuel (length s)) in Hrun.
    - destruct Hrun as [Hlen Hframe]. split.
      + rewrite Hlen. apply Hgrown.
      + intros l Hl. rewrite (Hframe l Hl). now apply Hgrown.
    - intros [st xs] Hin. apply in_combine_l in Hin. cbn [fst].
      apply (in_map Station.installations) in Hin.
      rewrite Hmaster, place_installations in Hin.
      apply in_seq in Hin. lia. }
  apply bind_store in H
    as [(u & s3 & t9 & t10 & Hrun & H)|(r0 & t0 & Hrun)];
    [|now apply Hmerge in Hrun].
  apply Hmerge in Hrun.
  apply bind_store in H
    as [(u' & s4 & t11 & t12 & [= <- <- <-] & H)|(r0 & t0 & [= <- <- <-])];
    [|exact Hrun].
  apply bind_store in H
    as [(u'' & s4 & t13 & t14 & Hout & H)|(r0 & t0 & Hout)].
  - injection H as <- <- <-.
    destruct echo; [rewrite output_stations_lines in Hout|];
      injection Hout as <- <- <-; exact Hrun.
  - destruct echo; [rewrite output_stations_lines in Hout|];
      injection Hout as <- <- <-; exact Hrun.
Qed.

(** A call that raises (the installations of the second station cannot
    be fetched), on a store that holds a list already. *)
Lemma get_stations_keeps_old_lists_witness :
  fst (fst (get_stations second_station_down [] 3 false
              [[PInstallation (sample_installation 0)]]))
  = Raised failed_to_fetch /\
  read (snd (fst (get_stations second_station_down [] 3 false
                    [[PInstallation (sample_installation 0)]]))) 0
  = [PInstallation (sample_installation 0)].
Proof.
  split; [reflexivity|].
  destruct (get_stations_keeps_old_lists second_station_down [] 3 false
              [[PInstallation (sample_installation 0)]]
              (snd (fst (get_stations second_station_down [] 3 false
                           [[PInstallation (sample_installation 0)]])))
              (fst (fst (get_stations second_station_down [] 3 false
                           [[PInstallation (sample_installation 0)]])))
              (snd (get_stations second_station_down [] 3 false
                      [[PInstallation (sample_installation 0)]]))
              eq_refl) as [_ H].
  apply (H 0%nat). simpl. lia.
Defined.

(* ================================================================= *)
(** ** Pages that cannot be parsed *)

Section ParseErrors.
Variable net : network.

(** The first exception in the order of the indices. *)
Lemma first_exception_first {A} (tasks : list (asyncio.Task A)) p e :
  tasks !! p = Some (asyncio.Done (Raised e)) ->
  (forall i e', (i < p)%nat -> tasks !! i <> Some (asyncio.Done (Raised e'))) ->
  forall k b,
    (b <= p < b + k)%nat ->
    asyncio.first_exception tasks (seq b k) = Some e.
Proof.
  intros Hp Hbefore. induction k as [|k IH]; intros b Hb; [lia|].
  cbn [seq asyncio.first_exception].
  destruct (Nat.eq_dec b p) as [->|Hne]; [now rewrite Hp|].
  rewrite (IH (S b)) by lia.
  destruct (tasks !! b) as [[c|[a|e'|]]|] eqn:Hlook; try reflexivity.
  exfalso. apply (Hbefore b e'); [lia|assumption].
Qed.

(** Tasks that are run in the order of their creation: [gather] raises
    the exception of the first one that raised, after all have run. *)
Lemma gather_fifo_raises {A} (cs : list (io A)) p e :
  Forall (fun c => fst c <> Diverged) cs ->
  fst <$> cs !! p = Some (Raised e) ->
  (forall i c, (i < p)%nat -> cs !! i = Some c -> exists a, fst c = Return a) ->
  asyncio.gather [] (map asyncio.Pending cs)
  = (Raised e, concat (map snd cs)).
Proof.
  intros Hends Hp Hbefore. unfold asyncio.gather, asyncio.run. cbn [app].
  rewrite length_map, done_indices_pending.
  pose proof (run_fifo cs Hends [] [] []) as Hrun.
  cbn [app length] in Hrun. rewrite Hrun. cbn [app].
  rewrite (first_exception_first _ p e); [reflexivity| | |].
  - rewrite list_lookup_fmap. unfold io in *.
    destruct (cs !! p) as [c|]; [|discriminate].
    simpl in *. congruence.
  - intros i e' Hi. rewrite list_lookup_fmap. unfold io in *.
    destruct (cs !! i) as [c|] eqn:Hc; [|discriminate].
    destruct (Hbefore i c Hi Hc) as [a Ha]. simpl. rewrite Ha.
    discriminate.
  - destruct (cs !! p) as [c|] eqn:Hc; [|discriminate].
    apply lookup_lt_Some in Hc. split; [lia|exact Hc].
Qed.

End ParseErrors.

(** X22. The pages of a station's installations are parsed in tasks, and
    the tasks are awaited after the loop: a page that cannot be parsed
    does not stop the loop. All the pages are fetched, and then the call
    raises the exception of the first such page; of the installations on
    the other pages nothing is returned. *)
Theorem get_installations_parse_error_after_fetching
    (net : network) (self : Station.t) (fuel : nat) (total : Z) (n p : nat)
    (fields : nat -> list (string * value)) (fevs : nat -> list event)
    (e : exn) :
  delivers net (Station.sensors_url self) total n fields fevs ->
  1 <= total -> Z.of_nat n = total -> (n < fuel)%nat ->
  (p < n)%nat ->
  fst (parse_of fields p) = Raised e ->
  (forall i, (i < p)%nat -> exists xs, fst (parse_of fields i) = Return xs) ->
  fst (Station.get_installations net fuel self) = Raised e /\
  requests (snd (Station.get_installations net fuel self))
  = requests (over_pages 0 n fevs).
Proof.
  intros Hdel Htotal Hn Hfuel Hp Hraise Hbefore.
  rewrite (get_installations_delivered net self total n fields fevs fuel)
    by assumption.
  rewrite (gather_fifo_raises _ p e).
  - cbn [fst snd gathered]. split; [reflexivity|].
    rewrite requests_app, requests_ready_at, app_nil_r.
    rewrite !requests_over_pages_map.
    apply over_pages_ext. intros i _. apply requests_turn_events.
  - apply List.Forall_forall. intros c Hin. apply in_map_iff in Hin.
    destruct Hin as (i & <- & _). apply create_installations_ends.
  - rewrite list_lookup_fmap, lookup_seq_lt by assumption.
    simpl. now rewrite Hraise.
  - intros i c Hi Hc. rewrite list_lookup_fmap, lookup_seq_lt in Hc by lia.
    injection Hc as <-. apply (Hbefore i Hi).
Qed.

Lemma get_installations_parse_error_after_fetching_witness :
  (exists msg,
      fst (Station.get_installations first_pages_broken 3 (mock_station 1 0))
      = Raised (TypeError msg)) /\
  requests (snd (Station.get_installations first_pages_broken 3
                   (mock_station 1 0)))
  = [Station.sensors_url (mock_station 1 0) 0;
     Station.sensors_url (mock_station 1 0) 1].
Proof.
  destruct (get_installations_parse_error_after_fetching first_pages_broken
              (mock_station 1 0) 3 2 2 0
              (fun i => match i with
                        | O => installations_page 2 [VNone]
                        | _ => installations_page 2
                                 [broken_installation_record;
                                  sample_installation_record 11]
                        end)
              (fun i => [EvRequest (Station.sensors_url (mock_station 1 0)
                                                        (Z.of_nat i))])
              (TypeError "object is not subscriptable")) as [Hrun Hreq].
  - intros i Hi. destruct i as [|[|i]]; [| |lia];
      (split; [reflexivity|intros; try reflexivity; discriminate]).
  - lia.
  - reflexivity.
  - lia.
  - lia.
  - reflexivity.
  - intros i Hi. lia.
  - split; [eexists; exact Hrun|exact Hreq].
Defined.

(** X23. The pages of stations are parsed in the loop itself: a page of
    stations that cannot be parsed ends [get_stations] with the exception
    of the parse, on whatever page the loop has got to; the stations of
    the pages before it are not returned. *)
Theorem get_stations_parse_error_is_raised
    (net : network) (sched : list nat) (fuel : nat) (echo : bool) (s : store)
    (total : Z) (p : nat) (fields : nat -> list (string * value))
    (records : nat -> list value) (fevs : nat -> list event)
    (fields_p : list (string * value)) (fevs_p pevs : list event)
    (e : exn) (s' : store) :
  let before := over_pages 0 p (fun i => page_stations (records i)) in
  serves net stations_url stations_key total p fields records fevs ->
  (forall i, (0 < i <= p)%nat -> Z.of_nat i < total) ->
  fetch_data net (stations_url (Z.of_nat p)) default_max_retries
    = (Return (VDict fields_p), fevs_p) ->
  is_Some (assoc "totalPages" fields_p) ->
  create_stations (VDict fields_p) (s ++ repeat [] (length before))
    = (Raised e, s', pevs) ->
  (p < fuel)%nat ->
  exists evs, get_stations net sched fuel echo s = (Raised e, s', evs).
Proof.
  intros before Hserves Hlt Hfetch [v Htp] Hparse Hfuel.
  eexists. apply get_stations_raises.
  pose proof (get_stations_loop_pages net fuel total p fields records fevs
                Hserves p 0%nat (fuel - p)%nat [] [] s
                ltac:(lia) ltac:(intros i Hi; apply Hlt; lia)) as Hrun.
  cbv zeta in Hrun. cbn [loop_state fst snd Nat.add] in Hrun.
  replace (p + (fuel - p))%nat with fuel in Hrun by lia.
  destruct (fuel - p)%nat as [|fuel'] eqn:Hf; [lia|].
  rewrite get_stations_loop_turn in Hrun.
  assert (Hgo : fst (int_lt (Z.of_nat p) (fst (loop_state total p)))
                = Return true).
  { destruct p as [|p]; [reflexivity|]. cbn [loop_state fst int_lt IO.ret].
    destruct (Z.ltb_spec (Z.of_nat (S p)) total) as [_|?]; [reflexivity|].
    specialize (Hlt (S p) ltac:(lia)). lia. }
  assert (Hread : exists tp,
             fst (read_total (snd (loop_state total p))
                    (fst (loop_state total p)) (VDict fields_p))
             = Return tp).
  { destruct p as [|p]; cbn [loop_state fst snd read_total].
    - rewrite getitem_dict, Htp. eauto.
    - eauto. }
  destruct Hread as [tp Hread].
  rewrite Hgo, Hfetch, Hread in Hrun. fold before in Hrun.
  rewrite Hparse in Hrun. exact Hrun.
Qed.

Lemma get_stations_parse_error_is_raised_witness :
  exists evs,
    get_stations first_pages_broken [] 3 false []
    = (Raised (TypeError "string indices must be integers, not 'str'"), [[]],
       evs).
Proof.
  pose proof (get_stations_parse_error_is_raised first_pages_broken [] 3
                false [] 2 0
                (fun _ => stations_page 2 [])
                (fun _ => [])
                (fun _ => [])
                (stations_page 2 [sample_station_record 1; VStr "station"])
                [EvRequest (stations_url 0)] []
                (TypeError "string indices must be integers, not 'str'")
                [[]]) as H.
  cbv zeta in H. apply H.
  - intros i Hi. lia.
  - intros i Hi. lia.
  - reflexivity.
  - eexists. reflexivity.
  - reflexivity.
  - lia.
Defined.
